(** * Harmony Travels: the booking form and the ticket renderer of [ticket.js]

    A shallow embedding of [src/ticket.js]: the price matrix, the booking
    form wiring (option population, price resolution, the submit handler) and
    the [TicketRenderer] module (ticket fragment, exports), followed by the
    properties of the booking/ticket pipeline.

    Conventions of the embedding.
    - A JavaScript string is a [string]; a character stands for one code unit
      below 256.
    - A Number that the script only ever holds as an integer (a price of the
      matrix, a tax, a total, a millisecond time stamp) is a [Z].  Where the
      script multiplies or divides Numbers, the operation is carried out on
      IEEE 754 binary64 values ([spec_float] with 53 bits of precision); the
      layout formulas of the PDF export are read over exact rationals as
      well.
    - The form wiring is given first on the names the script offers (the
      keys of the price matrix) and on unknown names, where a property read
      answers the own property or [None] (JavaScript's [undefined]); module
      [Prototype] gives the same functions on every name, those of the
      members of [Object.prototype] included, with the way each call ends.
    - The browser (dates, locale formatting, the capture, QR and PDF
      libraries, the clipboard, pop-ups) is a [Host] record on which every
      handler depends. *)

From Stdlib Require Import ZArith List String Ascii Bool Lia QArith Qfield Lqa.
From Stdlib Require Import SpecFloat.
From stdpp Require Import gmap strings.
Import ListNotations.

Local Open Scope string_scope.
Local Open Scope Z_scope.

(* ===================================================================== *)
(** * Built-ins of the language *)
(* ===================================================================== *)

Module JS.

(** ** Strings *)

(** Truthiness of a string: only the empty string is falsy. *)
Definition truthy (s : string) : bool := negb (String.eqb s "").

(** [a || b] on strings. *)
Definition or_else (a b : string) : string := if truthy a then a else b.

(** White space and line terminators, as [trim] and the regular
    expression class [\s] see them, among the code units below 256. *)
Definition is_space (c : ascii) : bool :=
  let n := N_of_ascii c in
  ((9 <=? n) && (n <=? 13) || (n =? 32) || (n =? 160))%N.

Fixpoint trimStart (s : string) : string :=
  match s with
  | String c r => if is_space c then trimStart r else s
  | EmptyString => EmptyString
  end.

Fixpoint trimEnd (s : string) : string :=
  match s with
  | String c r =>
      match trimEnd r with
      | EmptyString => if is_space c then EmptyString else String c EmptyString
      | r' => String c r'
      end
  | EmptyString => EmptyString
  end.

(** [String.prototype.trim]. *)
Definition trim (s : string) : string := trimEnd (trimStart s).

(** [s.replace(/\s+/g, r)]: every maximal run of white space becomes [r];
    [in_run] tells that the previous character was white space. *)
Fixpoint replace_runs (r : string) (in_run : bool) (s : string) : string :=
  match s with
  | String c t =>
      if is_space c then
        if in_run then replace_runs r true t else r ++ replace_runs r true t
      else String c (replace_runs r false t)
  | EmptyString => EmptyString
  end.

Definition replace_spaces (r s : string) : string := replace_runs r false s.

Fixpoint repeat_char (c : ascii) (n : nat) : string :=
  match n with
  | O => EmptyString
  | S k => String c (repeat_char c k)
  end.

(** [s.padStart(n, c)] for a one-character filler. *)
Definition padStart (n : nat) (c : ascii) (s : string) : string :=
  repeat_char c (n - String.length s) ++ s.

(** [s.slice(-k)]: the last [k] characters, the whole string when it is
    shorter. *)
Definition slice_last (k : nat) (s : string) : string :=
  substring (String.length s - k) k s.

(** ** Numbers *)

Definition digit_char (d : Z) : ascii := ascii_of_N (48 + Z.to_N d).

(** Decimal digits of a non-negative integer, most significant first;
    [fuel] bounds the number of digits. *)
Fixpoint digits_acc (fuel : nat) (n : Z) (acc : string) : string :=
  match fuel with
  | O => acc
  | S f =>
      let acc' := String (digit_char (n mod 10)) acc in
      if n <? 10 then acc' else digits_acc f (n / 10) acc'
  end.

Definition digits (n : Z) : string :=
  digits_acc (S (Z.to_nat (Z.log2 n))) n EmptyString.

(** [Number.prototype.toString] on an integer (below 10^21 in absolute
    value, where JavaScript prints all digits). *)
Definition Number_toString (n : Z) : string :=
  if n <? 0 then String "-" (digits (- n)) else digits n.

(** binary64. *)
Definition prec : Z := 53.
Definition emax : Z := 1024.

Definition Number_of_Z (n : Z) : spec_float := binary_normalize prec emax n 0 false.
Definition Number_mul : spec_float -> spec_float -> spec_float := SFmul prec emax.
Definition Number_div : spec_float -> spec_float -> spec_float := SFdiv prec emax.
Definition Number_sub : spec_float -> spec_float -> spec_float := SFsub prec emax.

(** [a > b]: false as soon as one side is NaN. *)
Definition Number_gt (a b : spec_float) : bool := SFltb b a.

(** The literal [0.05]: the binary64 value nearest to 1/20. *)
Definition lit_0_05 : spec_float := S754_finite false 7205759403792794 (-57).

Definition is_finite (x : spec_float) : bool :=
  match x with
  | S754_zero _ => true
  | S754_finite _ _ _ => true
  | S754_infinity _ => false
  | S754_nan => false
  end.

(** [Math.round] on a finite Number: the integer nearest to the argument,
    a tie going to the larger one, that is [floor (x + 1/2)] computed
    exactly.  For NaN and the infinities JavaScript answers the argument
    itself, which no integer stands for; the script only rounds finite
    Numbers, and the [0] given here for the others is never used. *)
Definition Math_round (x : spec_float) : Z :=
  match x with
  | S754_zero _ => 0
  | S754_finite s m e =>
      let v := if s then Z.neg m else Z.pos m in
      if 0 <=? e then v * 2 ^ e
      else (2 * v + 2 ^ (- e)) / 2 ^ (1 - e)
  | S754_infinity _ => 0
  | S754_nan => 0
  end.

(** [a || 0] on an optional integer Number: [undefined] and [0] give [0]. *)
Definition or_zero (v : option Z) : Z :=
  match v with
  | Some n => n
  | None => 0
  end.

(** ** Object literals *)

(** Reading a property of an object literal given as its list of own
    properties, in source order. *)
Fixpoint prop {A : Type} (o : list (string * A)) (k : string) : option A :=
  match o with
  | (k', v) :: rest => if String.eqb k' k then Some v else prop rest k
  | [] => None
  end.

(** [Object.keys]. *)
Definition keys {A : Type} (o : list (string * A)) : list string := map fst o.

(** The members every object literal inherits from [Object.prototype]
    (ECMAScript, with its Annex B).  Each is a function, but for
    ["__proto__"], which answers [Object.prototype] itself: all of them are
    truthy, and none has a property [providers] or [classes]. *)
Definition Object_prototype : list string :=
  ["constructor"; "__defineGetter__"; "__defineSetter__"; "hasOwnProperty";
   "__lookupGetter__"; "__lookupSetter__"; "isPrototypeOf";
   "propertyIsEnumerable"; "toString"; "valueOf"; "__proto__";
   "toLocaleString"].

Definition inherited (k : string) : bool :=
  existsb (String.eqb k) Object_prototype.

(** What the read [o[k]] finds on an object literal [o]: an own property,
    else a member of [Object.prototype], else nothing ([undefined]). *)
Inductive member (A : Type) :=
| Own (a : A)
| Inherited
| Missing.

Arguments Own {A} a.
Arguments Inherited {A}.
Arguments Missing {A}.

Definition lookup {A : Type} (o : list (string * A)) (k : string) : member A :=
  match prop o k with
  | Some a => Own a
  | None => if inherited k then Inherited else Missing
  end.

(** Exceptions the script can meet. *)
Inductive exn :=
| TypeError
| RangeError
| Error (msg : string).

End JS.

(* ===================================================================== *)
(** * JSON *)
(* ===================================================================== *)

(** [JSON.stringify] and [JSON.parse] on the values a ticket payload is made
    of: strings, integer Numbers, nested objects and [undefined], with
    [null], booleans and arrays for completeness.  An object is the list of
    its own properties in creation order (no key is an array index in the
    payloads of this script). *)
Module JSON.

#[local] Unset Elimination Schemes.

Inductive value :=
| Undefined
| Null
| Bool (b : bool)
| Num (n : Z)
| Str (s : string)
| Arr (items : list value)
| Obj (props : list (string * value)).

#[local] Set Elimination Schemes.

(** Reading a property; a missing one reads as [undefined]. *)
Definition get (v : value) (k : string) : value :=
  match v with
  | Obj props =>
      match JS.prop props k with
      | Some x => x
      | None => Undefined
      end
  | _ => Undefined
  end.

Definition dquote : ascii := Eval cbv in ascii_of_N 34.
Definition backslash : ascii := Eval cbv in ascii_of_N 92.

(** ** Serialisation *)

Definition hex_char (d : N) : ascii :=
  if (d <? 10)%N then ascii_of_N (48 + d) else ascii_of_N (87 + d).

(** The escape of one character inside a quoted string. *)
Definition escape_char (c : ascii) : string :=
  let n := N_of_ascii c in
  if (n =? 8)%N then String backslash "b"
  else if (n =? 9)%N then String backslash "t"
  else if (n =? 10)%N then String backslash "n"
  else if (n =? 12)%N then String backslash "f"
  else if (n =? 13)%N then String backslash "r"
  else if (n =? 34)%N then String backslash (String dquote "")
  else if (n =? 92)%N then String backslash (String backslash "")
  else if (n <? 32)%N then
    String backslash (String "u" (String "0" (String "0"
      (String (hex_char (n / 16)) (String (hex_char (n mod 16)) "")))))
  else String c "".

Fixpoint escape (s : string) : string :=
  match s with
  | String c r => escape_char c ++ escape r
  | EmptyString => EmptyString
  end.

Definition quote (s : string) : string :=
  String dquote (escape s ++ String dquote "").

Fixpoint join (sep : string) (l : list string) : string :=
  match l with
  | [] => ""
  | [x] => x
  | x :: r => x ++ sep ++ join sep r
  end.

(** An array element: [undefined] is written [null]. *)
Definition element (t : option string) : string :=
  match t with
  | Some text => text
  | None => "null"
  end.

(** The members of an object, given the serialisation [ser] of values: a
    property holding [undefined] is left out. *)
Definition members (ser : value -> option string)
    : list (string * value) -> list string :=
  fix go (ps : list (string * value)) : list string :=
    match ps with
    | [] => []
    | (k, x) :: r =>
        match ser x with
        | Some t => (quote k ++ ":" ++ t) :: go r
        | None => go r
        end
    end.

(** [None] is the [undefined] that [JSON.stringify] answers for
    [undefined]. *)
Fixpoint stringify (v : value) : option string :=
  match v with
  | Undefined => None
  | Null => Some "null"
  | Bool b => Some (if b then "true" else "false")
  | Num n => Some (JS.Number_toString n)
  | Str s => Some (quote s)
  | Arr items =>
      Some ("[" ++ join "," (map (fun x => element (stringify x)) items) ++ "]")
  | Obj props =>
      Some ("{" ++ join "," (members stringify props) ++ "}")
  end.

(** ** Parsing *)

Definition is_ws (c : ascii) : bool :=
  let n := N_of_ascii c in
  ((n =? 9) || (n =? 10) || (n =? 13) || (n =? 32))%N.

Fixpoint skip_ws (s : string) : string :=
  match s with
  | String c r => if is_ws c then skip_ws r else s
  | EmptyString => EmptyString
  end.

Definition is_digit (c : ascii) : bool :=
  let n := N_of_ascii c in ((48 <=? n) && (n <=? 57))%N.

Definition digit_val (c : ascii) : Z := Z.of_N (N_of_ascii c) - 48.

Definition hex_val (c : ascii) : option N :=
  let n := N_of_ascii c in
  if ((48 <=? n) && (n <=? 57))%N then Some (n - 48)%N
  else if ((97 <=? n) && (n <=? 102))%N then Some (n - 87)%N
  else if ((65 <=? n) && (n <=? 70))%N then Some (n - 55)%N
  else None.

(** The character a two-character escape stands for. *)
Definition unescape (e : ascii) : option ascii :=
  let n := N_of_ascii e in
  if (n =? 34)%N then Some dquote
  else if (n =? 92)%N then Some backslash
  else if (n =? 47)%N then Some "/"%char
  else if (n =? 98)%N then Some (ascii_of_N 8)
  else if (n =? 102)%N then Some (ascii_of_N 12)
  else if (n =? 110)%N then Some (ascii_of_N 10)
  else if (n =? 114)%N then Some (ascii_of_N 13)
  else if (n =? 116)%N then Some (ascii_of_N 9)
  else None.

Definition prepend (c : ascii) (r : option (string * string)) : option (string * string) :=
  match r with
  | Some (s, rest) => Some (String c s, rest)
  | None => None
  end.

(** The characters of a string literal after its opening quote, up to the
    closing quote: the string read and the text that follows it.  A code
    unit of 256 or more has no place in a [string]: [None]. *)
Fixpoint parse_chars (s : string) : option (string * string) :=
  match s with
  | EmptyString => None
  | String c r =>
      if Ascii.eqb c dquote then Some (EmptyString, r)
      else if Ascii.eqb c backslash then
        match r with
        | String e r1 =>
            if Ascii.eqb e "u" then
              match r1 with
              | String h1 (String h2 (String h3 (String h4 r2))) =>
                  match hex_val h1, hex_val h2, hex_val h3, hex_val h4 with
                  | Some a, Some b, Some c', Some d =>
                      let n := (((a * 16 + b) * 16 + c') * 16 + d)%N in
                      if (n <? 256)%N then prepend (ascii_of_N n) (parse_chars r2)
                      else None
                  | _, _, _, _ => None
                  end
              | _ => None
              end
            else
              match unescape e with
              | Some ch => prepend ch (parse_chars r1)
              | None => None
              end
        | EmptyString => None
        end
      else if (N_of_ascii c <? 32)%N then None
      else prepend c (parse_chars r)
  end.

Fixpoint take_digits (s : string) (acc : Z) : Z * string :=
  match s with
  | String c r =>
      if is_digit c then take_digits r (10 * acc + digit_val c) else (acc, s)
  | EmptyString => (acc, s)
  end.

Definition starts_with (p : ascii -> bool) (s : string) : bool :=
  match s with
  | String c _ => p c
  | EmptyString => false
  end.

Definition is_fraction_mark (c : ascii) : bool :=
  Ascii.eqb c "." || Ascii.eqb c "e" || Ascii.eqb c "E".

(** An integer literal: an optional minus sign, then [0] or a digit
    sequence without leading zero.  A fraction or an exponent makes a
    Number that is not kept as an integer: [None]. *)
Definition parse_number (s : string) : option (Z * string) :=
  let (neg, s1) :=
    match s with
    | String c r => if Ascii.eqb c "-" then (true, r) else (false, s)
    | EmptyString => (false, s)
    end in
  match s1 with
  | String c r =>
      let (n, rest) := if Ascii.eqb c "0" then (0, r) else take_digits s1 0 in
      if negb (is_digit c) then None
      else if Ascii.eqb c "0" && starts_with is_digit r then None
      else if starts_with is_fraction_mark rest then None
      else Some (if neg : bool then - n else n, rest)
  | EmptyString => None
  end.

Fixpoint strip_prefix (pre s : string) : option string :=
  match pre, s with
  | EmptyString, _ => Some s
  | String a p, String b r => if Ascii.eqb a b then strip_prefix p r else None
  | String _ _, EmptyString => None
  end.

(** [CreateDataProperty] during parsing: a repeated key keeps its place
    and takes the later value. *)
Fixpoint define (props : list (string * value)) (k : string) (v : value)
    : list (string * value) :=
  match props with
  | (k', x) :: r => if String.eqb k' k then (k', v) :: r else (k', x) :: define r k v
  | [] => [(k, v)]
  end.

(** Recursive descent; [fuel] bounds the number of nested or successive
    values. *)
Fixpoint parse_value (fuel : nat) (s : string) {struct fuel} : option (value * string) :=
  match fuel with
  | O => None
  | S f =>
      match skip_ws s with
      | EmptyString => None
      | String c r =>
          if Ascii.eqb c "{" then
            match skip_ws r with
            | String c' r' =>
                if Ascii.eqb c' "}" then Some (Obj [], r')
                else parse_members f r []
            | EmptyString => None
            end
          else if Ascii.eqb c "[" then
            match skip_ws r with
            | String c' r' =>
                if Ascii.eqb c' "]" then Some (Arr [], r')
                else parse_elements f r []
            | EmptyString => None
            end
          else if Ascii.eqb c dquote then
            match parse_chars r with
            | Some (str, rest) => Some (Str str, rest)
            | None => None
            end
          else if Ascii.eqb c "n" then
            match strip_prefix "ull" r with
            | Some rest => Some (Null, rest)
            | None => None
            end
          else if Ascii.eqb c "t" then
            match strip_prefix "rue" r with
            | Some rest => Some (Bool true, rest)
            | None => None
            end
          else if Ascii.eqb c "f" then
            match strip_prefix "alse" r with
            | Some rest => Some (Bool false, rest)
            | None => None
            end
          else
            match parse_number (String c r) with
            | Some (n, rest) => Some (Num n, rest)
            | None => None
            end
      end
  end
with parse_members (fuel : nat) (s : string) (acc : list (string * value))
    {struct fuel} : option (value * string) :=
  match fuel with
  | O => None
  | S f =>
      match skip_ws s with
      | String c r =>
          if Ascii.eqb c dquote then
            match parse_chars r with
            | Some (k, r1) =>
                match skip_ws r1 with
                | String c1 r2 =>
                    if Ascii.eqb c1 ":" then
                      match parse_value f r2 with
                      | Some (v, r3) =>
                          match skip_ws r3 with
                          | String c3 r4 =>
                              if Ascii.eqb c3 "," then parse_members f r4 (define acc k v)
                              else if Ascii.eqb c3 "}" then Some (Obj (define acc k v), r4)
                              else None
                          | EmptyString => None
                          end
                      | None => None
                      end
                    else None
                | EmptyString => None
                end
            | None => None
            end
          else None
      | EmptyString => None
      end
  end
with parse_elements (fuel : nat) (s : string) (acc : list value)
    {struct fuel} : option (value * string) :=
  match fuel with
  | O => None
  | S f =>
      match parse_value f s with
      | Some (v, r1) =>
          match skip_ws r1 with
          | String c r2 =>
              if Ascii.eqb c "," then parse_elements f r2 (acc ++ [v])%list
              else if Ascii.eqb c "]" then Some (Arr (acc ++ [v])%list, r2)
              else None
          | EmptyString => None
          end
      | None => None
      end
  end.

(** [JSON.parse]: one value, white space around it, nothing else.  [None]
    is a [SyntaxError] (or a text outside the values above). *)
Definition parse (text : string) : option value :=
  match parse_value (S (String.length text)) text with
  | Some (v, rest) =>
      match skip_ws rest with
      | EmptyString => Some v
      | String _ _ => None
      end
  | None => None
  end.

(** ** What a round trip keeps *)

(** The value [JSON.parse] reads back: objects without their [undefined]
    properties, arrays with [null] for their [undefined] elements. *)
Definition strip_props (st : value -> value)
    : list (string * value) -> list (string * value) :=
  fix go (ps : list (string * value)) : list (string * value) :=
    match ps with
    | [] => []
    | (k, Undefined) :: r => go r
    | (k, x) :: r => (k, st x) :: go r
    end.

Definition strip_element (st : value -> value) (x : value) : value :=
  match x with
  | Undefined => Null
  | _ => st x
  end.

Fixpoint strip (v : value) : value :=
  match v with
  | Arr items => Arr (map (strip_element strip) items)
  | Obj props => Obj (strip_props strip props)
  | _ => v
  end.

(** Objects whose keys are pairwise distinct, at every depth. *)
Fixpoint distinct_keys (v : value) : Prop :=
  match v with
  | Arr items =>
      (fix all (l : list value) : Prop :=
         match l with
         | [] => True
         | x :: r => distinct_keys x /\ all r
         end) items
  | Obj props =>
      List.NoDup (map fst props) /\
      (fix all (l : list (string * value)) : Prop :=
         match l with
         | [] => True
         | (_, x) :: r => distinct_keys x /\ all r
         end) props
  | _ => True
  end.

(** The number of values in a value, which bounds the fuel its parsing
    takes. *)
Fixpoint weight (v : value) : nat :=
  match v with
  | Arr items => S (fold_right (fun x n => S (weight x + n)) O items)
  | Obj props => S (fold_right (fun kx n => S (weight (snd kx) + n)) O props)
  | _ => 1
  end.

(** What may follow a value in a text: not a character that would extend a
    number. *)
Definition delimited (rest : string) : bool :=
  negb (starts_with (fun c => is_digit c || is_fraction_mark c) rest).

End JSON.

(* ===================================================================== *)
(** * The price matrix *)
(* ===================================================================== *)

Record Spec := {
  providers : list string;
  classes : list (string * Z)
}.

Definition PRICE_MATRIX : list (string * Spec) :=
  [ ("Bus",
      {| providers := ["Easy Coach"; "Guardian"];
         classes := [("Regular", 1500); ("Premium", 2500)] |});
    ("Flight",
      {| providers := ["Qatar Airways"; "Kenya Airways"];
         classes := [("Economy", 25000); ("Business", 45000); ("First Class", 70000)] |});
    ("Train",
      {| providers := ["SGR"; "Electric Train"];
         classes := [("Economy", 1000); ("Business", 2000); ("First Class", 3500)] |}) ].

(* ===================================================================== *)
(** * Data *)
(* ===================================================================== *)

Record Route := {
  origin : string;
  destination : string
}.

(** The ticket payload built by the submit handler.  A string field that is
    empty is falsy, exactly like a missing one; [distanceKm] is [undefined]
    ([None]) in every payload the form builds. *)
Record TicketData := {
  bookingId : string;
  passengerName : string;
  contactPhone : string;
  contactEmail : string;
  transportType : string;
  provider : string;
  classOrSeat : string;
  route : Route;
  departDateTime : string;
  arriveDateTime : string;
  duration : string;
  distanceKm : option Z;
  price : Z;
  taxes : Z;
  total : Z;
  additionalNotes : string;
  mapLink : string;
  qrPayload : string;
  logoUrl : string
}.

(** The values [buildHtml] interpolates into its template, slot by slot.
    [None] in [html_logo] is the built-in SVG logo; [None] in
    [html_distance] and [html_ref] is the dash placeholder; [None] in
    [html_mapLink] is the absent map link. *)
Record TicketHtml := {
  html_logo : option string;
  html_booking : string;
  html_passenger : string;
  html_phone : string;
  html_email : string;
  html_origin : string;
  html_destination : string;
  html_distance : option string;
  html_transportType : string;
  html_provider : string;
  html_badge : string;
  html_depart : string;
  html_arrive : string;
  html_duration : string;
  html_seatClass : string;
  html_price : string;
  html_taxes : string;
  html_total : string;
  html_notes : string;
  html_mapLink : option string;
  html_ref : option string
}.

(** A drop-down: its options in document order and its current value (the
    empty string when it has no option). *)
Record Select := {
  options : list string;
  value : string
}.

Definition emptySelect : Select := {| options := []; value := "" |}.

(** [appendChild(new Option(o, o))]: the first option appended to an empty
    drop-down becomes the selected one. *)
Definition appendOption (s : Select) (o : string) : Select :=
  {| options := (options s ++ [o])%list;
     value := match options s with [] => o | _ => value s end |}.

(** The controls of the booking form. *)
Record Form := {
  passengerNameEl : string;
  phoneEl : string;
  emailEl : string;
  transportEl : string;
  providerEl : Select;
  classEl : Select;
  originEl : string;
  destinationEl : string;
  startDateEl : string;
  endDateEl : string;
  priceDisplay : string
}.

(** The page: the form, the ticket preview, the two variables of the
    [TicketRenderer] closure, the export buttons and the session store. *)
Record Page := {
  form : Form;
  ticketContainer : option TicketHtml;
  qrCode : option string;
  container : bool;
  currentData : option TicketData;
  exportButtons : bool;
  sessionStorage : gmap string string
}.

(* ===================================================================== *)
(** * The browser *)
(* ===================================================================== *)

(** What [new Date()] answers to the four getters the script calls. *)
Record Clock := {
  getFullYear : Z;
  getMonth : Z;
  getDate : Z;
  getTime : Z
}.

(** The bitmap of a capture: its size in pixels. *)
Record Canvas := {
  width : Z;
  height : Z
}.

(** [window.jspdf]: undefined, or the library object with or without its
    [jsPDF] constructor. *)
Inductive JsPdfGlobal :=
| jspdf_undefined
| jspdf_object (jsPDF : bool).

Record Host := {
  now : Clock;
  (** time value of [new Date(s)] (at most 8.64e15 in absolute value),
      [None] for an invalid date, whose time value is NaN *)
  Date_parse : string -> option Z;
  Date_toISOString : Z -> string;
  (** [toLocaleString] with the options of [formatDate] *)
  Date_toLocaleString : option Z -> string;
  (** [Intl.NumberFormat('en-KE', ...).format], on a Number and on a value
      that converts to NaN *)
  formatKES : Z -> string;
  formatKES_NaN : string;
  encodeURIComponent : string -> string;
  location_href : string;
  (** page markup *)
  has_ticketContainer : bool;
  has_toast : bool;
  (** whether the browser, having parsed a fragment set as [innerHTML] of the
      preview, finds the element [#ticket-qr-container] *)
  qr_region : TicketHtml -> bool;
  (** libraries: [None] is a library that is not loaded; the capture of a
      loaded [html2canvas] answers a bitmap or rejects *)
  html2canvas : option (option Canvas);
  jspdf : JsPdfGlobal;
  (** the page size jsPDF reports, in millimetres *)
  pageWidth : spec_float;
  pageHeight : spec_float;
  QRCode_works : bool;
  (** [window.open] answers a window *)
  popup_opens : bool;
  (** [navigator.clipboard.writeText] resolves *)
  clipboard_writes : bool;
  (** [sessionStorage.setItem] does not throw *)
  storage_accepts : bool
}.

(** What a handler does to the world outside the page state, in order. *)
Inductive Effect :=
| Alert (msg : string)
| Toast (msg : string)
| ConsoleError
| ConsoleWarn
| Download (filename : string)
| PdfAddImage (x y w h : spec_float)
| PdfSave (filename : string)
| WindowPrint
| PopupPrint (body : option TicketHtml)
| ClipboardWrite (text : string)
| ScrollIntoView.

(* ===================================================================== *)
(** * Handlers: state, effects and exceptions *)
(* ===================================================================== *)

(** A handler runs on a page and leaves a page, the effects it performed and
    either a result or the exception that ended it (for an [async] function:
    the rejection of its promise). *)
Definition M (A : Type) : Type := Page -> Page * list Effect * (A + JS.exn).

Definition ret {A} (a : A) : M A := fun p => (p, [], inl a).

Definition bind {A B} (m : M A) (k : A -> M B) : M B :=
  fun p =>
    match m p with
    | (p1, e1, inl a) =>
        match k a p1 with
        | (p2, e2, r) => (p2, (e1 ++ e2)%list, r)
        end
    | (p1, e1, inr x) => (p1, e1, inr x)
    end.

Definition throw {A} (x : JS.exn) : M A := fun p => (p, [], inr x).
Definition emit (e : Effect) : M unit := fun p => (p, [e], inl tt).
Definition get_page : M Page := fun p => (p, [], inl p).
Definition modify (f : Page -> Page) : M unit := fun p => (f p, [], inl tt).

(** [try { body } catch (err) { handler }]. *)
Definition try_catch {A} (body : M A) (handler : JS.exn -> M A) : M A :=
  fun p =>
    match body p with
    | (p1, e1, inr x) =>
        match handler x p1 with
        | (p2, e2, r) => (p2, (e1 ++ e2)%list, r)
        end
    | done => done
    end.

Notation "x <- m ;; k" := (bind m (fun x => k))
  (at level 100, m at next level, right associativity).
Notation "m ;; k" := (bind m (fun _ => k))
  (at level 100, right associativity).

Definition page_of {A} (r : Page * list Effect * (A + JS.exn)) : Page := fst (fst r).
Definition effects_of {A} (r : Page * list Effect * (A + JS.exn)) : list Effect := snd (fst r).
Definition outcome_of {A} (r : Page * list Effect * (A + JS.exn)) : A + JS.exn := snd r.

(* ===================================================================== *)
(** * TicketRenderer *)
(* ===================================================================== *)

(** The arithmetic of the PDF layout.  The script computes on binary64
    Numbers; the same formulas are also read over exact rationals, where the
    geometry of the layout can be stated without rounding. *)
Class Arithmetic (num : Type) := {
  num_mul : num -> num -> num;
  num_div : num -> num -> num;
  num_sub : num -> num -> num;
  num_gt : num -> num -> bool;
  num_of_Z : Z -> num
}.

#[export] Instance binary64 : Arithmetic spec_float := {
  num_mul := JS.Number_mul;
  num_div := JS.Number_div;
  num_sub := JS.Number_sub;
  num_gt := JS.Number_gt;
  num_of_Z := JS.Number_of_Z
}.

#[export] Instance exact_rationals : Arithmetic Q := {
  num_mul := Qmult;
  num_div := Qdiv;
  num_sub := Qminus;
  num_gt := fun a b => negb (Qle_bool a b);
  num_of_Z := inject_Z
}.

(** Where [downloadPDF] puts the captured image on the page. *)
Record Placement (num : Type) := {
  place_x : num;
  place_y : num;
  place_w : num;
  place_h : num
}.

Arguments place_x {num}.
Arguments place_y {num}.
Arguments place_w {num}.
Arguments place_h {num}.

Module TicketRenderer.

(** The image is given the width of the page, or its height when the
    height would overflow, and centred. *)
Definition placeImage {num : Type} `{Arithmetic num}
    (pageWidth pageHeight imgWidth imgHeight : num) : Placement num :=
  let w := pageWidth in
  let h := num_mul (num_div imgHeight imgWidth) w in
  let (w, h) :=
    if num_gt h pageHeight
    then (num_mul (num_div imgWidth imgHeight) pageHeight, pageHeight)
    else (w, h) in
  {| place_x := num_div (num_sub pageWidth w) (num_of_Z 2);
     place_y := num_div (num_sub pageHeight h) (num_of_Z 2);
     place_w := w;
     place_h := h |}.

Section WithHost.

Variable host : Host.

Definition formatDate (iso : string) : string :=
  if negb (JS.truthy iso) then "TBA"
  else Date_toLocaleString host (Date_parse host iso).

Definition computeDuration (startIso endIso : string) : string :=
  if negb (JS.truthy startIso) || negb (JS.truthy endIso) then ""
  else
    match Date_parse host endIso, Date_parse host startIso with
    | Some e, Some s =>
        let mins := JS.Math_round (JS.Number_div (JS.Number_of_Z (e - s))
                                                  (JS.Number_of_Z (1000 * 60))) in
        if mins <=? 0 then ""
        else JS.Number_toString (mins / 60) ++ "h "
             ++ JS.Number_toString (mins mod 60) ++ "m"
    | _, _ => ""
    end.

Definition fmtKES (n : Z) : string := formatKES host n.

Definition buildHtml (data : TicketData) : TicketHtml :=
  let depart := formatDate (departDateTime data) in
  let arrive :=
    if JS.truthy (arriveDateTime data) then formatDate (arriveDateTime data)
    else "TBA" in
  let duration :=
    JS.or_else (JS.or_else (duration data)
                  (computeDuration (departDateTime data) (arriveDateTime data)))
               "TBA" in
  let total := total data in
  let logo := if JS.truthy (logoUrl data) then Some (logoUrl data) else None in
  let provider := JS.or_else (provider data) "Provider" in
  let transportType := JS.or_else (transportType data) "Transport" in
  let classOrSeat := JS.or_else (classOrSeat data) "Class / Seat" in
  let origin := JS.or_else (origin (route data)) "Origin" in
  let destination := JS.or_else (destination (route data)) "Destination" in
  let distance :=
    match distanceKm data with
    | Some d => if d =? 0 then None else Some (JS.Number_toString d ++ " km")
    | None => None
    end in
  {| html_logo := logo;
     html_booking := JS.or_else (bookingId data) "HT-TBA";
     html_passenger := JS.or_else (passengerName data) "Passenger Name";
     html_phone := contactPhone data;
     html_email := contactEmail data;
     html_origin := origin;
     html_destination := destination;
     html_distance := distance;
     html_transportType := transportType;
     html_provider := provider;
     html_badge := classOrSeat;
     html_depart := depart;
     html_arrive := arrive;
     html_duration := duration;
     html_seatClass := classOrSeat;
     html_price := fmtKES (price data);
     html_taxes := fmtKES (taxes data);
     html_total := fmtKES total;
     html_notes := JS.or_else (additionalNotes data)
                     "Please bring your ID. Baggage rules apply.";
     html_mapLink := if JS.truthy (mapLink data) then Some (mapLink data) else None;
     html_ref := if JS.truthy (bookingId data) then Some (bookingId data) else None |}.

Definition set_qrCode (q : option string) (p : Page) : Page :=
  {| form := form p; ticketContainer := ticketContainer p; qrCode := q;
     container := container p; currentData := currentData p;
     exportButtons := exportButtons p; sessionStorage := sessionStorage p |}.

(** The QR region is an element of the rendered fragment, into which the
    values of the payload are interpolated as they are: without a fragment,
    or when the browser does not find the element in what it has parsed of
    the fragment, nothing happens. *)
Definition renderQR (qrPayload : string) : M unit :=
  p <- get_page ;;
  match ticketContainer p with
  | None => ret tt
  | Some html =>
      if negb (qr_region host html) then ret tt
      else
        modify (set_qrCode None) ;;
        try_catch
          (if QRCode_works host
           then modify (set_qrCode (Some (JS.or_else qrPayload (location_href host))))
           else throw JS.TypeError)
          (fun err => emit ConsoleWarn)
  end.

Definition captureToCanvas (elem : bool) : M Canvas :=
  if negb elem then throw (JS.Error "Element required")
  else
    match html2canvas host with
    | None => throw (JS.Error "html2canvas missing")
    | Some (Some canvas) => ret canvas
    | Some None => throw (JS.Error "capture rejected")
    end.

Definition showToast (msg : string) : M unit :=
  if negb (has_toast host) then ret tt else emit (Toast msg).

(** [currentData.bookingId ? currentData.bookingId.replace(/\s+/g,'_') : 'ticket'];
    reading a property of [null] throws. *)
Definition exportId : M string :=
  p <- get_page ;;
  match currentData p with
  | None => throw JS.TypeError
  | Some data =>
      ret (if JS.truthy (bookingId data)
           then JS.replace_spaces "_" (bookingId data)
           else "ticket")
  end.

Definition downloadPNG : M unit :=
  try_catch
    (let elem := has_ticketContainer host in
     canvas <- captureToCanvas elem ;;
     id <- exportId ;;
     emit (Download ("HarmonyTravels_Ticket_" ++ id ++ ".png")) ;;
     showToast "PNG downloaded")
    (fun err =>
       emit ConsoleError ;;
       emit (Alert "PNG generation failed.")).

(** [window.jspdf.jsPDF]: a property read on [window.jspdf]. *)
Definition jspdf_jsPDF : M bool :=
  match jspdf host with
  | jspdf_undefined => throw JS.TypeError
  | jspdf_object ctor => ret ctor
  end.

Definition jspdf_defined : bool :=
  match jspdf host with
  | jspdf_undefined => false
  | jspdf_object _ => true
  end.

Definition downloadPDF : M unit :=
  (* !window.jspdf && !window.jspdf.jsPDF *)
  missing <- (if negb jspdf_defined
              then (ctor <- jspdf_jsPDF ;; ret (negb ctor))
              else ret false) ;;
  if (missing : bool) then emit (Alert "jsPDF missing")
  else
    try_catch
      (let elem := has_ticketContainer host in
       canvas <- captureToCanvas elem ;;
       jsPDF <- jspdf_jsPDF ;;
       (if (jsPDF : bool) then ret tt else throw JS.TypeError) ;;
       let pl := placeImage (pageWidth host) (pageHeight host)
                   (JS.Number_of_Z (width canvas))
                   (JS.Number_of_Z (height canvas)) in
       emit (PdfAddImage (place_x pl) (place_y pl) (place_w pl) (place_h pl)) ;;
       id <- exportId ;;
       emit (PdfSave ("HarmonyTravels_Ticket_" ++ id ++ ".pdf")) ;;
       showToast "PDF downloaded")
      (fun err =>
         emit ConsoleError ;;
         emit (Alert "PDF generation failed.")).

Definition printTicket : M unit :=
  p <- get_page ;;
  if negb (container p) then emit WindowPrint
  else if negb (popup_opens host) then emit (Alert "Popup blocked")
  else emit (PopupPrint (ticketContainer p)).

Definition copyBookingId : M unit :=
  p <- get_page ;;
  let id :=
    match currentData p with
    | Some data => bookingId data
    | None => ""
    end in
  if negb (JS.truthy id) then showToast "No booking ID"
  else
    try_catch
      (if clipboard_writes host
       then emit (ClipboardWrite id) ;; showToast "Booking ID copied"
       else throw JS.TypeError)
      (fun e => showToast "Copy failed").

Definition set_render (c : bool) (d : option TicketData)
    (html : option TicketHtml) (p : Page) : Page :=
  {| form := form p; ticketContainer := html; qrCode := qrCode p;
     container := c; currentData := d;
     exportButtons := exportButtons p; sessionStorage := sessionStorage p |}.

Definition set_container (c : bool) (p : Page) : Page :=
  set_render c (currentData p) (ticketContainer p) p.

(** [init('#ticketContainer', data)]. *)
Definition init (data : TicketData) : M unit :=
  modify (set_container (has_ticketContainer host)) ;;
  if negb (has_ticketContainer host) then throw (JS.Error "Container not found")
  else
    modify (set_render true (Some data) (Some (buildHtml data))) ;;
    (* the former fragment is gone, and the code drawn in it *)
    modify (set_qrCode None) ;;
    renderQR (JS.or_else (qrPayload data)
                ("Booking:" ++ JS.or_else (bookingId data) "TBA")).

End WithHost.

End TicketRenderer.

(* ===================================================================== *)
(** * Booking form wiring *)
(* ===================================================================== *)

(** The object [JSON.stringify] receives for a ticket payload: the
    properties of the literal, in its order. *)
Definition ticketData_value (d : TicketData) : JSON.value :=
  JSON.Obj
    [ ("bookingId", JSON.Str (bookingId d));
      ("passengerName", JSON.Str (passengerName d));
      ("contactPhone", JSON.Str (contactPhone d));
      ("contactEmail", JSON.Str (contactEmail d));
      ("transportType", JSON.Str (transportType d));
      ("provider", JSON.Str (provider d));
      ("classOrSeat", JSON.Str (classOrSeat d));
      ("route", JSON.Obj [ ("origin", JSON.Str (origin (route d)));
                           ("destination", JSON.Str (destination (route d))) ]);
      ("departDateTime", JSON.Str (departDateTime d));
      ("arriveDateTime", JSON.Str (arriveDateTime d));
      ("duration", JSON.Str (duration d));
      ("distanceKm", match distanceKm d with
                     | Some km => JSON.Num km
                     | None => JSON.Undefined
                     end);
      ("price", JSON.Num (price d));
      ("taxes", JSON.Num (taxes d));
      ("total", JSON.Num (total d));
      ("additionalNotes", JSON.Str (additionalNotes d));
      ("mapLink", JSON.Str (mapLink d));
      ("qrPayload", JSON.Str (qrPayload d));
      ("logoUrl", JSON.Str (logoUrl d)) ].

Definition set_options (prov cls : Select) (f : Form) : Form :=
  {| passengerNameEl := passengerNameEl f; phoneEl := phoneEl f; emailEl := emailEl f;
     transportEl := transportEl f; providerEl := prov; classEl := cls;
     originEl := originEl f; destinationEl := destinationEl f;
     startDateEl := startDateEl f; endDateEl := endDateEl f;
     priceDisplay := priceDisplay f |}.

Definition set_priceDisplay (text : string) (f : Form) : Form :=
  {| passengerNameEl := passengerNameEl f; phoneEl := phoneEl f; emailEl := emailEl f;
     transportEl := transportEl f; providerEl := providerEl f; classEl := classEl f;
     originEl := originEl f; destinationEl := destinationEl f;
     startDateEl := startDateEl f; endDateEl := endDateEl f;
     priceDisplay := text |}.

Definition set_transport (v : string) (f : Form) : Form :=
  {| passengerNameEl := passengerNameEl f; phoneEl := phoneEl f; emailEl := emailEl f;
     transportEl := v; providerEl := providerEl f; classEl := classEl f;
     originEl := originEl f; destinationEl := destinationEl f;
     startDateEl := startDateEl f; endDateEl := endDateEl f;
     priceDisplay := priceDisplay f |}.

Definition set_exportButtons (b : bool) (p : Page) : Page :=
  {| form := form p; ticketContainer := ticketContainer p; qrCode := qrCode p;
     container := container p; currentData := currentData p;
     exportButtons := b; sessionStorage := sessionStorage p |}.

Definition set_sessionStorage (m : gmap string string) (p : Page) : Page :=
  {| form := form p; ticketContainer := ticketContainer p; qrCode := qrCode p;
     container := container p; currentData := currentData p;
     exportButtons := exportButtons p; sessionStorage := m |}.

(** compute price based on selections *)
Definition getPrice (f : Form) : Z :=
  let transport := transportEl f in
  let cls := value (classEl f) in
  if negb (JS.truthy transport) || negb (JS.truthy cls) then 0
  else
    match JS.prop PRICE_MATRIX transport with
    | None => 0
    | Some spec => JS.or_zero (JS.prop (classes spec) cls)
    end.

Section Wiring.

Variable host : Host.

Definition updatePrice (f : Form) : Form :=
  let price := getPrice f in
  set_priceDisplay (if price =? 0 then "KES 0" else formatKES host price) f.

(** populate provider/class based on transport *)
Definition populateOptions (transport : string) (f : Form) : Form :=
  let f := set_options emptySelect emptySelect f in
  match JS.prop PRICE_MATRIX transport with
  | None => f
  | Some spec =>
      let f := set_options (fold_left appendOption (providers spec) (providerEl f))
                           (classEl f) f in
      let f := set_options (providerEl f)
                           (fold_left appendOption (JS.keys (classes spec)) (classEl f)) f in
      updatePrice f
  end.

(** The [change] listener of the transport control, once the user has
    picked [v]. *)
Definition transport_changed (v : string) (f : Form) : Form :=
  populateOptions v (set_transport v f).

(** [new Date(s).toISOString()]: a [RangeError] on an invalid date. *)
Definition toISOString (s : string) : M string :=
  match Date_parse host s with
  | Some t => ret (Date_toISOString host t)
  | None => throw JS.RangeError
  end.

Definition setItem (k v : string) : M unit :=
  if storage_accepts host
  then p <- get_page ;; modify (set_sessionStorage (<[ k := v ]> (sessionStorage p)))
  else throw (JS.Error "QuotaExceededError").

Definition JSON_stringify (v : JSON.value) : string :=
  match JSON.stringify v with
  | Some text => text
  | None => "undefined"
  end.

(** create booking id *)
Definition new_bookingId (now : Clock) : string :=
  "HT-" ++ JS.Number_toString (getFullYear now)
        ++ JS.padStart 2 "0" (JS.Number_toString (getMonth now + 1))
        ++ JS.padStart 2 "0" (JS.Number_toString (getDate now))
        ++ "-" ++ JS.slice_last 6 (JS.Number_toString (getTime now)).

(** simple validation: the test that guards the alert. *)
Definition required_missing (f : Form) : bool :=
  let passengerName := JS.trim (passengerNameEl f) in
  let phone := JS.trim (phoneEl f) in
  let email := JS.trim (emailEl f) in
  let startDate := startDateEl f in
  negb (JS.truthy passengerName) || negb (JS.truthy phone)
  || negb (JS.truthy email) || negb (JS.truthy startDate).

(** build ticket payload: the object literal, given the two ISO strings
    its date properties evaluate to. *)
Definition ticketData (f : Form) (departDateTime arriveDateTime : string) : TicketData :=
  let passengerName := JS.trim (passengerNameEl f) in
  let phone := JS.trim (phoneEl f) in
  let email := JS.trim (emailEl f) in
  let transport := transportEl f in
  let provider := value (providerEl f) in
  let travelClass := value (classEl f) in
  let origin := JS.or_else (originEl f) "Nairobi" in
  let destination := JS.or_else (destinationEl f) "TBA" in
  let bookingId := new_bookingId (now host) in
  let price := getPrice f in
  let taxes := JS.Math_round (JS.Number_mul (JS.Number_of_Z price) JS.lit_0_05) in
  let total := price + taxes in
  {| bookingId := bookingId;
     passengerName := passengerName;
     contactPhone := phone;
     contactEmail := email;
     transportType := transport;
     provider := provider;
     classOrSeat := travelClass;
     route := {| origin := origin; destination := destination |};
     departDateTime := departDateTime;
     arriveDateTime := arriveDateTime;
     duration := "";
     distanceKm := None;
     price := price;
     taxes := taxes;
     total := total;
     additionalNotes := "Auto-generated ticket. Please arrive on time.";
     mapLink := "https://www.google.com/maps/dir/?api=1&origin="
                ++ encodeURIComponent host origin ++ "&destination="
                ++ encodeURIComponent host destination;
     qrPayload := "https://harmonytravels.example/verify/" ++ bookingId;
     logoUrl := "" |}.

(** The [submit] listener of the booking form (the dash of the toast
    message is written in UTF-8). *)
Definition submit : M unit :=
  p <- get_page ;;
  let f := form p in
  if required_missing f
  then emit (Alert "Please fill required fields (name, phone, email, depart date).")
  else
    departDateTime <- toISOString (startDateEl f) ;;
    arriveDateTime <- (if JS.truthy (endDateEl f)
                       then toISOString (endDateEl f) else ret "") ;;
    let ticketData := ticketData f departDateTime arriveDateTime in
    TicketRenderer.init host ticketData ;;
    emit ScrollIntoView ;;
    modify (set_exportButtons true) ;;
    (if has_toast host
     then emit (Toast ("Booking " ++ bookingId ticketData ++ " created — ticket ready"))
     else throw JS.TypeError) ;;
    try_catch
      (setItem ("booking_" ++ bookingId ticketData)
               (JSON_stringify (ticketData_value ticketData)))
      (fun e => ret tt).

End Wiring.

(* ===================================================================== *)
(** * The other listeners of the booking form *)
(* ===================================================================== *)

Definition set_page_form (f : Form) (p : Page) : Page :=
  {| form := f; ticketContainer := ticketContainer p; qrCode := qrCode p;
     container := container p; currentData := currentData p;
     exportButtons := exportButtons p; sessionStorage := sessionStorage p |}.

(** [ticketContainer.innerHTML = '']: the preview and the QR region it held
    are gone. *)
Definition clear_preview (p : Page) : Page :=
  {| form := form p; ticketContainer := None; qrCode := None;
     container := container p; currentData := currentData p;
     exportButtons := exportButtons p; sessionStorage := sessionStorage p |}.

(** The user picks an entry of a drop-down: its value changes, its options
    stay. *)
Definition pick (v : string) (s : Select) : Select :=
  {| options := options s; value := v |}.

(** [form.reset()] on a drop-down the script has filled: no option is
    selected by default, so the first one is. *)
Definition reset_select (s : Select) : Select :=
  pick (hd "" (options s)) s.

(** [bookingForm.reset()]: every control takes the default value the markup
    gives it ([defaults]); the price display is no control of the form. *)
Definition form_reset (defaults f : Form) : Form :=
  {| passengerNameEl := passengerNameEl defaults;
     phoneEl := phoneEl defaults;
     emailEl := emailEl defaults;
     transportEl := transportEl defaults;
     providerEl := reset_select (providerEl f);
     classEl := reset_select (classEl f);
     originEl := originEl defaults;
     destinationEl := destinationEl defaults;
     startDateEl := startDateEl defaults;
     endDateEl := endDateEl defaults;
     priceDisplay := priceDisplay f |}.

Section Listeners.

Variable host : Host.

(** initial populate *)
Definition loaded (f : Form) : Form := populateOptions host (transportEl f) f.

(** The [change] listeners of the class and provider controls and the
    [click] listener of the estimate button: [updatePrice]. *)
Definition class_changed (c : string) (f : Form) : Form :=
  updatePrice host (set_options (providerEl f) (pick c (classEl f)) f).

Definition provider_changed (pr : string) (f : Form) : Form :=
  updatePrice host (set_options (pick pr (providerEl f)) (classEl f) f).

Definition estimate_clicked (f : Form) : Form := updatePrice host f.

(** reset form: what the listener of the reset button does to the form. *)
Definition reset_form (defaults f : Form) : Form :=
  let f := form_reset defaults f in
  let f := populateOptions host (transportEl f) f in
  updatePrice host f.

(** The [click] listener of the reset button; writing to the preview
    container throws when the page has none. *)
Definition reset_clicked (defaults : Form) : M unit :=
  p <- get_page ;;
  modify (set_page_form (reset_form defaults (form p))) ;;
  if has_ticketContainer host then modify clear_preview
  else throw JS.TypeError.

End Listeners.

(** What the user can do to the form between two submissions. *)
Inductive FormEvent :=
| TransportChanged (v : string)
| ClassChanged (c : string)
| ProviderChanged (pr : string)
| EstimateClicked
| ResetClicked (defaults : Form).

Definition form_step (host : Host) (f : Form) (ev : FormEvent) : Form :=
  match ev with
  | TransportChanged v => transport_changed host v f
  | ClassChanged c => class_changed host c f
  | ProviderChanged pr => provider_changed host pr f
  | EstimateClicked => estimate_clicked host f
  | ResetClicked defaults => reset_form host defaults f
  end.

(** A drop-down only lets the user pick one of its options. *)
Definition possible (f : Form) (ev : FormEvent) : Prop :=
  match ev with
  | ClassChanged c => In c (options (classEl f))
  | ProviderChanged pr => In pr (options (providerEl f))
  | _ => True
  end.

(** The forms reached from [f] by a sequence of possible events. *)
Inductive reaches (host : Host) (f : Form) : Form -> Prop :=
| reaches_here : reaches host f f
| reaches_step (g : Form) (ev : FormEvent) :
    reaches host f g -> possible g ev -> reaches host f (form_step host g ev).

(* ===================================================================== *)
(** * Property reads that reach Object.prototype *)
(* ===================================================================== *)

(** [PRICE_MATRIX[transport]] and [spec.classes[cls]] are plain property
    reads: for a name that is no key of the literal but a member of
    [Object.prototype] they answer that member.  [getPrice], [updatePrice],
    [populateOptions] and the listeners above are the script on the names it
    offers and on unknown names; here are the same functions on every name,
    with the form they leave and the way they end. *)
Module Prototype.

(** What [getPrice] returns: a Number, or the member of [Object.prototype]
    of that name. *)
Inductive Resolved :=
| Amount (n : Z)
| Builtin (name : string).

(** compute price based on selections *)
Definition getPrice (f : Form) : Resolved + JS.exn :=
  let transport := transportEl f in
  let cls := value (classEl f) in
  if negb (JS.truthy transport) || negb (JS.truthy cls) then inl (Amount 0)
  else
    match JS.lookup PRICE_MATRIX transport with
    | JS.Missing => inl (Amount 0)
    | JS.Inherited => inr JS.TypeError (* [spec.classes] is [undefined] *)
    | JS.Own spec =>
        match JS.lookup (classes spec) cls with
        | JS.Own price => inl (Amount price)
        | JS.Inherited => inl (Builtin cls)
        | JS.Missing => inl (Amount 0)
        end
    end.

Section WithHost.

Variable host : Host.

Definition updatePrice (f : Form) : Form * (unit + JS.exn) :=
  match getPrice f with
  | inl (Amount price) =>
      (set_priceDisplay (if price =? 0 then "KES 0" else formatKES host price) f, inl tt)
  | inl (Builtin _) => (set_priceDisplay (formatKES_NaN host) f, inl tt)
  | inr e => (f, inr e)
  end.

(** populate provider/class based on transport *)
Definition populateOptions (transport : string) (f : Form) : Form * (unit + JS.exn) :=
  let f := set_options emptySelect emptySelect f in
  match JS.lookup PRICE_MATRIX transport with
  | JS.Missing => (f, inl tt)
  | JS.Inherited => (f, inr JS.TypeError) (* [spec.providers] is [undefined] *)
  | JS.Own spec =>
      let f := set_options (fold_left appendOption (providers spec) (providerEl f))
                           (classEl f) f in
      let f := set_options (providerEl f)
                           (fold_left appendOption (JS.keys (classes spec)) (classEl f)) f in
      updatePrice f
  end.

Definition transport_changed (v : string) (f : Form) : Form * (unit + JS.exn) :=
  populateOptions v (set_transport v f).

Definition class_changed (c : string) (f : Form) : Form * (unit + JS.exn) :=
  updatePrice (set_options (providerEl f) (pick c (classEl f)) f).

Definition provider_changed (pr : string) (f : Form) : Form * (unit + JS.exn) :=
  updatePrice (set_options (pick pr (providerEl f)) (classEl f) f).

Definition estimate_clicked (f : Form) : Form * (unit + JS.exn) := updatePrice f.

(** reset form: what the listener of the reset button does to the form; an
    exception in [populateOptions] ends the listener. *)
Definition reset_form (defaults f : Form) : Form * (unit + JS.exn) :=
  let f := form_reset defaults f in
  match populateOptions (transportEl f) f with
  | (f, inl _) => updatePrice f
  | (f, inr e) => (f, inr e)
  end.

Definition form_step (f : Form) (ev : FormEvent) : Form * (unit + JS.exn) :=
  match ev with
  | TransportChanged v => transport_changed v f
  | ClassChanged c => class_changed c f
  | ProviderChanged pr => provider_changed pr f
  | EstimateClicked => estimate_clicked f
  | ResetClicked defaults => reset_form defaults f
  end.

End WithHost.

End Prototype.

(* ===================================================================== *)
(** * Site scripts: theme and menu *)
(* ===================================================================== *)

(** The theme toggle and the mobile menu toggle of the site-wide script. *)
Module App.

Inductive Icon :=
| Markup
| Sun
| Moon.

(** The theme: whether [body] has the class [light], what the toggle button
    shows, and the [ht_theme_light] entry of the local store. *)
Record Theme := {
  light : bool;
  icon : Icon;
  saved : option string
}.

(** The [click] listener of the theme toggle; [writable] tells whether
    [localStorage.setItem] goes through (a failed write is ignored). *)
Definition theme_clicked (writable : bool) (t : Theme) : Theme :=
  let isLight := negb (light t) in
  {| light := isLight;
     icon := if isLight then Sun else Moon;
     saved := if writable then Some (if isLight then "1" else "0") else saved t |}.

(** apply saved theme on load: the page as the markup has it
    ([markup_light]), then the saved choice when it is ['1'] and can be
    read. *)
Definition theme_loaded (readable markup_light : bool) (entry : option string) : Theme :=
  if readable && match entry with
                 | Some s => String.eqb s "1"
                 | None => false
                 end
  then {| light := true; icon := Sun; saved := entry |}
  else {| light := markup_light; icon := Markup; saved := entry |}.

(** The menu button and the navigation it shows: the [aria-expanded]
    attribute ([None] when absent) and the inline [display] style. *)
Record Menu := {
  aria_expanded : option string;
  nav_display : option string
}.

(** The [click] listener of the menu toggle, on a page with its
    navigation. *)
Definition menu_clicked (m : Menu) : Menu :=
  let expanded := match aria_expanded m with
                  | Some s => String.eqb s "true"
                  | None => false
                  end in
  {| aria_expanded := Some (if negb expanded then "true" else "false");
     nav_display := Some (if expanded then "none" else "flex") |}.

End App.

(* ===================================================================== *)
(** * A sample browser session *)
(* ===================================================================== *)

(** A browser on 15 March 2025, 10:30:45.678 local time (UTC+3), that knows
    two date inputs and has every library loaded. *)
Definition sample_host : Host :=
  {| now := {| getFullYear := 2025; getMonth := 2; getDate := 15;
               getTime := 1742023845678 |};
     Date_parse := fun s =>
       if String.eqb s "2025-04-01T08:00" then Some 1743483600000
       else if String.eqb s "2025-04-01T14:45" then Some 1743507900000
       else if String.eqb s "2025-04-01T05:00:00.000Z" then Some 1743483600000
       else if String.eqb s "2025-04-01T11:45:00.000Z" then Some 1743507900000
       else None;
     Date_toISOString := fun t =>
       if t =? 1743483600000 then "2025-04-01T05:00:00.000Z"
       else if t =? 1743507900000 then "2025-04-01T11:45:00.000Z"
       else "1970-01-01T00:00:00.000Z";
     Date_toLocaleString := fun t =>
       match t with
       | Some ms =>
           if ms =? 1743483600000 then "Tue, Apr 1, 08:00 AM"
           else if ms =? 1743507900000 then "Tue, Apr 1, 02:45 PM"
           else "Thu, Jan 1, 03:00 AM"
       | None => "Invalid Date"
       end;
     formatKES := fun n => "KES " ++ JS.Number_toString n;
     formatKES_NaN := "KES NaN";
     encodeURIComponent := fun s => s;
     location_href := "https://harmonytravels.example/ticket.html";
     has_ticketContainer := true;
     has_toast := true;
     qr_region := fun _ => true;
     html2canvas := Some (Some {| width := 1800; height := 700 |});
     jspdf := jspdf_object true;
     pageWidth := JS.Number_of_Z 297;
     pageHeight := JS.Number_of_Z 210;
     QRCode_works := true;
     popup_opens := true;
     clipboard_writes := true;
     storage_accepts := true |}.

(** The same browser without the PDF library. *)
Definition host_without_jspdf : Host :=
  {| now := now sample_host;
     Date_parse := Date_parse sample_host;
     Date_toISOString := Date_toISOString sample_host;
     Date_toLocaleString := Date_toLocaleString sample_host;
     formatKES := formatKES sample_host;
     formatKES_NaN := formatKES_NaN sample_host;
     encodeURIComponent := encodeURIComponent sample_host;
     location_href := location_href sample_host;
     has_ticketContainer := true;
     has_toast := true;
     qr_region := qr_region sample_host;
     html2canvas := html2canvas sample_host;
     jspdf := jspdf_undefined;
     pageWidth := pageWidth sample_host;
     pageHeight := pageHeight sample_host;
     QRCode_works := true;
     popup_opens := true;
     clipboard_writes := true;
     storage_accepts := true |}.

(** The sample browser one minute later. *)
Definition later_host : Host :=
  {| now := {| getFullYear := 2025; getMonth := 2; getDate := 15;
               getTime := 1742023905678 |};
     Date_parse := Date_parse sample_host;
     Date_toISOString := Date_toISOString sample_host;
     Date_toLocaleString := Date_toLocaleString sample_host;
     formatKES := formatKES sample_host;
     formatKES_NaN := formatKES_NaN sample_host;
     encodeURIComponent := encodeURIComponent sample_host;
     location_href := location_href sample_host;
     has_ticketContainer := true;
     has_toast := true;
     qr_region := qr_region sample_host;
     html2canvas := html2canvas sample_host;
     jspdf := jspdf sample_host;
     pageWidth := pageWidth sample_host;
     pageHeight := pageHeight sample_host;
     QRCode_works := true;
     popup_opens := true;
     clipboard_writes := true;
     storage_accepts := true |}.

(** The sample browser on a page without the preview container. *)
Definition host_without_container : Host :=
  {| now := now sample_host;
     Date_parse := Date_parse sample_host;
     Date_toISOString := Date_toISOString sample_host;
     Date_toLocaleString := Date_toLocaleString sample_host;
     formatKES := formatKES sample_host;
     formatKES_NaN := formatKES_NaN sample_host;
     encodeURIComponent := encodeURIComponent sample_host;
     location_href := location_href sample_host;
     has_ticketContainer := false;
     has_toast := true;
     qr_region := qr_region sample_host;
     html2canvas := html2canvas sample_host;
     jspdf := jspdf sample_host;
     pageWidth := pageWidth sample_host;
     pageHeight := pageHeight sample_host;
     QRCode_works := true;
     popup_opens := true;
     clipboard_writes := true;
     storage_accepts := true |}.

(** The sample browser on a page without the toast element. *)
Definition host_without_toast : Host :=
  {| now := now sample_host;
     Date_parse := Date_parse sample_host;
     Date_toISOString := Date_toISOString sample_host;
     Date_toLocaleString := Date_toLocaleString sample_host;
     formatKES := formatKES sample_host;
     formatKES_NaN := formatKES_NaN sample_host;
     encodeURIComponent := encodeURIComponent sample_host;
     location_href := location_href sample_host;
     has_ticketContainer := true;
     has_toast := false;
     qr_region := qr_region sample_host;
     html2canvas := html2canvas sample_host;
     jspdf := jspdf sample_host;
     pageWidth := pageWidth sample_host;
     pageHeight := pageHeight sample_host;
     QRCode_works := true;
     popup_opens := true;
     clipboard_writes := true;
     storage_accepts := true |}.

Definition blank_form : Form :=
  {| passengerNameEl := ""; phoneEl := ""; emailEl := ""; transportEl := "";
     providerEl := emptySelect; classEl := emptySelect;
     originEl := ""; destinationEl := ""; startDateEl := ""; endDateEl := "";
     priceDisplay := "" |}.

(** The page when the script has just been loaded: nothing rendered, the
    renderer's variables still [null]. *)
Definition fresh_page (f : Form) : Page :=
  {| form := f; ticketContainer := None; qrCode := None;
     container := false; currentData := None;
     exportButtons := false; sessionStorage := ∅ |}.

(** A filled form for a first-class flight, no return date, no origin and
    no destination typed. *)
Definition flight_form : Form :=
  {| passengerNameEl := "  Amina Otieno ";
     phoneEl := "+254 700 000000";
     emailEl := "amina@example.org";
     transportEl := "Flight";
     providerEl := {| options := ["Qatar Airways"; "Kenya Airways"];
                      value := "Kenya Airways" |};
     classEl := {| options := ["Economy"; "Business"; "First Class"];
                   value := "First Class" |};
     originEl := "";
     destinationEl := "";
     startDateEl := "2025-04-01T08:00";
     endDateEl := "";
     priceDisplay := "KES 70000" |}.

(** The same form with only blanks typed as the depart date. *)
Definition blank_date_form : Form :=
  {| passengerNameEl := "Amina Otieno";
     phoneEl := "+254 700 000000";
     emailEl := "amina@example.org";
     transportEl := "Flight";
     providerEl := providerEl flight_form;
     classEl := classEl flight_form;
     originEl := "";
     destinationEl := "";
     startDateEl := "   ";
     endDateEl := "";
     priceDisplay := "KES 70000" |}.

(** The payload the sample browser builds from [flight_form]. *)
Definition flight_ticket : TicketData :=
  ticketData sample_host flight_form "2025-04-01T05:00:00.000Z" "".

(* ===================================================================== *)
(** * Specification vocabulary *)
(* ===================================================================== *)

(** ** Prices *)

(** The integer nearest to [num / den] for a positive [den], a tie going to
    the larger one. *)
Definition round_ratio (num den : Z) : Z := (2 * num + den) / (2 * den).

(** [round (p * 0.05)] over exact arithmetic. *)
Definition five_percent (p : Z) : Z := round_ratio (p * 5) 100.

(** The prices the matrix holds, and [0] for an unresolved selection. *)
Definition matrix_prices : list Z :=
  0 :: flat_map (fun entry => map snd (classes (snd entry))) PRICE_MATRIX.

(** ** Submissions *)

(** A string has nothing but white space in it (or nothing at all). *)
Fixpoint blank (s : string) : bool :=
  match s with
  | String c r => JS.is_space c && blank r
  | EmptyString => true
  end.

(** The message of the validation alert. *)
Definition validation_alert : Effect :=
  Alert "Please fill required fields (name, phone, email, depart date).".

(** A run of the submit listener went through: it returned normally after
    having rendered the payload [d] and scrolled to it. *)
Definition submitted (host : Host) (p : Page) (d : TicketData) : Prop :=
  let r := submit host p in
  outcome_of r = inl tt /\
  In ScrollIntoView (effects_of r) /\
  currentData (page_of r) = Some d.

(** The ISO string of a date input, when it is a valid date. *)
Definition iso_of (host : Host) (s : string) : option string :=
  option_map (Date_toISOString host) (Date_parse host s).

(** The arrival of a form: empty without a return date. *)
Definition arrival_of (host : Host) (f : Form) : option string :=
  if JS.truthy (endDateEl f) then iso_of host (endDateEl f) else Some "".

(** The page a successful submission of payload [d] leaves. *)
Definition booked_page (host : Host) (p : Page) (d : TicketData) : Page :=
  {| form := form p;
     ticketContainer := Some (TicketRenderer.buildHtml host d);
     qrCode := if qr_region host (TicketRenderer.buildHtml host d) && QRCode_works host
               then Some (JS.or_else
                            (JS.or_else (qrPayload d)
                               ("Booking:" ++ JS.or_else (bookingId d) "TBA"))
                            (location_href host))
               else None;
     container := true;
     currentData := Some d;
     exportButtons := true;
     sessionStorage :=
       if storage_accepts host
       then <[ "booking_" ++ bookingId d := JSON_stringify (ticketData_value d) ]>
              (sessionStorage p)
       else sessionStorage p |}.

(** The form with other contents in its two route fields. *)
Definition with_route (o dst : string) (f : Form) : Form :=
  {| passengerNameEl := passengerNameEl f; phoneEl := phoneEl f; emailEl := emailEl f;
     transportEl := transportEl f; providerEl := providerEl f; classEl := classEl f;
     originEl := o; destinationEl := dst;
     startDateEl := startDateEl f; endDateEl := endDateEl f;
     priceDisplay := priceDisplay f |}.

(** ** Exports *)

(** No render call has occurred: the two variables of the renderer still
    hold [null]. *)
Definition never_rendered (p : Page) : Prop :=
  container p = false /\ currentData p = None.

(** ** Booking ids *)

(** The last [k] decimal digits of [n], most significant first, zeros
    included. *)
Fixpoint last_digits (k : nat) (n : Z) : string :=
  match k with
  | O => ""
  | S j => last_digits j (n / 10) ++ String (JS.digit_char (n mod 10)) ""
  end.

(** [HT-YYYYMMDD-<6 trailing digits of the time stamp>] for a calendar date
    and a time stamp. *)
Definition bookingId_format (year month day time : Z) : string :=
  "HT-" ++ last_digits 4 year ++ last_digits 2 month ++ last_digits 2 day
        ++ "-" ++ last_digits 6 (time mod 1000000).

(** ** Stored payloads *)

(** A character that starts a number starts nothing else. *)
Definition number_head (c : ascii) : Prop :=
  JSON.is_ws c = false /\
  Ascii.eqb c "{" = false /\ Ascii.eqb c "[" = false /\
  Ascii.eqb c JSON.dquote = false /\
  Ascii.eqb c "n" = false /\ Ascii.eqb c "t" = false /\ Ascii.eqb c "f" = false /\
  Ascii.eqb c "]" = false /\ Ascii.eqb c "}" = false.

(** A value is read back from its serialisation, whatever follows it in
    the text: the statement proved for every value by induction. *)
Definition reads_back (v : JSON.value) : Prop :=
  JSON.distinct_keys v ->
  forall text, JSON.stringify v = Some text ->
  forall (fuel : nat) (rest : string),
    (JSON.weight (JSON.strip v) <= fuel)%nat ->
    JSON.delimited rest = true ->
    JSON.parse_value fuel (text ++ rest) = Some (JSON.strip v, rest).

(** Reading typed fields off a parsed object. *)
Definition get_string (v : JSON.value) (k : string) : option string :=
  match JSON.get v k with
  | JSON.Str s => Some s
  | _ => None
  end.

Definition get_integer (v : JSON.value) (k : string) : option Z :=
  match JSON.get v k with
  | JSON.Num n => Some n
  | _ => None
  end.

Definition get_optional_integer (v : JSON.value) (k : string) : option (option Z) :=
  match JSON.get v k with
  | JSON.Undefined => Some None
  | JSON.Num n => Some (Some n)
  | _ => None
  end.

(** The payload a parsed object stands for: every field of the record read
    by property access, a property that reads [undefined] being an absent
    optional field. *)
Definition read_ticket (v : JSON.value) : option TicketData :=
  bookingId ← get_string v "bookingId";
  passengerName ← get_string v "passengerName";
  contactPhone ← get_string v "contactPhone";
  contactEmail ← get_string v "contactEmail";
  transportType ← get_string v "transportType";
  provider ← get_string v "provider";
  classOrSeat ← get_string v "classOrSeat";
  origin ← get_string (JSON.get v "route") "origin";
  destination ← get_string (JSON.get v "route") "destination";
  departDateTime ← get_string v "departDateTime";
  arriveDateTime ← get_string v "arriveDateTime";
  duration ← get_string v "duration";
  distanceKm ← get_optional_integer v "distanceKm";
  price ← get_integer v "price";
  taxes ← get_integer v "taxes";
  total ← get_integer v "total";
  additionalNotes ← get_string v "additionalNotes";
  mapLink ← get_string v "mapLink";
  qrPayload ← get_string v "qrPayload";
  logoUrl ← get_string v "logoUrl";
  Some {| bookingId := bookingId;
          passengerName := passengerName;
          contactPhone := contactPhone;
          contactEmail := contactEmail;
          transportType := transportType;
          provider := provider;
          classOrSeat := classOrSeat;
          route := {| origin := origin; destination := destination |};
          departDateTime := departDateTime;
          arriveDateTime := arriveDateTime;
          duration := duration;
          distanceKm := distanceKm;
          price := price;
          taxes := taxes;
          total := total;
          additionalNotes := additionalNotes;
          mapLink := mapLink;
          qrPayload := qrPayload;
          logoUrl := logoUrl |}.


(** ** Numbers with a sign *)

(** A Number that is NaN or carries the sign [s]. *)
Definition signed (s : bool) (x : spec_float) : Prop :=
  match x with
  | S754_nan => True
  | S754_zero s' => s' = s
  | S754_infinity s' => s' = s
  | S754_finite s' _ _ => s' = s
  end.

(** ** File names *)

(** A string without any white space. *)
Fixpoint spaceless (s : string) : bool :=
  match s with
  | String c r => negb (JS.is_space c) && spaceless r
  | EmptyString => true
  end.

(** ** The state of the form *)

(** The drop-downs offer what the matrix configures for the selected
    category, with one of the offered classes selected; nothing for a
    category the matrix does not have. *)
Definition options_match (f : Form) : Prop :=
  match JS.prop PRICE_MATRIX (transportEl f) with
  | Some spec =>
      options (providerEl f) = providers spec /\
      options (classEl f) = JS.keys (classes spec) /\
      In (value (classEl f)) (options (classEl f))
  | None => providerEl f = emptySelect /\ classEl f = emptySelect
  end.

(** The price display shows what the resolver answers. *)
Definition price_shown (host : Host) (f : Form) : Prop :=
  priceDisplay f
  = if getPrice f =? 0 then "KES 0" else formatKES host (getPrice f).

(** The listener of an event gets as far as [updatePrice]: a category change
    does for a configured category, a reset unless the default category
    names a member of [Object.prototype], the other listeners always. *)
Definition reaches_updatePrice (ev : FormEvent) : Prop :=
  match ev with
  | TransportChanged v => JS.prop PRICE_MATRIX v <> None
  | ResetClicked defaults => JS.inherited (transportEl defaults) = false
  | _ => True
  end.

(** ** Clocks *)

(** A clock in a four-digit year, on a calendar day, at least 100 seconds
    past the epoch. *)
Definition calendar_clock (c : Clock) : Prop :=
  1000 <= getFullYear c <= 9999 /\ 0 <= getMonth c <= 11 /\
  1 <= getDate c <= 31 /\ 100000 <= getTime c.

(* ===================================================================== *)
(** * Pricing *)
(* ===================================================================== *)

Lemma getPrice_in_matrix (f : Form) : In (getPrice f) matrix_prices.
Proof.
  unfold getPrice.
  destruct (negb (JS.truthy (transportEl f)) || negb (JS.truthy (value (classEl f)))).
  - now left.
  - cbn [PRICE_MATRIX JS.prop].
    repeat match goal with
           | |- context [String.eqb ?a ?b] => destruct (String.eqb a b)
           | |- _ => progress cbn [JS.prop JS.or_zero classes]
           end;
      vm_compute; tauto.
Qed.

(** On every price of the matrix the binary64 product [price * 0.05] is
    finite and [Math.round] of it is the exact rounding of the twentieth. *)
Lemma tax_of_matrix_price (v : Z) :
  In v matrix_prices ->
  JS.is_finite (JS.Number_mul (JS.Number_of_Z v) JS.lit_0_05) = true /\
  JS.Math_round (JS.Number_mul (JS.Number_of_Z v) JS.lit_0_05) = five_percent v.
Proof.
  intros H. vm_compute in H.
  repeat (destruct H as [<- | H]; [ now vm_compute | ]).
  destruct H.
Qed.

(** [0.05] is the Number nearest to 5/100. *)
Lemma lit_0_05_nearest :
  JS.Number_div (JS.Number_of_Z 5) (JS.Number_of_Z 100) = JS.lit_0_05.
Proof. reflexivity. Qed.

Lemma matrix_prices_nonneg (v : Z) : In v matrix_prices -> 0 <= v.
Proof.
  intros H. vm_compute in H.
  repeat (destruct H as [<- | H]; [ lia | ]).
  destruct H.
Qed.

(** Case analysis on a successful lookup in an object literal: the key is
    one of the literal's keys. *)
Ltac prop_cases H :=
  cbn [JS.prop PRICE_MATRIX classes] in H;
  lazymatch type of H with
  | (if String.eqb ?k ?x then _ else _) = _ =>
      let E := fresh "E" in
      destruct (String.eqb k x) eqn:E;
      [ apply String.eqb_eq in E; subst x; injection H as <-
      | prop_cases H ]
  | None = Some _ => discriminate H
  | _ => idtac
  end.

(** No category and no class of the matrix has the empty name. *)
Lemma matrix_names_not_empty (cat : string) (spec : Spec) :
  JS.prop PRICE_MATRIX cat = Some spec ->
  cat <> "" /\ JS.prop (classes spec) "" = None.
Proof.
  intros H. prop_cases H; split; (discriminate || reflexivity).
Qed.

Lemma getPrice_configured (f : Form) (spec : Spec) (p : Z) :
  JS.prop PRICE_MATRIX (transportEl f) = Some spec ->
  JS.prop (classes spec) (value (classEl f)) = Some p ->
  getPrice f = p.
Proof.
  intros Hs Hc. unfold getPrice.
  destruct (matrix_names_not_empty _ _ Hs) as [Ht Hn].
  assert (Hv : value (classEl f) <> "") by (intros E; rewrite E in Hc; congruence).
  unfold JS.truthy.
  destruct (String.eqb_spec (transportEl f) ""); [ contradiction | ].
  destruct (String.eqb_spec (value (classEl f)) ""); [ contradiction | ].
  cbn [negb orb]. now rewrite Hs, Hc.
Qed.

Lemma getPrice_unconfigured (f : Form) :
  JS.prop PRICE_MATRIX (transportEl f) = None -> getPrice f = 0.
Proof.
  intros H. unfold getPrice. rewrite H. now destruct (_ || _).
Qed.

Lemma populateOptions_configured (host : Host) (cat : string) (spec : Spec) (f : Form) :
  JS.prop PRICE_MATRIX cat = Some spec ->
  options (providerEl (populateOptions host cat f)) = providers spec /\
  options (classEl (populateOptions host cat f)) = JS.keys (classes spec).
Proof.
  intros H. unfold populateOptions. rewrite H.
  prop_cases H; split; reflexivity.
Qed.

Lemma populateOptions_unconfigured (host : Host) (cat : string) (f : Form) :
  JS.prop PRICE_MATRIX cat = None ->
  providerEl (populateOptions host cat f) = emptySelect /\
  classEl (populateOptions host cat f) = emptySelect.
Proof.
  intros H. unfold populateOptions. rewrite H. split; reflexivity.
Qed.

Lemma populateOptions_transport (host : Host) (cat : string) (f : Form) :
  transportEl (populateOptions host cat f) = transportEl f.
Proof.
  unfold populateOptions. now destruct (JS.prop PRICE_MATRIX cat).
Qed.


(* ===================================================================== *)
(** * White space *)
(* ===================================================================== *)

Lemma trimStart_blank (s : string) : blank s = true -> JS.trimStart s = "".
Proof.
  induction s as [|c r IH]; cbn; [ reflexivity | ].
  destruct (JS.is_space c); cbn; [ exact IH | discriminate ].
Qed.

Lemma trimStart_not_blank (s : string) :
  blank s = false -> exists c r, JS.trimStart s = String c r /\ JS.is_space c = false.
Proof.
  induction s as [|c r IH]; cbn; [ discriminate | ].
  destruct (JS.is_space c) eqn:E; cbn; [ exact IH | ].
  intros _. now exists c, r.
Qed.

Lemma trimEnd_keeps_head (c : ascii) (r : string) :
  JS.is_space c = false -> exists r', JS.trimEnd (String c r) = String c r'.
Proof.
  intros E. cbn. destruct (JS.trimEnd r); rewrite ?E; eauto.
Qed.

(** [trim] leaves nothing exactly when the string is blank. *)
Lemma trim_empty_iff (s : string) : JS.trim s = "" <-> blank s = true.
Proof.
  unfold JS.trim. split.
  - intros H. destruct (blank s) eqn:B; [ reflexivity | ].
    destruct (trimStart_not_blank s B) as (c & r & E & Hc).
    rewrite E in H. destruct (trimEnd_keeps_head c r Hc) as [r' E'].
    rewrite E' in H. discriminate.
  - intros B. now rewrite trimStart_blank.
Qed.

Lemma truthy_trim (s : string) : JS.truthy (JS.trim s) = negb (blank s).
Proof.
  unfold JS.truthy. destruct (blank s) eqn:B.
  - apply trim_empty_iff in B. now rewrite B.
  - destruct (String.eqb_spec (JS.trim s) "") as [E|E]; [ | reflexivity ].
    apply trim_empty_iff in E. congruence.
Qed.

Lemma truthy_empty_iff (s : string) : JS.truthy s = false <-> s = "".
Proof.
  unfold JS.truthy. destruct (String.eqb_spec s ""); cbn; split; intros; congruence.
Qed.

(** The validation test in terms of the raw field values. *)
Lemma required_missing_spec (f : Form) :
  required_missing f =
  blank (passengerNameEl f) || blank (phoneEl f) || blank (emailEl f)
  || String.eqb (startDateEl f) "".
Proof.
  unfold required_missing. rewrite !truthy_trim, !negb_involutive.
  unfold JS.truthy. now rewrite negb_involutive.
Qed.

(* ===================================================================== *)
(** * The submit listener *)
(* ===================================================================== *)

(** Unfolds a handler down to the tests it makes. *)
Ltac run :=
  cbv beta iota zeta delta
    [submit TicketRenderer.init TicketRenderer.renderQR TicketRenderer.set_container
     TicketRenderer.set_render TicketRenderer.set_qrCode toISOString setItem
     TicketRenderer.downloadPNG TicketRenderer.downloadPDF TicketRenderer.printTicket
     TicketRenderer.copyBookingId TicketRenderer.captureToCanvas TicketRenderer.exportId
     TicketRenderer.showToast TicketRenderer.jspdf_jsPDF TicketRenderer.jspdf_defined
     set_exportButtons set_sessionStorage booked_page validation_alert
     bind ret emit throw get_page modify try_catch page_of effects_of outcome_of
     fst snd app negb
     form ticketContainer qrCode container currentData exportButtons sessionStorage].

(** A form that fails the validation test gets the alert and nothing else:
    the page, with its form, its preview and its store, is left as it was. *)
Lemma submit_rejects (host : Host) (p : Page) :
  required_missing (form p) = true ->
  submit host p = (p, [validation_alert], inl tt).
Proof.
  intros H. destruct p as [f tc qr c cd eb ss]. run. cbn [form] in H.
  now rewrite H.
Qed.

(** A form that passes the test, with valid dates, on a page that has its
    preview container and its toast, is booked. *)
Lemma submit_books (host : Host) (p : Page) (dep arr : string) :
  required_missing (form p) = false ->
  iso_of host (startDateEl (form p)) = Some dep ->
  arrival_of host (form p) = Some arr ->
  has_ticketContainer host = true ->
  has_toast host = true ->
  let d := ticketData host (form p) dep arr in
  submit host p =
    (booked_page host p d,
     ((if qr_region host (TicketRenderer.buildHtml host d) && negb (QRCode_works host)
       then [ConsoleWarn] else [])
      ++ [ScrollIntoView;
          Toast ("Booking " ++ bookingId d ++ " created — ticket ready")])%list,
     inl tt).
Proof.
  destruct p as [f tc qr c cd eb ss]. cbn [form].
  unfold iso_of, arrival_of, iso_of. intros Hv Hd Ha Hc Ht. run.
  rewrite Hv, Hc, Ht.
  destruct (Date_parse host (startDateEl f)) as [t0|]; [ | discriminate Hd ].
  injection Hd as <-.
  destruct (JS.truthy (endDateEl f)).
  - destruct (Date_parse host (endDateEl f)) as [t1|]; [ | discriminate Ha ].
    injection Ha as <-.
    destruct (qr_region host _), (QRCode_works host), (storage_accepts host);
      reflexivity.
  - injection Ha as <-.
    destruct (qr_region host _), (QRCode_works host), (storage_accepts host);
      reflexivity.
Qed.

(** Conversely a run that went through passed the test and built its
    payload from the form and the two dates. *)
Lemma submitted_inv (host : Host) (p : Page) (d : TicketData) :
  submitted host p d ->
  required_missing (form p) = false /\
  has_ticketContainer host = true /\
  has_toast host = true /\
  exists dep arr,
    iso_of host (startDateEl (form p)) = Some dep /\
    arrival_of host (form p) = Some arr /\
    d = ticketData host (form p) dep arr.
Proof.
  destruct p as [f tc qr c cd eb ss].
  unfold submitted, iso_of, arrival_of, iso_of. run.
  destruct (required_missing f).
  { intros (_ & [H|[]] & _). discriminate H. }
  destruct (Date_parse host (startDateEl f)) as [t0|];
    [ | intros (H & _); discriminate H ].
  destruct (JS.truthy (endDateEl f));
    [ destruct (Date_parse host (endDateEl f)) as [t1|];
      [ | intros (H & _); discriminate H ] | ];
    (destruct (has_ticketContainer host); [ | intros (H & _); discriminate H ]);
    destruct (qr_region host _), (QRCode_works host), (has_toast host);
    try (intros (H & _); discriminate H);
    destruct (storage_accepts host);
    intros (_ & _ & [= <-]); repeat split; eauto.
Qed.

Lemma submitted_iff (host : Host) (p : Page) (d : TicketData) :
  submitted host p d <->
  required_missing (form p) = false /\
  has_ticketContainer host = true /\
  has_toast host = true /\
  exists dep arr,
    iso_of host (startDateEl (form p)) = Some dep /\
    arrival_of host (form p) = Some arr /\
    d = ticketData host (form p) dep arr.
Proof.
  split; [ apply submitted_inv | ].
  intros (Hv & Hc & Ht & dep & arr & Hd & Ha & ->).
  unfold submitted. rewrite (submit_books host p dep arr Hv Hd Ha Hc Ht).
  cbn [outcome_of effects_of page_of fst snd booked_page currentData].
  repeat split. apply in_or_app. right. now left.
Qed.

(** What a successful run leaves behind. *)
Lemma submitted_page (host : Host) (p : Page) (d : TicketData) :
  submitted host p d ->
  page_of (submit host p) = booked_page host p d.
Proof.
  intros H. destruct (submitted_inv host p d H)
    as (Hv & Hc & Ht & dep & arr & Hd & Ha & ->).
  now rewrite (submit_books host p dep arr Hv Hd Ha Hc Ht).
Qed.

Lemma flight_form_submitted : submitted sample_host (fresh_page flight_form) flight_ticket.
Proof.
  apply submitted_iff. repeat split.
  exists "2025-04-01T05:00:00.000Z", "". repeat split.
Qed.

(** C1: on every payload built by a successful submission the price is a
    non-negative price of the matrix, [taxes] is [round (price * 0.05)] and
    [total] is [price + taxes]; a first-class flight costs 70000, with taxes
    3500 and total 73500. *)
Theorem booking_taxes_and_total (host : Host) (p : Page) (d : TicketData) :
  submitted host p d ->
  price d = getPrice (form p) /\
  0 <= price d /\
  taxes d = five_percent (price d) /\
  total d = price d + taxes d /\
  (transportEl (form p) = "Flight" -> value (classEl (form p)) = "First Class" ->
   price d = 70000 /\ taxes d = 3500 /\ total d = 73500).
Proof.
  intros H.
  destruct (submitted_inv host p d H) as (_ & _ & _ & dep & arr & _ & _ & ->).
  cbn [ticketData price taxes total].
  pose proof (getPrice_in_matrix (form p)) as Hin.
  destruct (tax_of_matrix_price _ Hin) as [_ Htax].
  rewrite Htax.
  split; [ reflexivity | ].
  split; [ now apply matrix_prices_nonneg | ].
  split; [ reflexivity | ].
  split; [ reflexivity | ].
  intros Ht Hc.
  rewrite (getPrice_configured (form p)
             {| providers := ["Qatar Airways"; "Kenya Airways"];
                classes := [("Economy", 25000); ("Business", 45000);
                            ("First Class", 70000)] |} 70000).
  - repeat split.
  - now rewrite Ht.
  - now rewrite Hc.
Qed.

Lemma booking_taxes_and_total_witness :
  submitted sample_host (fresh_page flight_form) flight_ticket /\
  price flight_ticket = 70000 /\ taxes flight_ticket = 3500 /\
  total flight_ticket = 73500.
Proof.
  split; [ exact flight_form_submitted | ].
  apply (booking_taxes_and_total sample_host (fresh_page flight_form) flight_ticket
           flight_form_submitted); reflexivity.
Defined.

(** C3 fails on the code for a depart date made of white space: the
    listener trims the name, the phone and the email before its test, but
    not the depart date.  When the name, the phone or the email is blank, or
    the depart date is empty, the submission raises the validation alert and
    does nothing else (no payload, the preview, the store and the form as
    they were).  But any depart date that is not empty, be it made of white
    space only, passes the test when the three other fields are filled: no
    validation alert is raised, and with a date the browser cannot read the
    listener (the price once resolved) ends on an uncaught [RangeError]. *)
Theorem depart_date_is_not_trimmed (host : Host) (p : Page) :
  (blank (passengerNameEl (form p)) = true \/
   blank (phoneEl (form p)) = true \/
   blank (emailEl (form p)) = true \/
   startDateEl (form p) = "" ->
   submit host p = (p, [validation_alert], inl tt) /\
   forall d, ~ submitted host p d)
  /\
  (blank (passengerNameEl (form p)) = false ->
   blank (phoneEl (form p)) = false ->
   blank (emailEl (form p)) = false ->
   startDateEl (form p) <> "" ->
   ~ In validation_alert (effects_of (submit host p)) /\
   (Date_parse host (startDateEl (form p)) = None ->
    (forall e, Prototype.getPrice (form p) <> inr e) ->
    submit host p = (p, [], inr JS.RangeError))).
Proof.
  split.
  - intros H.
    assert (Hm : required_missing (form p) = true).
    { rewrite required_missing_spec.
      destruct H as [-> | [-> | [-> | ->]]]; cbn;
        rewrite ?orb_true_r; reflexivity. }
    split; [ now apply submit_rejects | ].
    intros d Hd. apply submitted_inv in Hd. destruct Hd as [Hd _]. congruence.
  - intros Hn Hp He Hs.
    assert (Hm : required_missing (form p) = false).
    { rewrite required_missing_spec, Hn, Hp, He. cbn.
      now apply String.eqb_neq. }
    destruct p as [f tc qr c cd eb ss]. cbn [form] in *. run. rewrite Hm.
    destruct (Date_parse host (startDateEl f)) as [t0|].
    + split; [ | discriminate ].
      destruct (JS.truthy (endDateEl f));
        [ destruct (Date_parse host (endDateEl f)) as [t1|] | ];
        try (cbn; tauto);
        (destruct (has_ticketContainer host); [ | cbn; tauto ]);
        destruct (qr_region host _), (QRCode_works host), (has_toast host),
                 (storage_accepts host);
        cbn; intros K; repeat (destruct K as [K|K]; try discriminate K);
        exact K.
    + split; [ cbn; tauto | intros _ _; reflexivity ].
Qed.

Lemma depart_date_is_not_trimmed_witness :
  blank (startDateEl blank_date_form) = true /\
  startDateEl blank_date_form <> "" /\
  submit sample_host (fresh_page blank_date_form)
  = (fresh_page blank_date_form, [], inr JS.RangeError).
Proof.
  split; [ reflexivity | ]. split; [ discriminate | ].
  destruct (depart_date_is_not_trimmed sample_host (fresh_page blank_date_form))
    as [_ H].
  assert (Hs : startDateEl (form (fresh_page blank_date_form)) <> "") by discriminate.
  destruct (H eq_refl eq_refl eq_refl Hs) as [_ K].
  apply K; [ reflexivity | ]. intros e E. discriminate E.
Defined.

(** C10: an otherwise valid submission goes through whatever the route
    fields hold (the validation test does not read them); with an empty
    origin the payload's route starts at "Nairobi", with an empty destination
    it ends at "TBA". *)
Theorem empty_route_gets_defaults (host : Host) (p : Page) (dep arr : string) :
  required_missing (form p) = false ->
  iso_of host (startDateEl (form p)) = Some dep ->
  arrival_of host (form p) = Some arr ->
  has_ticketContainer host = true ->
  has_toast host = true ->
  let d := ticketData host (form p) dep arr in
  submitted host p d /\
  (originEl (form p) = "" -> origin (route d) = "Nairobi") /\
  (destinationEl (form p) = "" -> destination (route d) = "TBA") /\
  (forall o dst, required_missing (with_route o dst (form p)) = false).
Proof.
  intros Hv Hd Ha Hc Ht d. repeat split.
  - rewrite (submit_books host p dep arr Hv Hd Ha Hc Ht). reflexivity.
  - rewrite (submit_books host p dep arr Hv Hd Ha Hc Ht).
    cbn [effects_of fst snd]. apply in_or_app. right. now left.
  - now rewrite (submit_books host p dep arr Hv Hd Ha Hc Ht).
  - intros E. subst d. cbn [ticketData route origin]. now rewrite E.
  - intros E. subst d. cbn [ticketData route destination]. now rewrite E.
  - intros o dst. exact Hv.
Qed.

Lemma empty_route_gets_defaults_witness :
  submitted sample_host (fresh_page flight_form) flight_ticket /\
  origin (route flight_ticket) = "Nairobi" /\
  destination (route flight_ticket) = "TBA".
Proof.
  pose proof (empty_route_gets_defaults sample_host (fresh_page flight_form)
                "2025-04-01T05:00:00.000Z" ""
                eq_refl eq_refl eq_refl eq_refl eq_refl) as (H & Ho & Hd & _).
  split; [ exact H | ].
  split; [ exact (Ho eq_refl) | exact (Hd eq_refl) ].
Defined.

(** A payload without arrival and without a duration of its own renders
    "TBA" twice. *)
Lemma buildHtml_without_arrival (host : Host) (d : TicketData) :
  arriveDateTime d = "" ->
  html_arrive (TicketRenderer.buildHtml host d) = "TBA" /\
  (duration d = "" -> html_duration (TicketRenderer.buildHtml host d) = "TBA").
Proof.
  intros Harr. cbn [TicketRenderer.buildHtml html_arrive html_duration].
  rewrite Harr. split; [ reflexivity | ].
  intros ->. unfold TicketRenderer.computeDuration.
  cbn [JS.truthy String.eqb negb]. now rewrite orb_true_r.
Qed.

(** A payload that carries a duration string of its own shows it, with or
    without arrival; the form never builds one. *)
Lemma buildHtml_given_duration (host : Host) (d : TicketData) :
  duration d <> "" ->
  html_duration (TicketRenderer.buildHtml host d) = duration d.
Proof.
  intros H. cbn [TicketRenderer.buildHtml html_duration]. unfold JS.or_else at 2.
  destruct (JS.truthy (duration d)) eqn:E.
  - unfold JS.or_else. now rewrite E.
  - apply truthy_empty_iff in E. contradiction.
Qed.

(** C9: when the payload of a successful submission has no arrival, the
    ticket rendered into the preview shows "TBA" as its Arrive value and
    "TBA" as its Duration value. *)
Theorem no_arrival_renders_TBA (host : Host) (p : Page) (d : TicketData) :
  submitted host p d ->
  arriveDateTime d = "" ->
  exists html,
    ticketContainer (page_of (submit host p)) = Some html /\
    html = TicketRenderer.buildHtml host d /\
    html_arrive html = "TBA" /\
    html_duration html = "TBA".
Proof.
  intros H Harr. rewrite (submitted_page host p d H).
  exists (TicketRenderer.buildHtml host d).
  destruct (buildHtml_without_arrival host d Harr) as [Ha Hd].
  repeat split; [ exact Ha | apply Hd ].
  destruct (submitted_inv host p d H) as (_ & _ & _ & dep & arr & _ & _ & E).
  now rewrite E.
Qed.

Lemma no_arrival_renders_TBA_witness :
  submitted sample_host (fresh_page flight_form) flight_ticket /\
  arriveDateTime flight_ticket = "" /\
  exists html,
    ticketContainer (page_of (submit sample_host (fresh_page flight_form))) = Some html /\
    html = TicketRenderer.buildHtml sample_host flight_ticket /\
    html_arrive html = "TBA" /\
    html_duration html = "TBA".
Proof.
  split; [ exact flight_form_submitted | ].
  split; [ reflexivity | ].
  apply (no_arrival_renders_TBA sample_host (fresh_page flight_form) flight_ticket
           flight_form_submitted eq_refl).
Defined.

(* ===================================================================== *)
(** * Exports *)
(* ===================================================================== *)

(** C5, as the code has it: before any render call, rasterize-to-image
    raises the alert "PNG generation failed.", rasterize-to-document (with
    [window.jspdf] defined) raises the alert "PDF generation failed." after
    at most having laid the capture out on the in-memory page, and
    copy-booking-id (on a page with its toast element) shows the toast "No
    booking ID"; each returns normally, leaves the page as it was and exports
    nothing.  Print, by its guard, prints the current page directly and
    signals nothing. *)
Theorem exports_before_render (host : Host) (p : Page) :
  never_rendered p ->
  TicketRenderer.downloadPNG host p
  = (p, [ConsoleError; Alert "PNG generation failed."], inl tt)
  /\
  (jspdf host <> jspdf_undefined ->
   exists laid_out,
     TicketRenderer.downloadPDF host p
     = (p, (laid_out ++ [ConsoleError; Alert "PDF generation failed."])%list, inl tt) /\
     (laid_out = [] \/ exists x y w h, laid_out = [PdfAddImage x y w h]))
  /\
  (has_toast host = true ->
   TicketRenderer.copyBookingId host p = (p, [Toast "No booking ID"], inl tt))
  /\
  TicketRenderer.printTicket host p = (p, [WindowPrint], inl tt).
Proof.
  destruct p as [f tc qr c cd eb ss]. intros [Hc Hd]. cbn in Hc, Hd. subst c cd.
  split; [ | split; [ | split ] ].
  - run. destruct (has_ticketContainer host); [ | reflexivity ].
    destruct (html2canvas host) as [[cv|]|]; reflexivity.
  - intros Hj. run.
    destruct (jspdf host) as [|ctor]; [ contradiction | ].
    destruct (has_ticketContainer host); [ | exists []; split; [ reflexivity | now left ] ].
    destruct (html2canvas host) as [[cv|]|];
      try (exists []; split; [ reflexivity | now left ]).
    destruct ctor; [ | exists []; split; [ reflexivity | now left ] ].
    eexists [PdfAddImage _ _ _ _]. split; [ reflexivity | ].
    right. now do 4 eexists.
  - intros Ht. run. now rewrite Ht.
  - reflexivity.
Qed.

Lemma exports_before_render_witness :
  never_rendered (fresh_page blank_form) /\
  TicketRenderer.downloadPNG sample_host (fresh_page blank_form)
  = (fresh_page blank_form, [ConsoleError; Alert "PNG generation failed."], inl tt).
Proof.
  assert (H : never_rendered (fresh_page blank_form)) by (split; reflexivity).
  split; [ exact H | ].
  apply (exports_before_render sample_host (fresh_page blank_form) H).
Defined.

(** C5 as stated fails on print: before any render call [printTicket]
    starts the print flow of the current page and signals no error. *)
Lemma print_before_render_prints :
  never_rendered (fresh_page blank_form) /\
  TicketRenderer.printTicket sample_host (fresh_page blank_form)
  = (fresh_page blank_form, [WindowPrint], inl tt).
Proof. repeat split. Qed.

(** C7 fails on the code: without [window.jspdf] the guard of [downloadPDF]
    reads a property of [undefined]; the call ends on a [TypeError] (its
    promise rejects) before any alert, and nothing tells the user. *)
Theorem downloadPDF_without_library (host : Host) (p : Page) :
  jspdf host = jspdf_undefined ->
  TicketRenderer.downloadPDF host p = (p, [], inr JS.TypeError).
Proof.
  intros H. run. now rewrite H.
Qed.

Lemma downloadPDF_without_library_witness :
  jspdf host_without_jspdf = jspdf_undefined /\
  TicketRenderer.downloadPDF host_without_jspdf
    (page_of (submit host_without_jspdf (fresh_page flight_form)))
  = (page_of (submit host_without_jspdf (fresh_page flight_form)), [], inr JS.TypeError).
Proof.
  split; [ reflexivity | ].
  apply (downloadPDF_without_library host_without_jspdf). reflexivity.
Defined.

(** With the library object present but without its constructor the guard
    lets the call through and the failure of [new jsPDF] is reported. *)
Lemma downloadPDF_without_constructor (host : Host) (p : Page) :
  jspdf host = jspdf_object false ->
  TicketRenderer.downloadPDF host p
  = (p, [ConsoleError; Alert "PDF generation failed."], inl tt).
Proof.
  intros H. destruct p as [f tc qr c cd eb ss]. run. rewrite H.
  destruct (has_ticketContainer host); [ | reflexivity ].
  destruct (html2canvas host) as [[cv|]|]; reflexivity.
Qed.

(** The two cases of the layout, over exact arithmetic. *)
Lemma placeImage_cases (W H iw ih : Q) :
  let pl := TicketRenderer.placeImage W H iw ih in
  ((place_w pl == W /\ place_h pl == (ih / iw) * W /\ place_h pl <= H) \/
   (place_h pl == H /\ place_w pl == (iw / ih) * H /\ H < (ih / iw) * W))%Q /\
  (place_x pl == (W - place_w pl) / 2 /\ place_y pl == (H - place_h pl) / 2)%Q.
Proof.
  unfold TicketRenderer.placeImage.
  cbn [num_mul num_div num_sub num_gt num_of_Z exact_rationals].
  change (inject_Z 2) with 2%Q.
  destruct (Qle_bool (ih / iw * W) H) eqn:E; cbn [negb place_x place_y place_w place_h].
  - apply Qle_bool_iff in E. split; [ left | ]; repeat split; try reflexivity. exact E.
  - split; [ right | ]; repeat split; try reflexivity.
    apply Qnot_le_lt. intros C. apply Qle_bool_iff in C. congruence.
Qed.

(** Read over exact arithmetic, the formulas of the layout keep the aspect
    ratio of the image, fit it inside the page and centre it: what the
    binary64 layout adds to the width of the page is rounding. *)
Lemma exact_layout_fits_page (W H iw ih : Q) :
  (0 < iw)%Q -> (0 < ih)%Q ->
  let pl := TicketRenderer.placeImage W H iw ih in
  (place_w pl * ih == place_h pl * iw /\
   place_w pl <= W /\ place_h pl <= H /\
   (place_w pl == W \/ place_h pl == H) /\
   0 <= place_x pl /\ 0 <= place_y pl /\
   place_x pl + place_w pl + place_x pl == W /\
   place_y pl + place_h pl + place_y pl == H)%Q.
Proof.
  intros Hiw Hih pl.
  destruct (placeImage_cases W H iw ih) as [Hc [Hx Hy]].
  fold pl in Hc, Hx, Hy.
  assert (Hiw0 : ~ iw == 0) by (intros E; rewrite E in Hiw; now apply Qlt_irrefl in Hiw).
  assert (Hih0 : ~ ih == 0) by (intros E; rewrite E in Hih; now apply Qlt_irrefl in Hih).
  assert (Hfit : (place_w pl * ih == place_h pl * iw /\ place_w pl <= W /\ place_h pl <= H
                  /\ (place_w pl == W \/ place_h pl == H))%Q).
  { destruct Hc as [(Hw & Hh & Hle) | (Hh & Hw & Hlt)].
    - repeat split.
      + rewrite Hw, Hh. field. exact Hiw0.
      + rewrite Hw. apply Qle_refl.
      + exact Hle.
      + now left.
    - repeat split.
      + rewrite Hw, Hh. field. exact Hih0.
      + rewrite Hw. apply Qlt_le_weak.
        assert (E : (W == iw / ih * (ih / iw * W))%Q) by (field; split; assumption).
        apply Qlt_le_trans with (iw / ih * (ih / iw * W))%Q;
          [ | rewrite <- E; apply Qle_refl ].
        apply Qmult_lt_l; [ | exact Hlt ].
        apply Qlt_shift_div_l; [ exact Hih | ]. now rewrite Qmult_0_l.
      + rewrite Hh. apply Qle_refl.
      + now right. }
  destruct Hfit as (Ha & Hw & Hh & Hf).
  repeat split; try assumption.
  - rewrite Hx. clear - Hw. generalize dependent (place_w pl). intros w Hw.
    apply Qle_shift_div_l; [ reflexivity | ]. lra.
  - rewrite Hy. clear - Hh. generalize dependent (place_h pl). intros h Hh.
    apply Qle_shift_div_l; [ reflexivity | ]. lra.
  - rewrite Hx. field.
  - rewrite Hy. field.
Qed.

(** ** The layout in binary64 *)

Lemma SFltb_irrefl (x : spec_float) : SFltb x x = false.
Proof.
  unfold SFltb, SFcompare.
  destruct x as [s|s| |s m e]; try reflexivity; try (now destruct s).
  destruct s; rewrite Z.compare_refl, Pos.compare_cont_refl; reflexivity.
Qed.

(** A finite Number minus itself is [+0], and so is its half. *)
Lemma Number_sub_self (x : spec_float) :
  JS.is_finite x = true ->
  JS.Number_div (JS.Number_sub x x) (JS.Number_of_Z 2) = S754_zero false.
Proof.
  destruct x as [s|s| |s m e]; intros H; try discriminate H.
  - now destruct s.
  - unfold JS.Number_sub, SFsub. rewrite Z.sub_diag. reflexivity.
Qed.




(* ===================================================================== *)
(** * Decimal digits and the booking id *)
(* ===================================================================== *)

Lemma append_cons (c : ascii) (a b : string) : String c a ++ b = String c (a ++ b).
Proof. reflexivity. Qed.

Lemma append_nil_l (a : string) : "" ++ a = a.
Proof. reflexivity. Qed.

Lemma append_assoc (a b c : string) : (a ++ b) ++ c = a ++ (b ++ c).
Proof.
  induction a as [|x a IH]; [ reflexivity | ].
  now rewrite !append_cons, IH.
Qed.

Lemma append_nil_r (a : string) : a ++ "" = a.
Proof.
  induction a as [|x a IH]; [ reflexivity | ].
  now rewrite append_cons, IH.
Qed.

Lemma length_append (a b : string) :
  String.length (a ++ b) = (String.length a + String.length b)%nat.
Proof.
  induction a as [|x a IH]; [ reflexivity | ].
  rewrite append_cons. cbn [String.length]. now rewrite IH.
Qed.

Lemma length_last_digits (k : nat) (n : Z) : String.length (last_digits k n) = k.
Proof.
  revert n. induction k as [|k IH]; intros n; cbn [last_digits]; [ reflexivity | ].
  rewrite length_append, IH. cbn [String.length]. lia.
Qed.

(** With [k] digits of room and enough fuel, [digits_acc] writes the [k]
    digits of a number that has exactly [k] of them. *)
Lemma digits_acc_last_digits (fuel k : nat) (n : Z) (acc : string) :
  (k < fuel)%nat ->
  0 <= n < 10 ^ Z.of_nat (S k) ->
  (k = O \/ 10 ^ Z.of_nat k <= n) ->
  JS.digits_acc fuel n acc = last_digits (S k) n ++ acc.
Proof.
  revert k n acc. induction fuel as [|f IH]; intros k n acc Hk Hn Hlow; [ lia | ].
  cbn [JS.digits_acc last_digits].
  destruct (Z.ltb_spec n 10) as [Hlt|Hge].
  - destruct k as [|k].
    + reflexivity.
    + exfalso. destruct Hlow as [Hlow|Hlow]; [ discriminate | ].
      assert (10 ^ 1 <= 10 ^ Z.of_nat (S k)) by (apply Z.pow_le_mono_r; lia).
      lia.
  - destruct k as [|k].
    + exfalso. change (10 ^ Z.of_nat 1) with 10 in Hn. lia.
    + rewrite (IH k (n / 10)).
      * cbn [last_digits]. now rewrite !append_assoc, append_cons.
      * lia.
      * replace (Z.of_nat (S (S k))) with (Z.succ (Z.of_nat (S k))) in Hn by lia.
        rewrite Z.pow_succ_r in Hn by lia.
        split; [ apply Z.div_pos; lia | apply Z.div_lt_upper_bound; lia ].
      * destruct k as [|k]; [ now left | right ].
        destruct Hlow as [Hlow|Hlow]; [ discriminate | ].
        replace (Z.of_nat (S (S k))) with (Z.succ (Z.of_nat (S k))) in Hlow by lia.
        rewrite Z.pow_succ_r in Hlow by lia.
        apply Z.div_le_lower_bound; lia.
Qed.

(** Every non-negative integer has a number of digits, within the fuel
    [digits] takes. *)
Lemma digit_count (n : Z) :
  0 <= n ->
  exists k : nat,
    (k <= Z.to_nat (Z.log2 n))%nat /\
    n < 10 ^ Z.of_nat (S k) /\
    (k = O \/ 10 ^ Z.of_nat k <= n).
Proof.
  intros Hn. pattern n. apply Z_lt_induction with (x := n); [ | exact Hn ].
  clear n Hn. intros n IH.
  destruct (Z.ltb_spec n 10) as [Hlt|Hge].
  - exists O. repeat split; [ lia | exact Hlt | now left ].
  - destruct (IH (n / 10)) as (k & Hk & Hup & Hlow).
    + split; [ apply Z.div_pos; lia | apply Z.div_lt; lia ].
    + exists (S k). repeat split.
      * assert (Z.log2 (n / 10) < Z.log2 n).
        { assert (0 < n / 10) by (apply Z.div_str_pos; lia).
          apply Z.log2_lt_pow2; [ lia | ].
          assert (n / 10 <= n / 2) by (apply Z.div_le_compat_l; lia).
          assert (n / 2 < 2 ^ Z.log2 n).
          { apply Z.div_lt_upper_bound; [ lia | ].
            rewrite <- Z.pow_succ_r by apply Z.log2_nonneg.
            apply Z.log2_spec. lia. }
          lia. }
        assert (0 <= Z.log2 (n / 10)) by apply Z.log2_nonneg.
        lia.
      * replace (Z.of_nat (S (S k))) with (Z.succ (Z.of_nat (S k))) by lia.
        rewrite Z.pow_succ_r by lia.
        pose proof (Z.div_mod n 10 ltac:(lia)).
        pose proof (Z.mod_pos_bound n 10 ltac:(lia)). lia.
      * right.
        replace (Z.of_nat (S k)) with (Z.succ (Z.of_nat k)) by lia.
        rewrite Z.pow_succ_r by lia.
        pose proof (Z.div_mod n 10 ltac:(lia)).
        pose proof (Z.mod_pos_bound n 10 ltac:(lia)).
        destruct Hlow as [->|Hlow]; [ cbn; lia | lia ].
Qed.

Lemma digits_last_digits (n : Z) :
  0 <= n ->
  exists k : nat,
    JS.digits n = last_digits (S k) n /\
    n < 10 ^ Z.of_nat (S k) /\
    (k = O \/ 10 ^ Z.of_nat k <= n).
Proof.
  intros Hn. destruct (digit_count n Hn) as (k & Hk & Hup & Hlow).
  exists k. split; [ | now split ].
  unfold JS.digits. rewrite (digits_acc_last_digits _ k); try lia.
  apply append_nil_r.
Qed.

Lemma pow10_pos (k : nat) : 0 < 10 ^ Z.of_nat k.
Proof. apply Z.pow_pos_nonneg; lia. Qed.

(** A number with exactly [S k] digits is written with them. *)
Lemma digits_exact (k : nat) (n : Z) :
  0 <= n ->
  (k = O \/ 10 ^ Z.of_nat k <= n) ->
  n < 10 ^ Z.of_nat (S k) ->
  JS.digits n = last_digits (S k) n.
Proof.
  intros Hn Hlow Hup. unfold JS.digits.
  rewrite (digits_acc_last_digits _ k); [ apply append_nil_r | | lia | exact Hlow ].
  destruct Hlow as [->|Hlow]; [ lia | ].
  assert (2 ^ Z.of_nat k <= 10 ^ Z.of_nat k) by (apply Z.pow_le_mono_l; lia).
  assert (0 < n) by (pose proof (pow10_pos k); lia).
  assert (Z.of_nat k <= Z.log2 n) by (apply Z.log2_le_pow2; lia).
  lia.
Qed.

(** Only the last [k] digits of [n] count. *)
Lemma last_digits_mod (k : nat) (n : Z) :
  last_digits k (n mod 10 ^ Z.of_nat k) = last_digits k n.
Proof.
  revert n. induction k as [|k IH]; intros n; [ reflexivity | ].
  cbn [last_digits].
  replace (Z.of_nat (S k)) with (Z.succ (Z.of_nat k)) by lia.
  rewrite Z.pow_succ_r by lia.
  pose proof (pow10_pos k) as Hp.
  rewrite Z.rem_mul_r by lia.
  pose proof (Z.mod_pos_bound n 10 ltac:(lia)) as Hr.
  set (q := (n / 10) mod 10 ^ Z.of_nat k).
  replace ((n mod 10 + 10 * q) / 10) with q
    by (apply Z.div_unique with (n mod 10); lia).
  replace ((n mod 10 + 10 * q) mod 10) with (n mod 10)
    by (apply Z.mod_unique with q; lia).
  subst q. now rewrite IH.
Qed.

Lemma last_digits_split (j i : nat) (n : Z) :
  last_digits (j + i) n = last_digits j (n / 10 ^ Z.of_nat i) ++ last_digits i n.
Proof.
  revert n. induction i as [|i IH]; intros n.
  - rewrite Nat.add_0_r. cbn [last_digits]. change (10 ^ Z.of_nat 0) with 1.
    now rewrite Z.div_1_r, append_nil_r.
  - rewrite Nat.add_succ_r. cbn [last_digits]. rewrite IH, append_assoc.
    replace (Z.of_nat (S i)) with (Z.succ (Z.of_nat i)) by lia.
    rewrite Z.pow_succ_r by lia.
    pose proof (pow10_pos i).
    now rewrite Z.div_div by lia.
Qed.

Lemma substring_all (b : string) : substring 0 (String.length b) b = b.
Proof. induction b as [|c b IH]; cbn; [ reflexivity | now rewrite IH ]. Qed.

Lemma substring_append_r (a b : string) :
  substring (String.length a) (String.length b) (a ++ b) = b.
Proof.
  induction a as [|c a IH]; [ apply substring_all | ].
  rewrite append_cons. exact IH.
Qed.

Lemma slice_last_append (k : nat) (a b : string) :
  String.length b = k -> JS.slice_last k (a ++ b) = b.
Proof.
  intros <-. unfold JS.slice_last. rewrite length_append.
  replace (String.length a + String.length b - String.length b)%nat
    with (String.length a) by lia.
  apply substring_append_r.
Qed.

(** [toString().slice(-6)] of a number of six digits or more: its last six
    digits. *)
Lemma slice_last_6_digits (n : Z) :
  100000 <= n ->
  JS.slice_last 6 (JS.Number_toString n) = last_digits 6 (n mod 1000000).
Proof.
  intros Hn. unfold JS.Number_toString.
  destruct (Z.ltb_spec n 0) as [Hneg|_]; [ lia | ].
  destruct (digits_last_digits n ltac:(lia)) as (k & -> & Hup & Hlow).
  assert (Hk : (5 <= k)%nat).
  { destruct (Nat.le_gt_cases 5 k) as [H|H]; [ exact H | exfalso ].
    assert (10 ^ Z.of_nat (S k) <= 10 ^ 5) by (apply Z.pow_le_mono_r; lia).
    change (10 ^ 5) with 100000 in *. lia. }
  replace (S k) with ((k - 5) + 6)%nat by lia.
  rewrite last_digits_split, slice_last_append by apply length_last_digits.
  symmetry. apply (last_digits_mod 6).
Qed.

(** [toString().padStart(2, '0')] of a number below 100: two digits. *)
Lemma padStart_2_digits (n : Z) :
  0 <= n < 100 ->
  JS.padStart 2 "0" (JS.Number_toString n) = last_digits 2 n.
Proof.
  intros Hn. unfold JS.Number_toString.
  destruct (Z.ltb_spec n 0) as [Hneg|_]; [ lia | ].
  destruct (Z.ltb_spec n 10) as [Hlt|Hge].
  - rewrite (digits_exact 0) by (try (now left); change (10 ^ Z.of_nat 1) with 10; lia).
    cbn [last_digits]. rewrite (Z.div_small n 10) by lia.
    reflexivity.
  - rewrite (digits_exact 1)
      by (try lia; try (right; change (10 ^ Z.of_nat 1) with 10; lia);
          change (10 ^ Z.of_nat 2) with 100; lia).
    unfold JS.padStart. now rewrite length_last_digits.
Qed.

(** [toString()] of a four-digit number. *)
Lemma toString_4_digits (n : Z) :
  1000 <= n <= 9999 -> JS.Number_toString n = last_digits 4 n.
Proof.
  intros Hn. unfold JS.Number_toString.
  destruct (Z.ltb_spec n 0) as [Hneg|_]; [ lia | ].
  apply (digits_exact 3); [ lia | right | ].
  - change (10 ^ Z.of_nat 3) with 1000. lia.
  - change (10 ^ Z.of_nat 4) with 10000. lia.
Qed.

(** C8: under a clock in a four-digit year and at least 100 seconds past the
    epoch, the booking id of a successful submission is [HT-], the four
    digits of the year, the month and the day on two digits each, a hyphen,
    and the last six decimal digits of the time stamp: 18 characters. *)
Theorem bookingId_has_format (host : Host) (p : Page) (d : TicketData) :
  submitted host p d ->
  1000 <= getFullYear (now host) <= 9999 ->
  0 <= getMonth (now host) <= 11 ->
  1 <= getDate (now host) <= 31 ->
  100000 <= getTime (now host) ->
  bookingId d
  = bookingId_format (getFullYear (now host)) (getMonth (now host) + 1)
      (getDate (now host)) (getTime (now host)) /\
  String.length (bookingId d) = 18%nat.
Proof.
  intros H Hy Hm Hd Ht.
  destruct (submitted_inv host p d H) as (_ & _ & _ & dep & arr & _ & _ & ->).
  cbn [ticketData bookingId]. unfold new_bookingId, bookingId_format.
  rewrite (toString_4_digits _ Hy).
  rewrite (padStart_2_digits (getMonth (now host) + 1)) by lia.
  rewrite (padStart_2_digits (getDate (now host))) by lia.
  rewrite (slice_last_6_digits _ Ht).
  split; [ reflexivity | ].
  rewrite !length_append, !length_last_digits. reflexivity.
Qed.

Lemma bookingId_has_format_witness :
  submitted sample_host (fresh_page flight_form) flight_ticket /\
  bookingId flight_ticket = "HT-20250315-845678".
Proof.
  split; [ exact flight_form_submitted | ].
  destruct (bookingId_has_format sample_host (fresh_page flight_form) flight_ticket
              flight_form_submitted) as [E _];
    [ cbn; lia | cbn; lia | cbn; lia | cbn; lia | ].
  rewrite E. reflexivity.
Defined.

(* ===================================================================== *)
(** * The JSON round trip *)
(* ===================================================================== *)

(** ** Strings *)

(** Reading the escape of a character gives the character back. *)
Lemma parse_chars_escape_char (c : ascii) (tail : string) :
  JSON.parse_chars (JSON.escape_char c ++ tail)
  = JSON.prepend c (JSON.parse_chars tail).
Proof.
  destruct c as [[] [] [] [] [] [] [] []]; reflexivity.
Qed.

Lemma parse_chars_escape (s rest : string) :
  JSON.parse_chars (JSON.escape s ++ String JSON.dquote rest) = Some (s, rest).
Proof.
  induction s as [|c s IH]; [ reflexivity | ].
  cbn [JSON.escape]. now rewrite append_assoc, parse_chars_escape_char, IH.
Qed.

(** ** Numbers *)

Lemma digit_char_facts (x : Z) :
  0 <= x < 10 ->
  JSON.is_digit (JS.digit_char x) = true /\
  JSON.digit_val (JS.digit_char x) = x /\
  Ascii.eqb (JS.digit_char x) "-" = false /\
  JSON.is_ws (JS.digit_char x) = false /\
  (Ascii.eqb (JS.digit_char x) "0" = true <-> x = 0).
Proof.
  intros H.
  assert (C : x = 0 \/ x = 1 \/ x = 2 \/ x = 3 \/ x = 4 \/ x = 5 \/ x = 6 \/ x = 7
              \/ x = 8 \/ x = 9) by lia.
  repeat (destruct C as [-> | C]; [ vm_compute; intuition congruence | ]).
  subst x. vm_compute; intuition congruence.
Qed.

(** The digits of a number, read from the front. *)
Lemma last_digits_front (k : nat) (n : Z) :
  last_digits (S k) n
  = String (JS.digit_char ((n / 10 ^ Z.of_nat k) mod 10)) (last_digits k n).
Proof.
  change (S k) with (1 + k)%nat. rewrite last_digits_split.
  cbn [last_digits]. now rewrite append_nil_l, append_cons, append_nil_l.
Qed.

Lemma take_digits_last_digits (k : nat) (n acc : Z) (rest : string) :
  JSON.starts_with JSON.is_digit rest = false ->
  JSON.take_digits (last_digits k n ++ rest) acc
  = (acc * 10 ^ Z.of_nat k + n mod 10 ^ Z.of_nat k, rest).
Proof.
  intros Hr. revert acc. induction k as [|k IH]; intros acc.
  - cbn [last_digits]. rewrite append_nil_l. change (10 ^ Z.of_nat 0) with 1.
    rewrite Z.mod_1_r, Z.mul_1_r, Z.add_0_r.
    destruct rest as [|c r]; [ reflexivity | ].
    cbn in Hr. cbn [JSON.take_digits]. now rewrite Hr.
  - rewrite last_digits_front, append_cons. cbn [JSON.take_digits].
    pose proof (pow10_pos k) as Hp.
    pose proof (Z.mod_pos_bound (n / 10 ^ Z.of_nat k) 10 ltac:(lia)) as Hd.
    destruct (digit_char_facts _ Hd) as (-> & -> & _).
    rewrite IH. f_equal.
    replace (Z.of_nat (S k)) with (Z.succ (Z.of_nat k)) by lia.
    rewrite Z.pow_succ_r by lia.
    rewrite (Z.mul_comm 10 (10 ^ Z.of_nat k)).
    rewrite (Z.rem_mul_r n (10 ^ Z.of_nat k) 10) by lia.
    ring.
Qed.

Lemma delimited_cases (rest : string) :
  JSON.delimited rest = true ->
  JSON.starts_with JSON.is_digit rest = false /\
  JSON.starts_with JSON.is_fraction_mark rest = false.
Proof.
  unfold JSON.delimited. destruct rest as [|c r]; cbn; [ now split | ].
  destruct (JSON.is_digit c), (JSON.is_fraction_mark c); cbn; intros; now split.
Qed.

(** Reading the digits of a non-negative number. *)
Lemma parse_number_digits (n : Z) (rest : string) :
  0 <= n ->
  JSON.delimited rest = true ->
  exists c r,
    JS.digits n ++ rest = String c r /\
    Ascii.eqb c "-" = false /\ JSON.is_ws c = false /\
    JSON.is_digit c = true /\
    (Ascii.eqb c "0" = true -> n = 0 /\ r = rest) /\
    JSON.take_digits (String c r) 0 = (n, rest).
Proof.
  intros Hn Hr. destruct (delimited_cases rest Hr) as [Hd Hf].
  destruct (digits_last_digits n Hn) as (k & E & Hup & Hlow).
  pose proof (pow10_pos k) as Hp.
  assert (Hq : 0 <= n / 10 ^ Z.of_nat k < 10).
  { split; [ apply Z.div_pos; lia | ].
    apply Z.div_lt_upper_bound; [ lia | ].
    replace (Z.of_nat (S k)) with (Z.succ (Z.of_nat k)) in Hup by lia.
    rewrite Z.pow_succ_r in Hup by lia. lia. }
  exists (JS.digit_char ((n / 10 ^ Z.of_nat k) mod 10)), (last_digits k n ++ rest).
  rewrite Z.mod_small by exact Hq.
  destruct (digit_char_facts _ Hq) as (Hdig & Hval & Hminus & Hws & Hzero).
  split; [ | split; [ exact Hminus | split; [ exact Hws | split; [ exact Hdig | split ] ] ] ].
  - rewrite E, last_digits_front, append_cons. now rewrite Z.mod_small by exact Hq.
  - intros Hz. apply Hzero in Hz.
    destruct Hlow as [-> | Hlow].
    + change (10 ^ Z.of_nat 0) with 1 in Hz. rewrite Z.div_1_r in Hz.
      split; [ exact Hz | reflexivity ].
    + exfalso. assert (1 <= n / 10 ^ Z.of_nat k) by (apply Z.div_le_lower_bound; lia). lia.
  - replace (String (JS.digit_char (n / 10 ^ Z.of_nat k)) (last_digits k n ++ rest))
      with (last_digits (S k) n ++ rest)
      by (rewrite last_digits_front, append_cons; now rewrite Z.mod_small by exact Hq).
    rewrite take_digits_last_digits by exact Hd.
    now rewrite Z.mod_small by lia.
Qed.

Lemma parse_number_toString (n : Z) (rest : string) :
  JSON.delimited rest = true ->
  JSON.parse_number (JS.Number_toString n ++ rest) = Some (n, rest).
Proof.
  intros Hr. destruct (delimited_cases rest Hr) as [Hd Hf].
  unfold JS.Number_toString.
  destruct (Z.ltb_spec n 0) as [Hneg|Hpos].
  - destruct (parse_number_digits (- n) rest ltac:(lia) Hr)
      as (c & r & E & Hminus & Hws & Hdig & Hzero & Htake).
    rewrite append_cons, E. unfold JSON.parse_number.
    change (Ascii.eqb "-" "-") with true. cbv iota beta.
    destruct (Ascii.eqb c "0") eqn:Ez.
    + destruct (Hzero eq_refl) as [Hn0 ->]. lia.
    + rewrite Htake, Hdig. cbn [negb andb]. rewrite Hf. f_equal. f_equal. lia.
  - destruct (parse_number_digits n rest Hpos Hr)
      as (c & r & E & Hminus & Hws & Hdig & Hzero & Htake).
    rewrite E. unfold JSON.parse_number. rewrite Hminus.
    destruct (Ascii.eqb c "0") eqn:Ez.
    + destruct (Hzero eq_refl) as [-> ->].
      rewrite Hdig, Hd, Hf. reflexivity.
    + rewrite Htake, Hdig. cbn [negb andb]. now rewrite Hf.
Qed.

(** ** Values *)

Lemma value_induction (P : JSON.value -> Prop) :
  P JSON.Undefined -> P JSON.Null -> (forall b, P (JSON.Bool b)) ->
  (forall n, P (JSON.Num n)) -> (forall s, P (JSON.Str s)) ->
  (forall items, Forall P items -> P (JSON.Arr items)) ->
  (forall props, Forall (fun kx => P (snd kx)) props -> P (JSON.Obj props)) ->
  forall v, P v.
Proof.
  intros HU HN HB HNum HS HA HO. fix IH 1.
  intros [ | | b | n | s | items | props ].
  - exact HU.
  - exact HN.
  - apply HB.
  - apply HNum.
  - apply HS.
  - apply HA. induction items as [|x r IHr]; constructor; [ apply IH | exact IHr ].
  - apply HO. induction props as [|[k x] r IHr]; constructor; [ apply IH | exact IHr ].
Qed.

Lemma skip_ws_head (c : ascii) (r : string) :
  JSON.is_ws c = false -> JSON.skip_ws (String c r) = String c r.
Proof. intros H. cbn [JSON.skip_ws]. now rewrite H. Qed.

Lemma digit_is_number_head (c : ascii) :
  JSON.is_digit c = true \/ c = "-"%char -> number_head c.
Proof.
  intros [H | ->]; [ | now vm_compute ].
  destruct c as [[] [] [] [] [] [] [] []]; try discriminate H; now vm_compute.
Qed.

Lemma toString_head (n : Z) (rest : string) :
  exists c r, JS.Number_toString n ++ rest = String c r /\ number_head c.
Proof.
  unfold JS.Number_toString. destruct (Z.ltb_spec n 0) as [Hneg|Hpos].
  - rewrite append_cons. do 2 eexists. split; [ reflexivity | ].
    apply digit_is_number_head. now right.
  - destruct (digits_last_digits n Hpos) as (k & -> & _ & _).
    rewrite last_digits_front, append_cons. do 2 eexists. split; [ reflexivity | ].
    apply digit_is_number_head. left.
    apply digit_char_facts. apply Z.mod_pos_bound. lia.
Qed.

(** What a serialised value starts with: no white space and no closing
    bracket. *)
Lemma stringify_head (v : JSON.value) (text rest : string) :
  JSON.stringify v = Some text ->
  exists c r, text ++ rest = String c r /\
              JSON.is_ws c = false /\ Ascii.eqb c "]" = false.
Proof.
  destruct v as [ | | [|] | n | s | items | props ]; cbn [JSON.stringify];
    intros [= <-]; try (do 2 eexists; split; [ reflexivity | now vm_compute ]).
  destruct (toString_head n rest) as (c & r & -> & H).
  exists c, r. split; [ reflexivity | ]. unfold number_head in H. tauto.
Qed.

Lemma element_head (x : JSON.value) (rest : string) :
  exists c r, JSON.element (JSON.stringify x) ++ rest = String c r /\
              JSON.is_ws c = false /\ Ascii.eqb c "]" = false.
Proof.
  destruct (JSON.stringify x) as [t|] eqn:E.
  - now apply stringify_head with x.
  - do 2 eexists; split; [ reflexivity | now vm_compute ].
Qed.

Lemma reads_back_atoms :
  reads_back JSON.Null /\ (forall b, reads_back (JSON.Bool b)) /\
  (forall n, reads_back (JSON.Num n)) /\ (forall s, reads_back (JSON.Str s)).
Proof.
  unfold reads_back. repeat split.
  - intros _ text [= <-] [|f] rest Hf _; [ cbn in Hf; lia | reflexivity ].
  - intros b _ text [= <-] [|f] rest Hf _; [ cbn in Hf; lia | ].
    destruct b; reflexivity.
  - intros n _ text [= <-] [|f] rest Hf Hr; [ cbn in Hf; lia | ].
    destruct (toString_head n rest) as (c & r & E & Hws & H1 & H2 & H3 & H4 & H5 & H6 & _).
    cbn [JSON.parse_value JSON.strip]. rewrite E, (skip_ws_head c r Hws).
    rewrite H1, H2, H3, H4, H5, H6, <- E.
    now rewrite parse_number_toString.
  - intros s _ text [= <-] [|f] rest Hf _; [ cbn in Hf; lia | ].
    unfold JSON.quote. rewrite append_cons, append_assoc, append_cons, append_nil_l.
    cbn [JSON.parse_value JSON.strip].
    rewrite skip_ws_head by reflexivity.
    change (Ascii.eqb JSON.dquote "{") with false.
    change (Ascii.eqb JSON.dquote "[") with false.
    change (Ascii.eqb JSON.dquote JSON.dquote) with true.
    cbv iota. now rewrite parse_chars_escape.
Qed.

Ltac norm_append :=
  repeat (rewrite append_assoc || rewrite append_cons || rewrite append_nil_l).

Lemma element_reads_back (x : JSON.value) :
  reads_back x -> JSON.distinct_keys x ->
  forall (fuel : nat) (rest : string),
    (JSON.weight (JSON.strip_element JSON.strip x) <= fuel)%nat ->
    JSON.delimited rest = true ->
    JSON.parse_value fuel (JSON.element (JSON.stringify x) ++ rest)
    = Some (JSON.strip_element JSON.strip x, rest).
Proof.
  intros Hx Hk fuel rest Hf Hr.
  destruct x as [ | | b | n | s | items | props ];
    try (apply Hx; [ exact Hk | reflexivity | exact Hf | exact Hr ]).
  destruct fuel as [|f]; [ cbn in Hf; lia | reflexivity ].
Qed.

(** The elements of a non-empty array, up to its closing bracket. *)
Lemma parse_elements_join (items : list JSON.value) :
  Forall reads_back items ->
  Forall JSON.distinct_keys items ->
  items <> [] ->
  forall (fuel : nat) (acc : list JSON.value) (rest : string),
    (fold_right (fun x n => S (JSON.weight x + n)) O
       (map (JSON.strip_element JSON.strip) items) <= fuel)%nat ->
    JSON.parse_elements fuel
      (JSON.join "," (map (fun x => JSON.element (JSON.stringify x)) items)
       ++ String "]" rest) acc
    = Some (JSON.Arr (acc ++ map (JSON.strip_element JSON.strip) items), rest).
Proof.
  induction items as [|x r IH]; intros HP HK Hne fuel acc rest Hf; [ contradiction | ].
  inversion HP as [|? ? Hx HPr]; subst. inversion HK as [|? ? Hkx HKr]; subst.
  cbn [map fold_right] in Hf.
  destruct fuel as [|f]; [ lia | ].
  cbn [JSON.parse_elements].
  destruct r as [|y r'].
  - cbn [map JSON.join].
    rewrite (element_reads_back x Hx Hkx) by (try reflexivity; lia).
    rewrite skip_ws_head by reflexivity.
    reflexivity.
  - change (JSON.join "," (map (fun x0 => JSON.element (JSON.stringify x0)) (x :: y :: r')))
      with (JSON.element (JSON.stringify x) ++ ","
            ++ JSON.join "," (map (fun x0 => JSON.element (JSON.stringify x0)) (y :: r'))).
    rewrite !append_assoc, append_cons, append_nil_l.
    rewrite (element_reads_back x Hx Hkx) by (try reflexivity; lia).
    rewrite skip_ws_head by reflexivity.
    change (Ascii.eqb "," ",") with true. cbv iota.
    rewrite IH; [ | exact HPr | exact HKr | discriminate | lia ].
    cbn [map]. now rewrite <- app_assoc.
Qed.

Lemma define_fresh (acc : list (string * JSON.value)) (k : string) (v : JSON.value) :
  ~ In k (map fst acc) -> JSON.define acc k v = (acc ++ [(k, v)])%list.
Proof.
  induction acc as [|[k' x] acc IH]; intros Hk; [ reflexivity | ].
  cbn [JSON.define]. cbn [map fst In] in Hk.
  destruct (String.eqb_spec k' k) as [E|E]; [ tauto | ].
  cbn [app]. rewrite IH by tauto. reflexivity.
Qed.

Lemma quote_append (k tail : string) :
  JSON.quote k ++ tail = String JSON.dquote (JSON.escape k ++ String JSON.dquote tail).
Proof.
  unfold JSON.quote. now rewrite append_cons, append_assoc, append_cons, append_nil_l.
Qed.

Lemma stringify_defined (x : JSON.value) :
  x <> JSON.Undefined -> exists t, JSON.stringify x = Some t.
Proof. destruct x; intros H; try contradiction; cbn [JSON.stringify]; eauto. Qed.

Lemma members_cons (k : string) (x : JSON.value) (r : list (string * JSON.value)) :
  JSON.members JSON.stringify ((k, x) :: r)
  = match JSON.stringify x with
    | Some t => (JSON.quote k ++ ":" ++ t) :: JSON.members JSON.stringify r
    | None => JSON.members JSON.stringify r
    end.
Proof. reflexivity. Qed.

Lemma strip_props_cons (k : string) (x : JSON.value) (r : list (string * JSON.value)) :
  JSON.strip_props JSON.strip ((k, x) :: r)
  = match JSON.stringify x with
    | Some _ => (k, JSON.strip x) :: JSON.strip_props JSON.strip r
    | None => JSON.strip_props JSON.strip r
    end.
Proof. destruct x; reflexivity. Qed.

Lemma members_nil_strip (props : list (string * JSON.value)) :
  JSON.members JSON.stringify props = [] -> JSON.strip_props JSON.strip props = [].
Proof.
  induction props as [|[k x] r IH]; [ reflexivity | ].
  rewrite members_cons, strip_props_cons.
  destruct (JSON.stringify x); [ discriminate | exact IH ].
Qed.

Lemma members_head (props : list (string * JSON.value)) (tail : string) :
  JSON.members JSON.stringify props <> [] ->
  exists r, JSON.join "," (JSON.members JSON.stringify props) ++ tail
            = String JSON.dquote r.
Proof.
  destruct (JSON.members JSON.stringify props) as [|m ms] eqn:E; [ contradiction | ].
  intros _. revert m ms E.
  induction props as [|[k x] r IH]; intros m ms E; [ discriminate E | ].
  rewrite members_cons in E. destruct (JSON.stringify x) as [t|].
  - injection E as <- <-.
    destruct (JSON.members JSON.stringify r) as [|m2 ms2].
    + cbn [JSON.join]. rewrite append_assoc, quote_append. eauto.
    + change (JSON.join "," ((JSON.quote k ++ ":" ++ t) :: m2 :: ms2))
        with ((JSON.quote k ++ ":" ++ t) ++ "," ++ JSON.join "," (m2 :: ms2)).
      rewrite !append_assoc, quote_append. eauto.
  - now apply IH.
Qed.

(** The members of a non-empty object, up to its closing brace. *)
Lemma parse_members_join (props : list (string * JSON.value)) :
  Forall (fun kx => reads_back (snd kx)) props ->
  Forall (fun kx => JSON.distinct_keys (snd kx)) props ->
  forall (fuel : nat) (acc : list (string * JSON.value)) (rest : string),
    JSON.members JSON.stringify props <> [] ->
    List.NoDup (map fst acc ++ map fst props) ->
    (fold_right (fun kx n => S (JSON.weight (snd kx) + n)) O
       (JSON.strip_props JSON.strip props) <= fuel)%nat ->
    JSON.parse_members fuel
      (JSON.join "," (JSON.members JSON.stringify props) ++ String "}" rest) acc
    = Some (JSON.Obj (acc ++ JSON.strip_props JSON.strip props), rest).
Proof.
  induction props as [|[k x] r IH]; intros HP HK fuel acc rest Hne Hnd Hf;
    [ contradiction | ].
  inversion HP as [|? ? Hx HPr]; subst. inversion HK as [|? ? Hkx HKr]; subst.
  cbn [snd] in Hx, Hkx. cbn [map fst] in Hnd.
  rewrite members_cons in Hne |- *. rewrite strip_props_cons in Hf |- *.
  destruct (JSON.stringify x) as [t|] eqn:Et.
  2:{ apply IH; try assumption. now apply NoDup_remove_1 in Hnd. }
  cbn [fold_right snd] in Hf.
  destruct fuel as [|f]; [ lia | ].
  assert (Hk : ~ In k (map fst acc)).
  { apply NoDup_remove_2 in Hnd. intros C. apply Hnd. apply in_or_app. now left. }
  assert (Hval : forall tail, JSON.delimited tail = true ->
            JSON.parse_value f (t ++ tail) = Some (JSON.strip x, tail)).
  { intros tail Ht. apply Hx; [ exact Hkx | exact Et | lia | exact Ht ]. }
  destruct (JSON.members JSON.stringify r) as [|m2 ms2] eqn:Em.
  - cbn [JSON.join]. rewrite append_assoc, quote_append.
    cbn [JSON.parse_members].
    rewrite skip_ws_head by reflexivity.
    change (Ascii.eqb JSON.dquote JSON.dquote) with true. cbv iota.
    rewrite parse_chars_escape. norm_append.
    rewrite skip_ws_head by reflexivity.
    change (Ascii.eqb ":" ":") with true. cbv iota.
    rewrite Hval by reflexivity.
    rewrite skip_ws_head by reflexivity.
    change (Ascii.eqb "}" ",") with false. change (Ascii.eqb "}" "}") with true.
    cbv iota. rewrite define_fresh by exact Hk.
    rewrite (members_nil_strip r Em). reflexivity.
  - change (JSON.join "," ((JSON.quote k ++ ":" ++ t) :: m2 :: ms2))
      with ((JSON.quote k ++ ":" ++ t) ++ "," ++ JSON.join "," (m2 :: ms2)).
    rewrite !append_assoc, quote_append.
    cbn [JSON.parse_members].
    rewrite skip_ws_head by reflexivity.
    change (Ascii.eqb JSON.dquote JSON.dquote) with true. cbv iota.
    rewrite parse_chars_escape. norm_append.
    rewrite skip_ws_head by reflexivity.
    change (Ascii.eqb ":" ":") with true. cbv iota.
    rewrite Hval by reflexivity.
    rewrite skip_ws_head by reflexivity.
    change (Ascii.eqb "," ",") with true. cbv iota.
    rewrite define_fresh by exact Hk.
    rewrite IH; try assumption.
    + now rewrite <- app_assoc.
    + discriminate.
    + rewrite map_app, <- app_assoc. exact Hnd.
    + lia.
Qed.

Lemma distinct_keys_Arr (items : list JSON.value) :
  JSON.distinct_keys (JSON.Arr items) -> Forall JSON.distinct_keys items.
Proof.
  cbn [JSON.distinct_keys].
  induction items as [|x r IH]; intros H; constructor; [ apply H | apply IH, H ].
Qed.

Lemma distinct_keys_Obj (props : list (string * JSON.value)) :
  JSON.distinct_keys (JSON.Obj props) ->
  List.NoDup (map fst props) /\
  Forall (fun kx => JSON.distinct_keys (snd kx)) props.
Proof.
  cbn [JSON.distinct_keys]. intros [Hnd H]. split; [ exact Hnd | ]. clear Hnd.
  induction props as [|[k x] r IH]; constructor; [ apply H | apply IH, H ].
Qed.

Lemma join_head (a : string) (l : list string) (tail : string) :
  exists tail', JSON.join "," (a :: l) ++ tail = a ++ tail'.
Proof.
  destruct l as [|b l]; [ now exists tail | ].
  change (JSON.join "," (a :: b :: l)) with (a ++ "," ++ JSON.join "," (b :: l)).
  rewrite append_assoc. eauto.
Qed.

(** Every value with distinct keys is read back from its serialisation,
    whatever follows it. *)
Lemma stringify_reads_back (v : JSON.value) : reads_back v.
Proof.
  induction v as [ | | b | n | s | items IH | props IH ] using value_induction;
    try apply reads_back_atoms.
  - intros _ text [=].
  - intros Hk text [= <-] fuel rest Hf Hr.
    apply distinct_keys_Arr in Hk.
    cbn [JSON.strip JSON.weight] in Hf |- *.
    destruct fuel as [|f]; [ lia | ].
    norm_append. cbn [JSON.parse_value].
    rewrite skip_ws_head by reflexivity.
    change (Ascii.eqb "[" "{") with false. change (Ascii.eqb "[" "[") with true.
    cbv iota.
    destruct items as [|x r].
    + cbn [map JSON.join]. norm_append. now rewrite skip_ws_head by reflexivity.
    + destruct (join_head (JSON.element (JSON.stringify x))
                  (map (fun x0 => JSON.element (JSON.stringify x0)) r)
                  (String "]" rest)) as [tail E].
      destruct (element_head x tail) as (c & r0 & E' & Hws & Hb).
      change (map (fun x0 => JSON.element (JSON.stringify x0)) (x :: r))
        with (JSON.element (JSON.stringify x)
              :: map (fun x0 => JSON.element (JSON.stringify x0)) r).
      rewrite E, E', (skip_ws_head c r0 Hws), Hb, <- E', <- E.
      apply (parse_elements_join (x :: r) IH Hk); [ discriminate | lia ].
  - intros Hk text [= <-] fuel rest Hf Hr.
    apply distinct_keys_Obj in Hk. destruct Hk as [Hnd Hk].
    cbn [JSON.strip JSON.weight] in Hf |- *.
    destruct fuel as [|f]; [ lia | ].
    norm_append. cbn [JSON.parse_value].
    rewrite skip_ws_head by reflexivity.
    change (Ascii.eqb "{" "{") with true. cbv iota.
    destruct (JSON.members JSON.stringify props) as [|m ms] eqn:Em.
    + rewrite (members_nil_strip props Em).
      cbn [JSON.join]. norm_append. now rewrite skip_ws_head by reflexivity.
    + rewrite <- Em.
      destruct (members_head props (String "}" rest)) as [r0 E];
        [ rewrite Em; discriminate | ].
      rewrite E, skip_ws_head by reflexivity.
      change (Ascii.eqb JSON.dquote "}") with false. cbv iota.
      rewrite <- E.
      apply (parse_members_join props IH Hk);
        [ rewrite Em; discriminate | exact Hnd | lia ].
Qed.

(** ** Fuel *)

Lemma length_join_cons (a b : string) (l : list string) :
  String.length (JSON.join "," (a :: b :: l))
  = (String.length a + S (String.length (JSON.join "," (b :: l))))%nat.
Proof.
  change (JSON.join "," (a :: b :: l)) with (a ++ "," ++ JSON.join "," (b :: l)).
  now rewrite length_append, append_cons, append_nil_l.
Qed.

Lemma weight_elements_le (items : list JSON.value) :
  Forall (fun x => forall text, JSON.stringify x = Some text ->
                   (JSON.weight (JSON.strip x) <= String.length text)%nat) items ->
  (fold_right (fun x n => S (JSON.weight x + n)) O
     (map (JSON.strip_element JSON.strip) items)
   <= S (String.length
           (JSON.join "," (map (fun x => JSON.element (JSON.stringify x)) items))))%nat.
Proof.
  induction items as [|x r IH]; intros H; [ cbn; lia | ].
  inversion H as [|? ? Hx Hr]; subst. specialize (IH Hr).
  assert (Hw : (JSON.weight (JSON.strip_element JSON.strip x)
                <= String.length (JSON.element (JSON.stringify x)))%nat).
  { destruct x; try (apply Hx; reflexivity). cbn. lia. }
  cbn [map fold_right]. destruct r as [|y r'].
  - cbn [map fold_right JSON.join]. lia.
  - cbn [map] in IH |- *. rewrite length_join_cons. cbn [fold_right] in IH |- *. lia.
Qed.

Lemma length_quote (k : string) : (2 <= String.length (JSON.quote k))%nat.
Proof.
  unfold JSON.quote. cbn [String.length]. rewrite length_append. cbn [String.length]. lia.
Qed.

Lemma weight_members_le (props : list (string * JSON.value)) :
  Forall (fun kx => forall text, JSON.stringify (snd kx) = Some text ->
                    (JSON.weight (JSON.strip (snd kx)) <= String.length text)%nat) props ->
  (fold_right (fun kx n => S (JSON.weight (snd kx) + n)) O
     (JSON.strip_props JSON.strip props)
   <= S (String.length (JSON.join "," (JSON.members JSON.stringify props))))%nat.
Proof.
  induction props as [|[k x] r IH]; intros H; [ cbn; lia | ].
  inversion H as [|? ? Hx Hr]; subst. specialize (IH Hr). cbn [snd] in Hx.
  rewrite members_cons, strip_props_cons.
  destruct (JSON.stringify x) as [t|] eqn:Et; [ | exact IH ].
  specialize (Hx t eq_refl). pose proof (length_quote k) as Hq.
  cbn [fold_right snd].
  destruct (JSON.members JSON.stringify r) as [|m ms].
  - cbn [JSON.join] in IH |- *. rewrite !length_append. cbn [String.length] in IH |- *. lia.
  - rewrite length_join_cons, !length_append. cbn [String.length]. lia.
Qed.

Lemma weight_le_length (v : JSON.value) (text : string) :
  JSON.stringify v = Some text ->
  (JSON.weight (JSON.strip v) <= String.length text)%nat.
Proof.
  revert text.
  induction v as [ | | b | n | s | items IH | props IH ] using value_induction;
    intros text; cbn [JSON.stringify]; intros [= <-].
  - cbn. lia.
  - destruct b; cbn; lia.
  - destruct (toString_head n "") as (c & r & E & _).
    rewrite append_nil_r in E. rewrite E. cbn. lia.
  - pose proof (length_quote s). cbn [JSON.strip JSON.weight]. lia.
  - pose proof (weight_elements_le items IH).
    cbn [JSON.strip JSON.weight]. rewrite append_cons, append_nil_l.
    cbn [String.length]. rewrite length_append. cbn [String.length]. lia.
  - pose proof (weight_members_le props IH).
    cbn [JSON.strip JSON.weight]. rewrite append_cons, append_nil_l.
    cbn [String.length]. rewrite length_append. cbn [String.length]. lia.
Qed.

(** [JSON.parse (JSON.stringify v)] is [v] without its [undefined]s. *)
Lemma parse_stringify (v : JSON.value) (text : string) :
  JSON.distinct_keys v ->
  JSON.stringify v = Some text ->
  JSON.parse text = Some (JSON.strip v).
Proof.
  intros Hk Hs. unfold JSON.parse.
  rewrite <- (append_nil_r text) at 2.
  rewrite (stringify_reads_back v Hk text Hs); [ reflexivity | | reflexivity ].
  pose proof (weight_le_length v text Hs). lia.
Qed.

(** ** Reading the properties back *)

Lemma prop_strip_props_absent (props : list (string * JSON.value)) (k : string) :
  ~ In k (map fst props) -> JS.prop (JSON.strip_props JSON.strip props) k = None.
Proof.
  induction props as [|[k' x] r IH]; intros Hk; [ reflexivity | ].
  cbn [map fst In] in Hk. rewrite strip_props_cons.
  destruct (JSON.stringify x); [ | apply IH; tauto ].
  cbn [JS.prop]. destruct (String.eqb_spec k' k); [ tauto | apply IH; tauto ].
Qed.

(** Reading a property of the parsed object: what the property held,
    parsed back in turn. *)
Lemma get_strip (props : list (string * JSON.value)) (k : string) :
  List.NoDup (map fst props) ->
  JSON.get (JSON.strip (JSON.Obj props)) k = JSON.strip (JSON.get (JSON.Obj props) k).
Proof.
  cbn [JSON.strip JSON.get]. induction props as [|[k' x] r IH]; intros Hnd;
    [ reflexivity | ].
  cbn [map fst] in Hnd. inversion Hnd as [|? ? Hk Hr]; subst.
  rewrite strip_props_cons. cbn [JS.prop].
  destruct (JSON.stringify x) as [t|] eqn:Et.
  - cbn [JS.prop]. destruct (String.eqb_spec k' k); [ reflexivity | now apply IH ].
  - destruct x; try discriminate Et.
    destruct (String.eqb_spec k' k) as [<-|]; [ | now apply IH ].
    now rewrite prop_strip_props_absent.
Qed.

(** ** The ticket payload *)

Lemma ticketData_value_distinct (d : TicketData) :
  JSON.distinct_keys (ticketData_value d).
Proof.
  unfold ticketData_value. cbn [JSON.distinct_keys map fst].
  split.
  - repeat (constructor; [ cbn [In]; intuition discriminate | ]). constructor.
  - repeat split.
    + repeat (constructor; [ cbn [In]; intuition discriminate | ]). constructor.
    + destruct (distanceKm d); exact I.
Qed.

(** No property of a payload changes when read back: strings, integers, the
    route object and [undefined]. *)
Lemma ticketData_value_flat (d : TicketData) (k : string) :
  JSON.strip (JSON.get (ticketData_value d) k) = JSON.get (ticketData_value d) k.
Proof.
  unfold ticketData_value. cbn [JSON.get JS.prop].
  repeat match goal with
         | |- context [String.eqb ?a k] => destruct (String.eqb a k)
         end;
    try reflexivity.
  destruct (distanceKm d); reflexivity.
Qed.

(** The one difference a round trip makes: [distanceKm], which the payload
    holds as [undefined], is no property of the text and of the parsed
    object any more (and still reads [undefined]). *)
Lemma distanceKm_left_out (d : TicketData) :
  distanceKm d = None ->
  JS.prop (JSON.strip_props JSON.strip
             (match ticketData_value d with
              | JSON.Obj props => props
              | _ => []
              end)) "distanceKm" = None /\
  JSON.get (ticketData_value d) "distanceKm" = JSON.Undefined.
Proof.
  intros H. unfold ticketData_value. rewrite H. split; reflexivity.
Qed.

(** A parsed object that reads like the payload on every property stands
    for the payload. *)
Lemma read_ticket_of_reads (d : TicketData) (v : JSON.value) :
  (forall k, JSON.get v k = JSON.get (ticketData_value d) k) ->
  read_ticket v = Some d.
Proof.
  intros H. unfold read_ticket, get_string, get_integer, get_optional_integer.
  rewrite !H.
  destruct d as [a b c e f g h [o dst] i j k km l m n q r t u].
  destruct km; reflexivity.
Qed.

(** C4: the payload of a successful submission is stored in the session
    store under [booking_<bookingId>] as its JSON text (when the store takes
    it); parsing that text gives an object on which every property reads as
    it does on the payload, the computed price, taxes and total included,
    and the record read off that object is the payload itself. *)
Theorem stored_ticket_reads_back (host : Host) (p : Page) (d : TicketData) :
  submitted host p d ->
  storage_accepts host = true ->
  exists text v,
    sessionStorage (page_of (submit host p)) !! ("booking_" ++ bookingId d) = Some text /\
    JSON.stringify (ticketData_value d) = Some text /\
    JSON.parse text = Some v /\
    (forall k, JSON.get v k = JSON.get (ticketData_value d) k) /\
    JSON.get v "price" = JSON.Num (price d) /\
    JSON.get v "taxes" = JSON.Num (taxes d) /\
    JSON.get v "total" = JSON.Num (total d) /\
    read_ticket v = Some d.
Proof.
  intros H Hs. rewrite (submitted_page host p d H).
  cbn [booked_page sessionStorage]. rewrite Hs.
  destruct (JSON.stringify (ticketData_value d)) as [text|] eqn:Et;
    [ | discriminate Et ].
  exists text, (JSON.strip (ticketData_value d)).
  assert (Hget : forall k, JSON.get (JSON.strip (ticketData_value d)) k
                           = JSON.get (ticketData_value d) k).
  { intros k. rewrite <- ticketData_value_flat.
    apply get_strip. apply (distinct_keys_Obj _ (ticketData_value_distinct d)). }
  repeat split.
  - unfold JSON_stringify. rewrite Et. apply lookup_insert_eq.
  - apply parse_stringify; [ apply ticketData_value_distinct | exact Et ].
  - exact Hget.
  - now rewrite Hget.
  - now rewrite Hget.
  - now rewrite Hget.
  - now apply read_ticket_of_reads.
Qed.

Lemma stored_ticket_reads_back_witness :
  submitted sample_host (fresh_page flight_form) flight_ticket /\
  storage_accepts sample_host = true /\
  exists text v,
    sessionStorage (page_of (submit sample_host (fresh_page flight_form)))
      !! ("booking_" ++ bookingId flight_ticket) = Some text /\
    JSON.parse text = Some v /\
    JSON.get v "total" = JSON.Num 73500 /\
    read_ticket v = Some flight_ticket.
Proof.
  split; [ exact flight_form_submitted | ]. split; [ reflexivity | ].
  destruct (stored_ticket_reads_back sample_host (fresh_page flight_form) flight_ticket
              flight_form_submitted eq_refl)
    as (text & v & H1 & _ & H2 & _ & _ & _ & H3 & H4).
  exists text, v. repeat split; assumption.
Defined.

(* ===================================================================== *)
(** * Durations *)
(* ===================================================================== *)

Lemma binary_round_aux_signed (s : bool) (mx ex : Z) (lx : location) :
  signed s (binary_round_aux JS.prec JS.emax s mx ex lx).
Proof.
  unfold binary_round_aux.
  destruct (shr_fexp JS.prec JS.emax mx ex lx) as [mrs e'].
  destruct (shr_fexp JS.prec JS.emax _ e' loc_Exact) as [mrs2 e2].
  destruct (shr_m mrs2) as [|m|m]; [ reflexivity | | exact I ].
  destruct (Z.leb e2 (Z.sub JS.emax JS.prec)); reflexivity.
Qed.

Lemma Number_of_Z_signed (n : Z) : n <= 0 -> signed (n <? 0) (JS.Number_of_Z n).
Proof.
  intros H. unfold JS.Number_of_Z, binary_normalize.
  destruct n as [|m|m]; [ reflexivity | lia | ].
  unfold binary_round.
  destruct (shl_align m 0 _) as [mz ez]. apply binary_round_aux_signed.
Qed.

(** Dividing by a positive finite Number keeps the sign. *)
Lemma Number_div_signed (s : bool) (x : spec_float) (m : positive) (e : Z) :
  signed s x -> signed s (JS.Number_div x (S754_finite false m e)).
Proof.
  unfold JS.Number_div, SFdiv.
  destruct x as [sx|sx| |sx mx ex]; cbn [signed]; intros H; try exact I;
    try (now rewrite <- H, xorb_false_r).
  destruct (SFdiv_core_binary JS.prec JS.emax (Z.pos mx) ex (Z.pos m) e) as [[mz ez] lz].
  rewrite xorb_false_r, H. apply binary_round_aux_signed.
Qed.

(** [Math.round] of a Number that is not positive is not positive. *)
Lemma Math_round_signed (s : bool) (x : spec_float) :
  signed s x -> (s = true \/ exists z, x = S754_zero z) -> JS.Math_round x <= 0.
Proof.
  destruct x as [sx|sx| |sx m e]; cbn [signed JS.Math_round]; intros H Hs; try lia.
  destruct Hs as [Hs|[z Hz]]; [ subst s sx | discriminate Hz ].
  destruct (Z.leb_spec 0 e) as [He|He].
  - assert (0 < 2 ^ e) by (apply Z.pow_pos_nonneg; lia). nia.
  - assert (Hp : 0 < 2 ^ (- e)) by (apply Z.pow_pos_nonneg; lia).
    assert (Hq : 2 ^ (1 - e) = 2 * 2 ^ (- e)).
    { replace (1 - e) with (Z.succ (- e)) by lia. apply Z.pow_succ_r. lia. }
    assert (2 * Z.neg m + 2 ^ (- e) < 2 ^ (1 - e) * 1) by lia.
    assert ((2 * Z.neg m + 2 ^ (- e)) / 2 ^ (1 - e) < 1)
      by (apply Z.div_lt_upper_bound; lia).
    lia.
Qed.

Lemma minutes_not_positive (d : Z) :
  d <= 0 ->
  JS.Math_round (JS.Number_div (JS.Number_of_Z d) (JS.Number_of_Z (1000 * 60))) <= 0.
Proof.
  intros H.
  change (JS.Number_of_Z (1000 * 60)) with (S754_finite false 8246337208320000 (-37)).
  pose proof (Number_of_Z_signed d H) as Hs.
  apply (Number_div_signed _ _ 8246337208320000 (-37)) in Hs.
  apply (Math_round_signed _ _ Hs).
  destruct (Z.ltb_spec d 0) as [Hneg|Hpos]; [ now left | right ].
  assert (d = 0) by lia. subst d. now exists false.
Qed.

(** X1: a duration is shown only for two valid dates whose arrival is
    strictly later than the departure; it is then a whole number of hours
    and of minutes below 60, not both zero.  In every other case (a missing
    or invalid date, an arrival at or before the departure) the duration is
    empty. *)
Theorem duration_only_for_later_arrival (host : Host) (startIso endIso : string) :
  TicketRenderer.computeDuration host startIso endIso = "" \/
  exists ts te mins,
    startIso <> "" /\ endIso <> "" /\
    Date_parse host startIso = Some ts /\
    Date_parse host endIso = Some te /\
    ts < te /\
    0 < mins /\ 0 <= mins / 60 /\ 0 <= mins mod 60 < 60 /\
    TicketRenderer.computeDuration host startIso endIso
    = JS.Number_toString (mins / 60) ++ "h " ++ JS.Number_toString (mins mod 60) ++ "m".
Proof.
  unfold TicketRenderer.computeDuration.
  destruct (JS.truthy startIso) eqn:Es; [ | now left ].
  destruct (JS.truthy endIso) eqn:Ee; [ | now left ].
  cbn [negb orb].
  destruct (Date_parse host endIso) as [te|]; [ | now left ].
  destruct (Date_parse host startIso) as [ts|]; [ | now left ].
  cbv zeta.
  set (mins := JS.Math_round _).
  destruct (Z.leb_spec mins 0) as [Hle|Hgt]; [ now left | right ].
  exists ts, te, mins.
  assert (Hlt : ts < te).
  { destruct (Z.lt_ge_cases ts te) as [H|H]; [ exact H | exfalso ].
    pose proof (minutes_not_positive (te - ts) ltac:(lia)). subst mins. lia. }
  repeat split; try assumption.
  - intros ->. discriminate Es.
  - intros ->. discriminate Ee.
  - apply Z.div_pos; lia.
  - apply Z.mod_pos_bound. lia.
  - apply Z.mod_pos_bound. lia.
Qed.

(** In the sample browser a flight from 08:00 to 14:45 lasts 6h 45m. *)
Lemma duration_only_for_later_arrival_witness :
  TicketRenderer.computeDuration sample_host
    "2025-04-01T05:00:00.000Z" "2025-04-01T11:45:00.000Z" = "6h 45m" /\
  TicketRenderer.computeDuration sample_host
    "2025-04-01T11:45:00.000Z" "2025-04-01T05:00:00.000Z" = "".
Proof.
  destruct (duration_only_for_later_arrival sample_host
              "2025-04-01T11:45:00.000Z" "2025-04-01T05:00:00.000Z")
    as [E | (ts & te & mins & _ & _ & Hs & He & Hlt & _)].
  - split; [ reflexivity | exact E ].
  - exfalso. vm_compute in Hs, He. injection Hs as <-. injection He as <-. lia.
Defined.

(* ===================================================================== *)
(** * The rendered ticket *)
(* ===================================================================== *)

Lemma or_else_not_empty (a b : string) : b <> "" -> JS.or_else a b <> "".
Proof.
  intros Hb. unfold JS.or_else. destruct (JS.truthy a) eqn:E; [ | exact Hb ].
  intros ->. discriminate E.
Qed.

Lemma or_else_truthy (a b : string) : a <> "" -> JS.or_else a b = a.
Proof.
  intros Ha. unfold JS.or_else. destruct (JS.truthy a) eqn:E; [ reflexivity | ].
  apply truthy_empty_iff in E. contradiction.
Qed.

(** X2: whatever the payload holds, the ticket has no empty slot for the
    booking reference, the passenger, the route, the trip header, the class,
    the arrival, the duration and the notes: an empty field is replaced by
    its placeholder. *)
Theorem rendered_slots_never_empty (host : Host) (d : TicketData) :
  let html := TicketRenderer.buildHtml host d in
  html_booking html <> "" /\ html_passenger html <> "" /\
  html_origin html <> "" /\ html_destination html <> "" /\
  html_transportType html <> "" /\ html_provider html <> "" /\
  html_badge html <> "" /\ html_seatClass html <> "" /\
  html_duration html <> "" /\ html_notes html <> "" /\
  (arriveDateTime d = "" -> html_arrive html = "TBA") /\
  (departDateTime d = "" -> html_depart html = "TBA").
Proof.
  cbn [TicketRenderer.buildHtml html_booking html_passenger html_origin
       html_destination html_transportType html_provider html_badge
       html_seatClass html_duration html_notes html_arrive html_depart].
  repeat split; try (apply or_else_not_empty; discriminate).
  - now intros ->.
  - intros ->. reflexivity.
Qed.

Lemma new_bookingId_not_empty (c : Clock) : new_bookingId c <> "".
Proof. unfold new_bookingId. discriminate. Qed.

(** X3: the ticket of a successful submission shows, besides the booking id
    as reference, the trimmed passenger name and contacts, the route with its
    defaults, and as amounts the host's formatting of the resolved price, of
    its rounded five percent and of their sum. *)
Theorem rendered_ticket_of_booking (host : Host) (p : Page) (d : TicketData) :
  submitted host p d ->
  exists html,
    ticketContainer (page_of (submit host p)) = Some html /\
    html_booking html = bookingId d /\
    html_ref html = Some (bookingId d) /\
    html_passenger html = JS.trim (passengerNameEl (form p)) /\
    html_phone html = JS.trim (phoneEl (form p)) /\
    html_email html = JS.trim (emailEl (form p)) /\
    html_origin html = JS.or_else (originEl (form p)) "Nairobi" /\
    html_destination html = JS.or_else (destinationEl (form p)) "TBA" /\
    html_price html = formatKES host (getPrice (form p)) /\
    html_taxes html = formatKES host (five_percent (getPrice (form p))) /\
    html_total html
    = formatKES host (getPrice (form p) + five_percent (getPrice (form p))).
Proof.
  intros H. rewrite (submitted_page host p d H).
  destruct (submitted_inv host p d H) as (Hv & _ & _ & dep & arr & _ & _ & ->).
  eexists. split; [ reflexivity | ].
  destruct (tax_of_matrix_price _ (getPrice_in_matrix (form p))) as [_ Htax].
  rewrite required_missing_spec in Hv.
  apply orb_false_iff in Hv. destruct Hv as [Hv _].
  apply orb_false_iff in Hv. destruct Hv as [Hv _].
  apply orb_false_iff in Hv. destruct Hv as [Hname _].
  assert (Hn : JS.trim (passengerNameEl (form p)) <> "").
  { intros E. apply trim_empty_iff in E. congruence. }
  cbn [TicketRenderer.buildHtml ticketData bookingId passengerName contactPhone
       contactEmail route origin destination price taxes total
       html_booking html_ref html_passenger html_phone html_email html_origin
       html_destination html_price html_taxes html_total TicketRenderer.fmtKES].
  rewrite Htax.
  rewrite (or_else_truthy (new_bookingId (now host))) by apply new_bookingId_not_empty.
  rewrite (or_else_truthy (JS.trim (passengerNameEl (form p)))) by exact Hn.
  assert (Ho : JS.or_else (originEl (form p)) "Nairobi" <> "")
    by (apply or_else_not_empty; discriminate).
  assert (Hd : JS.or_else (destinationEl (form p)) "TBA" <> "")
    by (apply or_else_not_empty; discriminate).
  rewrite (or_else_truthy _ "Origin" Ho), (or_else_truthy _ "Destination" Hd).
  repeat split.
Qed.

Lemma rendered_ticket_of_booking_witness :
  submitted sample_host (fresh_page flight_form) flight_ticket /\
  exists html,
    ticketContainer (page_of (submit sample_host (fresh_page flight_form))) = Some html /\
    html_passenger html = "Amina Otieno" /\
    html_total html = "KES 73500".
Proof.
  split; [ exact flight_form_submitted | ].
  destruct (rendered_ticket_of_booking sample_host (fresh_page flight_form)
              flight_ticket flight_form_submitted)
    as (html & H1 & _ & _ & H2 & _ & _ & _ & _ & _ & _ & H3).
  exists html. repeat split; assumption.
Defined.

(* ===================================================================== *)
(** * Exports of a rendered ticket *)
(* ===================================================================== *)

Lemma spaceless_append (a b : string) :
  spaceless (a ++ b) = spaceless a && spaceless b.
Proof.
  induction a as [|c a IH]; [ reflexivity | ].
  rewrite append_cons. cbn [spaceless]. rewrite IH. apply andb_assoc.
Qed.

Lemma spaceless_substring (n m : nat) (s : string) :
  spaceless s = true -> spaceless (substring n m s) = true.
Proof.
  revert n m. induction s as [|c s IH]; intros n m H.
  - destruct n, m; reflexivity.
  - cbn [spaceless] in H. apply andb_true_iff in H. destruct H as [Hc Hs].
    destruct n as [|n]; destruct m as [|m]; cbn [substring]; try reflexivity.
    + cbn [spaceless]. rewrite Hc. apply (IH 0%nat m Hs).
    + apply (IH n 0%nat Hs).
    + apply (IH n (S m) Hs).
Qed.

Lemma digit_char_not_space (n : Z) : JS.is_space (JS.digit_char (n mod 10)) = false.
Proof.
  assert (H : 0 <= n mod 10 < 10) by (apply Z.mod_pos_bound; lia).
  assert (C : n mod 10 = 0 \/ n mod 10 = 1 \/ n mod 10 = 2 \/ n mod 10 = 3 \/
              n mod 10 = 4 \/ n mod 10 = 5 \/ n mod 10 = 6 \/ n mod 10 = 7 \/
              n mod 10 = 8 \/ n mod 10 = 9) by lia.
  repeat (destruct C as [-> | C]; [ reflexivity | ]). now rewrite C.
Qed.

Lemma spaceless_digits_acc (fuel : nat) (n : Z) (acc : string) :
  spaceless acc = true -> spaceless (JS.digits_acc fuel n acc) = true.
Proof.
  revert n acc. induction fuel as [|f IH]; intros n acc H; [ exact H | ].
  cbn [JS.digits_acc].
  assert (H' : spaceless (String (JS.digit_char (n mod 10)) acc) = true).
  { cbn [spaceless]. now rewrite digit_char_not_space. }
  destruct (n <? 10); [ exact H' | now apply IH ].
Qed.

Lemma spaceless_toString (n : Z) : spaceless (JS.Number_toString n) = true.
Proof.
  unfold JS.Number_toString, JS.digits.
  destruct (n <? 0); [ cbn [spaceless]; rewrite spaceless_digits_acc; reflexivity | ].
  now apply spaceless_digits_acc.
Qed.

Lemma spaceless_repeat_0 (n : nat) : spaceless (JS.repeat_char "0" n) = true.
Proof. induction n as [|n IH]; [ reflexivity | exact IH ]. Qed.

Lemma spaceless_new_bookingId (c : Clock) : spaceless (new_bookingId c) = true.
Proof.
  unfold new_bookingId, JS.padStart, JS.slice_last.
  rewrite !spaceless_append, !spaceless_toString, !spaceless_repeat_0.
  rewrite spaceless_substring by apply spaceless_toString. reflexivity.
Qed.

Lemma replace_runs_spaceless (r s : string) :
  spaceless s = true -> JS.replace_runs r false s = s.
Proof.
  induction s as [|c s IH]; [ reflexivity | ].
  cbn [spaceless JS.replace_runs]. intros H.
  apply andb_true_iff in H. destruct H as [Hc Hs].
  apply negb_true_iff in Hc. rewrite Hc. f_equal. now apply IH.
Qed.

(** The id the exports put in a file name, for a booking of the form. *)
Lemma exportId_of_booking (host : Host) (p : Page) (d : TicketData) :
  submitted host p d ->
  TicketRenderer.exportId (booked_page host p d)
  = (booked_page host p d, [], inl (bookingId d)).
Proof.
  intros H. destruct (submitted_inv host p d H) as (_ & _ & _ & dep & arr & _ & _ & ->).
  run. cbn [ticketData bookingId].
  assert (T : JS.truthy (new_bookingId (now host)) = true) by reflexivity.
  rewrite T. unfold JS.replace_spaces.
  now rewrite replace_runs_spaceless by apply spaceless_new_bookingId.
Qed.

(** X4: none of the four exports changes the page, whatever it holds and
    however the export ends: the preview, the current booking and the store
    are as before, so an export can be repeated. *)
Theorem exports_leave_page (host : Host) (p : Page) :
  page_of (TicketRenderer.downloadPNG host p) = p /\
  page_of (TicketRenderer.downloadPDF host p) = p /\
  page_of (TicketRenderer.printTicket host p) = p /\
  page_of (TicketRenderer.copyBookingId host p) = p.
Proof.
  destruct p as [f tc qr c cd eb ss]. repeat split; run.
  - destruct (has_ticketContainer host); [ | reflexivity ].
    destruct (html2canvas host) as [[cv|]|]; try reflexivity.
    destruct cd; [ | reflexivity ]. destruct (has_toast host); reflexivity.
  - destruct (jspdf host) as [|[|]]; try reflexivity;
      (destruct (has_ticketContainer host); [ | reflexivity ]);
      (destruct (html2canvas host) as [[cv|]|]; try reflexivity).
    destruct cd; [ | reflexivity ]. destruct (has_toast host); reflexivity.
  - destruct c; [ | reflexivity ]. destruct (popup_opens host); reflexivity.
  - destruct cd as [d|]; [ destruct (JS.truthy (bookingId d)) | ];
      destruct (has_toast host), (clipboard_writes host); reflexivity.
Qed.

(** X5: rasterize-to-image always returns normally, and does one of two
    things: it downloads one image, exactly when the page has its preview
    container, the capture succeeds and a booking is current, or it writes to
    the console and raises the alert "PNG generation failed.". *)
Theorem downloadPNG_settles (host : Host) (p : Page) :
  let r := TicketRenderer.downloadPNG host p in
  let ready := has_ticketContainer host = true /\
               (exists canvas, html2canvas host = Some (Some canvas)) /\
               currentData p <> None in
  outcome_of r = inl tt /\
  ((ready /\
    exists name, effects_of r
                 = (Download name
                    :: if has_toast host then [Toast "PNG downloaded"] else [])%list)
   \/
   (~ ready /\ effects_of r = [ConsoleError; Alert "PNG generation failed."])).
Proof.
  destruct p as [f tc qr c cd eb ss]. run. cbn [currentData].
  destruct (has_ticketContainer host);
    [ | split; [ reflexivity | right; split;
                  [ intros (H & _); discriminate H | reflexivity ] ] ].
  destruct (html2canvas host) as [[cv|]|];
    try (split; [ reflexivity | right; split;
                   [ intros (_ & [x H] & _); discriminate H | reflexivity ] ]).
  destruct cd as [d|];
    [ | split; [ reflexivity | right; split;
                  [ intros (_ & _ & H); now apply H | reflexivity ] ] ].
  destruct (has_toast host); (split; [ reflexivity | left; split;
    [ repeat split; [ now exists cv | discriminate ] | eexists; reflexivity ] ]).
Qed.

(** X6: after a booking, with a capture that succeeds, rasterize-to-image
    downloads the file [HarmonyTravels_Ticket_<bookingId>.png] (an id has no
    white space to replace), shows the toast and leaves the booked page. *)
Theorem png_named_after_booking (host : Host) (p : Page) (d : TicketData)
    (canvas : Canvas) :
  submitted host p d ->
  html2canvas host = Some (Some canvas) ->
  TicketRenderer.downloadPNG host (page_of (submit host p))
  = (booked_page host p d,
     [Download ("HarmonyTravels_Ticket_" ++ bookingId d ++ ".png");
      Toast "PNG downloaded"],
     inl tt).
Proof.
  intros H Hc. rewrite (submitted_page host p d H).
  pose proof (exportId_of_booking host p d H) as E.
  destruct (submitted_inv host p d H) as (_ & Hk & Ht & _).
  unfold TicketRenderer.downloadPNG, TicketRenderer.captureToCanvas,
    TicketRenderer.showToast.
  rewrite Hk, Hc, Ht. cbn [negb].
  unfold try_catch, bind, ret, emit. rewrite E. reflexivity.
Qed.

Lemma png_named_after_booking_witness :
  submitted sample_host (fresh_page flight_form) flight_ticket /\
  effects_of (TicketRenderer.downloadPNG sample_host
                (page_of (submit sample_host (fresh_page flight_form))))
  = [Download "HarmonyTravels_Ticket_HT-20250315-845678.png"; Toast "PNG downloaded"].
Proof.
  split; [ exact flight_form_submitted | ].
  rewrite (png_named_after_booking sample_host (fresh_page flight_form) flight_ticket
             {| width := 1800; height := 700 |} flight_form_submitted eq_refl).
  reflexivity.
Defined.

(** X7: after a booking, with both libraries at hand, rasterize-to-document
    lays the capture out on the page as [placeImage] says, saves the file
    [HarmonyTravels_Ticket_<bookingId>.pdf], shows the toast and leaves the
    booked page. *)
Theorem pdf_named_after_booking (host : Host) (p : Page) (d : TicketData)
    (canvas : Canvas) :
  submitted host p d ->
  html2canvas host = Some (Some canvas) ->
  jspdf host = jspdf_object true ->
  let pl := TicketRenderer.placeImage (pageWidth host) (pageHeight host)
              (JS.Number_of_Z (width canvas)) (JS.Number_of_Z (height canvas)) in
  TicketRenderer.downloadPDF host (page_of (submit host p))
  = (booked_page host p d,
     [PdfAddImage (place_x pl) (place_y pl) (place_w pl) (place_h pl);
      PdfSave ("HarmonyTravels_Ticket_" ++ bookingId d ++ ".pdf");
      Toast "PDF downloaded"],
     inl tt).
Proof.
  intros H Hc Hj pl. rewrite (submitted_page host p d H).
  pose proof (exportId_of_booking host p d H) as E.
  destruct (submitted_inv host p d H) as (_ & Hk & Ht & _).
  unfold TicketRenderer.downloadPDF, TicketRenderer.captureToCanvas,
    TicketRenderer.showToast, TicketRenderer.jspdf_defined, TicketRenderer.jspdf_jsPDF.
  rewrite Hk, Hc, Ht, Hj. cbn [negb].
  unfold try_catch, bind, ret, emit. rewrite E. reflexivity.
Qed.

Lemma pdf_named_after_booking_witness :
  submitted sample_host (fresh_page flight_form) flight_ticket /\
  In (PdfSave "HarmonyTravels_Ticket_HT-20250315-845678.pdf")
     (effects_of (TicketRenderer.downloadPDF sample_host
                    (page_of (submit sample_host (fresh_page flight_form))))).
Proof.
  split; [ exact flight_form_submitted | ].
  rewrite (pdf_named_after_booking sample_host (fresh_page flight_form) flight_ticket
             {| width := 1800; height := 700 |} flight_form_submitted eq_refl eq_refl).
  right. left. reflexivity.
Defined.

(** X8: the only alert rasterize-to-document ever raises is "PDF generation
    failed.": the alert "jsPDF missing" is dead code, since its guard can
    only hold after having read a property of [undefined]. *)
Theorem downloadPDF_only_alert (host : Host) (p : Page) (msg : string) :
  In (Alert msg) (effects_of (TicketRenderer.downloadPDF host p)) ->
  msg = "PDF generation failed.".
Proof.
  destruct p as [f tc qr c cd eb ss]. run.
  destruct (jspdf host) as [|[|]]; cbn; try tauto;
    (destruct (has_ticketContainer host); cbn;
     [ | intros [H|[H|[]]]; [ discriminate H | now injection H as <- ] ]);
    (destruct (html2canvas host) as [[cv|]|]; cbn;
     try (intros [H|[H|[]]]; [ discriminate H | now injection H as <- ]));
    try (destruct cd as [d|]; cbn); try (destruct (has_toast host); cbn);
    intros H; repeat (destruct H as [H|H]; try discriminate H);
    try contradiction; now injection H as <-.
Qed.

Lemma downloadPDF_only_alert_witness :
  exists msg,
    In (Alert msg)
       (effects_of (TicketRenderer.downloadPDF sample_host (fresh_page blank_form))) /\
    msg = "PDF generation failed.".
Proof.
  assert (H : In (Alert "PDF generation failed.")
                (effects_of (TicketRenderer.downloadPDF sample_host
                               (fresh_page blank_form))))
    by (right; right; left; reflexivity).
  exists "PDF generation failed.". split; [ exact H | ].
  exact (downloadPDF_only_alert sample_host (fresh_page blank_form) _ H).
Defined.

(** X9: with [window.jspdf] defined rasterize-to-document always returns
    normally and does one of two things: it lays the capture out and saves
    one document, exactly when the page has its preview container, the
    capture succeeds, the library has its constructor and a booking is
    current; or it ends on the console and the alert "PDF generation
    failed." without having saved anything. *)
Theorem downloadPDF_settles (host : Host) (p : Page) (ctor : bool) :
  jspdf host = jspdf_object ctor ->
  let r := TicketRenderer.downloadPDF host p in
  let ready := has_ticketContainer host = true /\
               (exists canvas, html2canvas host = Some (Some canvas)) /\
               ctor = true /\ currentData p <> None in
  outcome_of r = inl tt /\
  ((ready /\
    exists x y w h name,
      effects_of r
      = (PdfAddImage x y w h :: PdfSave name
         :: if has_toast host then [Toast "PDF downloaded"] else [])%list)
   \/
   (~ ready /\
    (forall name, ~ In (PdfSave name) (effects_of r)) /\
    exists laid_out,
      effects_of r = (laid_out ++ [ConsoleError; Alert "PDF generation failed."])%list)).
Proof.
  intros Hj. destruct p as [f tc qr c cd eb ss]. run. rewrite Hj. cbn [currentData].
  destruct (has_ticketContainer host);
    [ | split; [ reflexivity | right; repeat split;
          [ intros (H & _); discriminate H
          | intros name [H|[H|[]]]; discriminate H
          | now exists [] ] ] ].
  destruct (html2canvas host) as [[cv|]|];
    try (split; [ reflexivity | right; repeat split;
          [ intros (_ & [x H] & _); discriminate H
          | intros name [H|[H|[]]]; discriminate H
          | now exists [] ] ]).
  destruct ctor;
    [ | split; [ reflexivity | right; repeat split;
          [ intros (_ & _ & H & _); discriminate H
          | intros name [H|[H|[]]]; discriminate H
          | now exists [] ] ] ].
  destruct cd as [d|].
  - destruct (has_toast host); (split; [ reflexivity | left; split;
      [ repeat split; [ now exists cv | discriminate ]
      | do 5 eexists; reflexivity ] ]).
  - split; [ reflexivity | right; repeat split ].
    + intros (_ & _ & _ & H). now apply H.
    + intros name [H|[H|[H|[]]]]; discriminate H.
    + eexists [_]. reflexivity.
Qed.

Lemma downloadPDF_settles_witness :
  outcome_of (TicketRenderer.downloadPDF sample_host (fresh_page blank_form)) = inl tt.
Proof.
  apply (downloadPDF_settles sample_host (fresh_page blank_form) true eq_refl).
Defined.

(** X10: once a ticket has been booked, print never falls back to printing
    the current page: it prints the booked ticket in a separate window or,
    when that window is blocked, raises the alert "Popup blocked". *)
Theorem print_after_booking (host : Host) (p : Page) (d : TicketData) :
  submitted host p d ->
  TicketRenderer.printTicket host (page_of (submit host p))
  = (booked_page host p d,
     [if popup_opens host
      then PopupPrint (Some (TicketRenderer.buildHtml host d))
      else Alert "Popup blocked"],
     inl tt).
Proof.
  intros H. rewrite (submitted_page host p d H). run.
  destruct (popup_opens host); reflexivity.
Qed.

Lemma print_after_booking_witness :
  submitted sample_host (fresh_page flight_form) flight_ticket /\
  effects_of (TicketRenderer.printTicket sample_host
                (page_of (submit sample_host (fresh_page flight_form))))
  = [PopupPrint (Some (TicketRenderer.buildHtml sample_host flight_ticket))].
Proof.
  split; [ exact flight_form_submitted | ].
  rewrite (print_after_booking sample_host (fresh_page flight_form) flight_ticket
             flight_form_submitted).
  reflexivity.
Defined.

(** X11: after a booking, copy-booking-id hands exactly the booking id to
    the clipboard and confirms it, or shows "Copy failed" when the clipboard
    refuses. *)
Theorem copy_after_booking (host : Host) (p : Page) (d : TicketData) :
  submitted host p d ->
  TicketRenderer.copyBookingId host (page_of (submit host p))
  = (booked_page host p d,
     if clipboard_writes host
     then [ClipboardWrite (bookingId d); Toast "Booking ID copied"]
     else [Toast "Copy failed"],
     inl tt).
Proof.
  intros H. rewrite (submitted_page host p d H).
  destruct (submitted_inv host p d H) as (_ & _ & Ht & dep & arr & _ & _ & ->).
  run. rewrite Ht. cbn [ticketData bookingId].
  assert (T : JS.truthy (new_bookingId (now host)) = true) by reflexivity.
  rewrite T. destruct (clipboard_writes host); reflexivity.
Qed.

Lemma copy_after_booking_witness :
  submitted sample_host (fresh_page flight_form) flight_ticket /\
  effects_of (TicketRenderer.copyBookingId sample_host
                (page_of (submit sample_host (fresh_page flight_form))))
  = [ClipboardWrite "HT-20250315-845678"; Toast "Booking ID copied"].
Proof.
  split; [ exact flight_form_submitted | ].
  rewrite (copy_after_booking sample_host (fresh_page flight_form) flight_ticket
             flight_form_submitted).
  reflexivity.
Defined.

(** X12: the clipboard never receives anything but the non-empty id of the
    current booking. *)
Theorem clipboard_gets_current_id (host : Host) (p : Page) (text : string) :
  In (ClipboardWrite text) (effects_of (TicketRenderer.copyBookingId host p)) ->
  text <> "" /\ exists d, currentData p = Some d /\ bookingId d = text.
Proof.
  destruct p as [f tc qr c cd eb ss]. run.
  destruct cd as [d|].
  - destruct (JS.truthy (bookingId d)) eqn:T.
    + destruct (clipboard_writes host), (has_toast host); cbn;
        intros H; repeat (destruct H as [H|H]; try discriminate H); try contradiction;
        injection H as <-; (split; [ | now exists d ]);
        intros E; rewrite E in T; discriminate T.
    + destruct (has_toast host); cbn; intros H;
        repeat (destruct H as [H|H]; try discriminate H); contradiction.
  - destruct (has_toast host); cbn; intros H;
      repeat (destruct H as [H|H]; try discriminate H); contradiction.
Qed.

Lemma clipboard_gets_current_id_witness :
  In (ClipboardWrite "HT-20250315-845678")
     (effects_of (TicketRenderer.copyBookingId sample_host
                    (booked_page sample_host (fresh_page flight_form) flight_ticket))) /\
  "HT-20250315-845678" <> "".
Proof.
  assert (H : In (ClipboardWrite "HT-20250315-845678")
     (effects_of (TicketRenderer.copyBookingId sample_host
                    (booked_page sample_host (fresh_page flight_form) flight_ticket))))
    by (left; reflexivity).
  split; [ exact H | ].
  exact (proj1 (clipboard_gets_current_id sample_host _ _ H)).
Defined.

(* ===================================================================== *)
(** * Submissions that do not go through, and what a submission keeps *)
(* ===================================================================== *)

(** X13: a form that passes the validation test with a date the browser
    cannot read (depart, or a given arrival) ends the listener on a
    [RangeError]: no alert, nothing rendered, nothing stored, the page as it
    was. *)
Theorem submit_invalid_date (host : Host) (p : Page) :
  required_missing (form p) = false ->
  iso_of host (startDateEl (form p)) = None \/ arrival_of host (form p) = None ->
  submit host p = (p, [], inr JS.RangeError).
Proof.
  destruct p as [f tc qr c cd eb ss]. cbn [form].
  unfold arrival_of, iso_of. intros Hv Hd. run. rewrite Hv.
  destruct (Date_parse host (startDateEl f)) as [t0|]; [ | reflexivity ].
  destruct Hd as [Hd|Hd]; [ discriminate Hd | ].
  destruct (JS.truthy (endDateEl f)); [ | discriminate Hd ].
  destruct (Date_parse host (endDateEl f)) as [t1|]; [ discriminate Hd | reflexivity ].
Qed.

Lemma submit_invalid_date_witness :
  required_missing blank_date_form = false /\
  submit sample_host (fresh_page blank_date_form)
  = (fresh_page blank_date_form, [], inr JS.RangeError).
Proof.
  split; [ reflexivity | ].
  apply (submit_invalid_date sample_host (fresh_page blank_date_form)).
  - reflexivity.
  - left. reflexivity.
Defined.

(** X14: on a page without the preview container a valid submission ends on
    the error "Container not found": the renderer has dropped its container,
    so that print falls back to the current page, but the booking that was
    current, its preview and the store are untouched, and nothing is
    announced. *)
Theorem submit_without_container (host : Host) (p : Page) (dep arr : string) :
  required_missing (form p) = false ->
  iso_of host (startDateEl (form p)) = Some dep ->
  arrival_of host (form p) = Some arr ->
  has_ticketContainer host = false ->
  let r := submit host p in
  outcome_of r = inr (JS.Error "Container not found") /\
  effects_of r = [] /\
  page_of r = TicketRenderer.set_container false p /\
  currentData (page_of r) = currentData p /\
  ticketContainer (page_of r) = ticketContainer p /\
  sessionStorage (page_of r) = sessionStorage p /\
  effects_of (TicketRenderer.printTicket host (page_of r)) = [WindowPrint].
Proof.
  destruct p as [f tc qr c cd eb ss]. cbn [form].
  unfold arrival_of, iso_of. intros Hv Hd Ha Hc. run. rewrite Hv, Hc.
  destruct (Date_parse host (startDateEl f)) as [t0|]; [ | discriminate Hd ].
  destruct (JS.truthy (endDateEl f));
    [ destruct (Date_parse host (endDateEl f)) as [t1|]; [ | discriminate Ha ] | ];
    repeat split.
Qed.

Lemma submit_without_container_witness :
  outcome_of (submit host_without_container (fresh_page flight_form))
  = inr (JS.Error "Container not found").
Proof.
  apply (submit_without_container host_without_container (fresh_page flight_form)
           "2025-04-01T05:00:00.000Z" ""); reflexivity.
Defined.

(** X15: on a page without the toast element a valid submission renders the
    ticket and hooks the export buttons, then ends on a [TypeError] before
    the store is written: the booking is on the page but not in the session
    store. *)
Theorem submit_without_toast (host : Host) (p : Page) (dep arr : string) :
  required_missing (form p) = false ->
  iso_of host (startDateEl (form p)) = Some dep ->
  arrival_of host (form p) = Some arr ->
  has_ticketContainer host = true ->
  has_toast host = false ->
  let d := ticketData host (form p) dep arr in
  let r := submit host p in
  outcome_of r = inr JS.TypeError /\
  ~ (exists msg, In (Toast msg) (effects_of r)) /\
  currentData (page_of r) = Some d /\
  ticketContainer (page_of r) = Some (TicketRenderer.buildHtml host d) /\
  exportButtons (page_of r) = true /\
  sessionStorage (page_of r) = sessionStorage p.
Proof.
  destruct p as [f tc qr c cd eb ss]. cbn [form].
  unfold arrival_of, iso_of. intros Hv Hd Ha Hc Ht. run. rewrite Hv, Hc, Ht.
  destruct (Date_parse host (startDateEl f)) as [t0|]; [ | discriminate Hd ].
  injection Hd as <-.
  destruct (JS.truthy (endDateEl f));
    [ destruct (Date_parse host (endDateEl f)) as [t1|]; [ | discriminate Ha ] | ];
    injection Ha as <-;
    destruct (qr_region host _), (QRCode_works host); cbn;
    repeat split; intros [msg H];
    repeat (destruct H as [H|H]; try discriminate H); contradiction.
Qed.

Lemma submit_without_toast_witness :
  outcome_of (submit host_without_toast (fresh_page flight_form)) = inr JS.TypeError /\
  sessionStorage (page_of (submit host_without_toast (fresh_page flight_form))) = ∅.
Proof.
  pose proof (submit_without_toast host_without_toast (fresh_page flight_form)
                "2025-04-01T05:00:00.000Z" "" eq_refl eq_refl eq_refl eq_refl eq_refl)
    as (H1 & _ & _ & _ & _ & H2).
  split; [ exact H1 | exact H2 ].
Defined.

(** X16: however a submission ends, it leaves the form as the user filled
    it, and the session store changes at most under the key of the booking id
    it drew from the clock. *)
Theorem submit_keeps_form_and_store (host : Host) (p : Page) :
  form (page_of (submit host p)) = form p /\
  forall k : string,
    k <> "booking_" ++ new_bookingId (now host) ->
    sessionStorage (page_of (submit host p)) !! k = sessionStorage p !! k.
Proof.
  destruct p as [f tc qr c cd eb ss]. run.
  destruct (required_missing f); [ split; reflexivity | ].
  destruct (Date_parse host (startDateEl f)) as [t0|]; [ | split; reflexivity ].
  assert (K : forall (dep arr : string) (k : string),
             k <> "booking_" ++ new_bookingId (now host) ->
             <[ "booking_" ++ bookingId (ticketData host f dep arr)
                := JSON_stringify (ticketData_value (ticketData host f dep arr)) ]> ss !! k
             = ss !! k).
  { intros dep arr k Hk. apply lookup_insert_ne. cbn [ticketData bookingId]. congruence. }
  destruct (JS.truthy (endDateEl f));
    [ destruct (Date_parse host (endDateEl f)) as [t1|]; [ | split; reflexivity ] | ];
    (destruct (has_ticketContainer host); [ | split; reflexivity ]);
    destruct (qr_region host _), (QRCode_works host), (has_toast host),
             (storage_accepts host);
    split; try reflexivity; apply K.
Qed.

(** X17: the code drawn for a booking encodes the verification address of
    its booking id, provided that the browser finds the QR region in the
    fragment it has parsed and that the QR library works.  The booking goes
    through in either case: a failure of the library leaves no code and a
    console warning, a fragment without the region (the values of the
    payload are interpolated as they are) leaves no code and no warning. *)
Theorem qr_of_booking (host : Host) (p : Page) (d : TicketData) :
  submitted host p d ->
  let found := qr_region host (TicketRenderer.buildHtml host d) in
  qrPayload d = "https://harmonytravels.example/verify/" ++ bookingId d /\
  qrCode (page_of (submit host p))
  = (if found && QRCode_works host then Some (qrPayload d) else None) /\
  (In ConsoleWarn (effects_of (submit host p)) <->
   found = true /\ QRCode_works host = false).
Proof.
  intros H found.
  destruct (submitted_inv host p d H) as (Hv & Hc & Ht & dep & arr & Hd & Ha & ->).
  rewrite (submit_books host p dep arr Hv Hd Ha Hc Ht).
  cbn [page_of effects_of fst snd booked_page qrCode].
  fold found. split; [ reflexivity | ]. split; [ reflexivity | ].
  destruct found, (QRCode_works host); cbn; split;
    try (intros [K1 K2]; discriminate K1 || discriminate K2);
    try (intros K; repeat (destruct K as [K|K]; try discriminate K); contradiction);
    try (now intros _; split); try (now intros _; left).
Qed.

Lemma qr_of_booking_witness :
  submitted sample_host (fresh_page flight_form) flight_ticket /\
  qrCode (page_of (submit sample_host (fresh_page flight_form)))
  = Some "https://harmonytravels.example/verify/HT-20250315-845678".
Proof.
  split; [ exact flight_form_submitted | ].
  destruct (qr_of_booking sample_host (fresh_page flight_form) flight_ticket
              flight_form_submitted) as (_ & H & _).
  rewrite H. reflexivity.
Defined.

(** X18: the confirmation toast is shown exactly when the submission goes
    through: a submission that goes through shows the toast "Booking <id>
    created — ticket ready" for the id of its booking, and the listener shows
    no other toast, nor this one on a run that does not go through. *)
Theorem booking_announced_iff_submitted (host : Host) (p : Page) :
  (forall d,
      submitted host p d ->
      In (Toast ("Booking " ++ bookingId d ++ " created — ticket ready"))
         (effects_of (submit host p)))
  /\
  (forall msg,
      In (Toast msg) (effects_of (submit host p)) ->
      exists d, submitted host p d /\
                msg = "Booking " ++ bookingId d ++ " created — ticket ready").
Proof.
  split.
  - intros d H.
    destruct (submitted_inv host p d H) as (Hv & Hc & Ht & dep & arr & Hd & Ha & ->).
    rewrite (submit_books host p dep arr Hv Hd Ha Hc Ht).
    apply in_or_app. right. right. now left.
  - intros msg H.
    destruct (required_missing (form p)) eqn:Hv.
    { rewrite (submit_rejects host p Hv) in H. destruct H as [H|[]]. discriminate H. }
    destruct (iso_of host (startDateEl (form p))) as [dep|] eqn:Hd,
             (arrival_of host (form p)) as [arr|] eqn:Ha,
             (has_ticketContainer host) eqn:Hc, (has_toast host) eqn:Ht;
      try (exists (ticketData host (form p) dep arr); split;
           [ apply submitted_iff; repeat split; try assumption; now exists dep, arr
           | rewrite (submit_books host p dep arr Hv Hd Ha Hc Ht) in H;
             apply in_app_or in H; destruct H as [H|[H|[H|[]]]];
             [ destruct (_ && _) in H; [ destruct H as [H|[]] | destruct H ];
               discriminate H
             | discriminate H
             | now injection H as <- ] ]);
      exfalso; revert H; destruct p as [f tc qr c cd eb ss];
      unfold iso_of, arrival_of, iso_of in Hd, Ha; cbn [form] in Hv, Hd, Ha;
      run; rewrite Hv, ?Hc, ?Ht;
      (destruct (Date_parse host (startDateEl f)) as [t0|]; [ | now intros [] ]);
      (destruct (JS.truthy (endDateEl f));
       [ destruct (Date_parse host (endDateEl f)) as [t1|]; [ | now intros [] ] | ]);
      try discriminate Hd; try discriminate Ha;
      try (destruct (qr_region host _)); try (destruct (QRCode_works host));
      cbn; intros H;
      repeat (destruct H as [H|H]; try discriminate H); exact H.
Qed.

(* ===================================================================== *)
(** * Booking ids and the session store *)
(* ===================================================================== *)

Lemma append_inj_length (a a' b b' : string) :
  String.length a = String.length a' -> a ++ b = a' ++ b' -> a = a' /\ b = b'.
Proof.
  revert a'. induction a as [|c a IH]; intros [|c' a'] Hl E; try discriminate Hl.
  - rewrite !append_nil_l in E. now split.
  - rewrite !append_cons in E. injection E as -> E. injection Hl as Hl.
    destruct (IH a' Hl E) as [-> ->]. now split.
Qed.

Lemma last_digits_inj (k : nat) (a b : Z) :
  last_digits k a = last_digits k b -> a mod 10 ^ Z.of_nat k = b mod 10 ^ Z.of_nat k.
Proof.
  revert a b. induction k as [|k IH]; intros a b E.
  - change (10 ^ Z.of_nat 0) with 1. now rewrite !Z.mod_1_r.
  - cbn [last_digits] in E.
    apply append_inj_length in E; [ | now rewrite !length_last_digits ].
    destruct E as [E1 E2]. apply IH in E1. injection E2 as E2.
    assert (Ha : 0 <= a mod 10 < 10) by (apply Z.mod_pos_bound; lia).
    assert (Hb : 0 <= b mod 10 < 10) by (apply Z.mod_pos_bound; lia).
    assert (E3 : a mod 10 = b mod 10).
    { destruct (digit_char_facts _ Ha) as (_ & <- & _).
      destruct (digit_char_facts _ Hb) as (_ & <- & _). now rewrite E2. }
    replace (Z.of_nat (S k)) with (Z.succ (Z.of_nat k)) by lia.
    rewrite Z.pow_succ_r by lia. pose proof (pow10_pos k).
    rewrite !Z.rem_mul_r by lia. now rewrite E1, E3.
Qed.

(** The id of a calendar clock, by its digits. *)
Lemma new_bookingId_digits (c : Clock) :
  calendar_clock c ->
  new_bookingId c
  = bookingId_format (getFullYear c) (getMonth c + 1) (getDate c) (getTime c).
Proof.
  intros (Hy & Hm & Hd & Ht). unfold new_bookingId, bookingId_format.
  rewrite (toString_4_digits _ Hy).
  rewrite (padStart_2_digits (getMonth c + 1)) by lia.
  rewrite (padStart_2_digits (getDate c)) by lia.
  now rewrite (slice_last_6_digits _ Ht).
Qed.

(** X19: two calendar clocks give the same booking id exactly when they
    show the same day and their time stamps agree on the last six digits:
    two submissions of one day that are a multiple of 1000 seconds apart
    collide. *)
Theorem bookingId_collision (c1 c2 : Clock) :
  calendar_clock c1 -> calendar_clock c2 ->
  (new_bookingId c1 = new_bookingId c2 <->
   getFullYear c1 = getFullYear c2 /\ getMonth c1 = getMonth c2 /\
   getDate c1 = getDate c2 /\
   getTime c1 mod 1000000 = getTime c2 mod 1000000).
Proof.
  intros H1 H2.
  rewrite (new_bookingId_digits c1 H1), (new_bookingId_digits c2 H2).
  destruct H1 as (Hy1 & Hm1 & Hd1 & Ht1), H2 as (Hy2 & Hm2 & Hd2 & Ht2).
  unfold bookingId_format. split.
  - intros E.
    apply (append_inj_length "HT-" "HT-") in E; [ | reflexivity ].
    destruct E as [_ E].
    apply append_inj_length in E; [ | now rewrite !length_last_digits ].
    destruct E as [Ey E].
    apply append_inj_length in E; [ | now rewrite !length_last_digits ].
    destruct E as [Em E].
    apply append_inj_length in E; [ | now rewrite !length_last_digits ].
    destruct E as [Ed E].
    apply (append_inj_length "-" "-") in E; [ | reflexivity ].
    destruct E as [_ Et].
    apply last_digits_inj in Ey, Em, Ed, Et.
    change (10 ^ Z.of_nat 4) with 10000 in Ey.
    change (10 ^ Z.of_nat 2) with 100 in Em, Ed.
    change (10 ^ Z.of_nat 6) with 1000000 in Et.
    rewrite !Z.mod_small in Ey by lia.
    rewrite !Z.mod_small in Em by lia.
    rewrite !Z.mod_small in Ed by lia.
    rewrite !Z.mod_mod in Et by lia.
    repeat split; lia.
  - intros (-> & -> & -> & ->). reflexivity.
Qed.

Lemma bookingId_collision_witness :
  new_bookingId {| getFullYear := 2025; getMonth := 2; getDate := 15;
                   getTime := 1742023845678 |}
  = new_bookingId {| getFullYear := 2025; getMonth := 2; getDate := 15;
                     getTime := 1742024845678 |}.
Proof.
  apply (bookingId_collision
           {| getFullYear := 2025; getMonth := 2; getDate := 15;
              getTime := 1742023845678 |}
           {| getFullYear := 2025; getMonth := 2; getDate := 15;
              getTime := 1742024845678 |}).
  - unfold calendar_clock. cbn. lia.
  - unfold calendar_clock. cbn. lia.
  - repeat split.
Defined.

Lemma booking_key_inj (a b : string) : "booking_" ++ a = "booking_" ++ b -> a = b.
Proof.
  intros E. now apply (append_inj_length "booking_" "booking_") in E.
Qed.

(** X20: of two successive bookings in a session whose store accepts them,
    the second is the current one and is stored under its id; the entry of
    the first stays in the store as long as the two ids differ (with equal
    ids it has been overwritten). *)
Theorem later_booking_supersedes (host1 host2 : Host) (p1 p2 : Page)
    (d1 d2 : TicketData) :
  submitted host1 p1 d1 ->
  submitted host2 p2 d2 ->
  sessionStorage p2 = sessionStorage (page_of (submit host1 p1)) ->
  storage_accepts host1 = true ->
  storage_accepts host2 = true ->
  let p := page_of (submit host2 p2) in
  currentData p = Some d2 /\
  ticketContainer p = Some (TicketRenderer.buildHtml host2 d2) /\
  sessionStorage p !! ("booking_" ++ bookingId d2)
  = Some (JSON_stringify (ticketData_value d2)) /\
  sessionStorage p !! ("booking_" ++ bookingId d1)
  = Some (JSON_stringify
            (ticketData_value (if String.eqb (bookingId d1) (bookingId d2)
                               then d2 else d1))).
Proof.
  intros H1 H2 Hs Ha1 Ha2.
  rewrite (submitted_page host2 p2 d2 H2).
  rewrite (submitted_page host1 p1 d1 H1) in Hs.
  cbn [booked_page currentData ticketContainer sessionStorage].
  rewrite Hs, Ha2. cbn [booked_page sessionStorage]. rewrite Ha1.
  repeat split.
  - apply lookup_insert_eq.
  - destruct (String.eqb_spec (bookingId d1) (bookingId d2)) as [E|E].
    + rewrite E. apply lookup_insert_eq.
    + rewrite lookup_insert_ne by (intros K; apply booking_key_inj in K; congruence).
      apply lookup_insert_eq.
Qed.

Lemma later_booking_supersedes_witness :
  let p1 := page_of (submit sample_host (fresh_page flight_form)) in
  let p2 := page_of (submit later_host p1) in
  currentData p2 = Some (ticketData later_host flight_form "2025-04-01T05:00:00.000Z" "") /\
  is_Some (sessionStorage p2 !! "booking_HT-20250315-845678") /\
  is_Some (sessionStorage p2 !! "booking_HT-20250315-905678").
Proof.
  assert (H2 : submitted later_host (page_of (submit sample_host (fresh_page flight_form)))
                 (ticketData later_host flight_form "2025-04-01T05:00:00.000Z" "")).
  { apply submitted_iff. repeat split.
    exists "2025-04-01T05:00:00.000Z", "". repeat split. }
  destruct (later_booking_supersedes sample_host later_host (fresh_page flight_form)
              (page_of (submit sample_host (fresh_page flight_form)))
              flight_ticket _ flight_form_submitted H2 eq_refl eq_refl eq_refl)
    as (C & _ & S2 & S1).
  cbv zeta. split; [ exact C | ]. split.
  - eexists. exact S1.
  - eexists. exact S2.
Defined.

(* ===================================================================== *)
(** * The form between two submissions *)
(* ===================================================================== *)

Lemma updatePrice_controls (host : Host) (f : Form) :
  transportEl (updatePrice host f) = transportEl f /\
  providerEl (updatePrice host f) = providerEl f /\
  classEl (updatePrice host f) = classEl f.
Proof. repeat split. Qed.

Lemma getPrice_updatePrice (host : Host) (f : Form) :
  getPrice (updatePrice host f) = getPrice f.
Proof. reflexivity. Qed.

Lemma price_shown_updatePrice (host : Host) (f : Form) :
  price_shown host (updatePrice host f).
Proof. unfold price_shown. rewrite getPrice_updatePrice. reflexivity. Qed.

Lemma options_match_updatePrice (host : Host) (f : Form) :
  options_match f -> options_match (updatePrice host f).
Proof. intros H. exact H. Qed.

(** Filling an emptied class drop-down selects its first option. *)
Lemma populateOptions_selected (host : Host) (cat : string) (spec : Spec) (f : Form) :
  JS.prop PRICE_MATRIX cat = Some spec ->
  In (value (classEl (populateOptions host cat f))) (JS.keys (classes spec)).
Proof.
  intros H. unfold populateOptions. rewrite H.
  prop_cases H; cbn; tauto.
Qed.

Lemma options_match_populate (host : Host) (f : Form) :
  options_match (populateOptions host (transportEl f) f).
Proof.
  unfold options_match. rewrite populateOptions_transport.
  destruct (JS.prop PRICE_MATRIX (transportEl f)) as [spec|] eqn:H.
  - destruct (populateOptions_configured host _ spec f H) as [Hp Hc].
    repeat split; [ exact Hp | exact Hc | ].
    rewrite Hc. now apply populateOptions_selected.
  - now apply populateOptions_unconfigured.
Qed.

(** Every class a category offers has a positive price. *)
Lemma offered_class_priced (cat : string) (spec : Spec) (c : string) :
  JS.prop PRICE_MATRIX cat = Some spec ->
  In c (JS.keys (classes spec)) ->
  exists p, JS.prop (classes spec) c = Some p /\ 0 < p.
Proof.
  intros H Hin.
  prop_cases H; cbn in Hin;
    repeat (destruct Hin as [<- | Hin]; [ eexists; split; [ reflexivity | lia ] | ]);
    destruct Hin.
Qed.

(** On a form whose drop-downs match its category, the resolver answers the
    positive price of the selected class, or 0 for an unconfigured one. *)
Lemma options_match_price (f : Form) :
  options_match f ->
  match JS.prop PRICE_MATRIX (transportEl f) with
  | Some spec => JS.prop (classes spec) (value (classEl f)) = Some (getPrice f) /\
                 0 < getPrice f
  | None => getPrice f = 0
  end.
Proof.
  unfold options_match.
  destruct (JS.prop PRICE_MATRIX (transportEl f)) as [spec|] eqn:H.
  - intros (_ & Ho & Hin). rewrite Ho in Hin. clear Ho.
    destruct (offered_class_priced _ spec _ H Hin) as (p & Hp & Hpos).
    rewrite (getPrice_configured f spec p H Hp). now split.
  - intros _. now apply getPrice_unconfigured.
Qed.

(** X21: whatever the user does to the form after the page has loaded
    (choosing a category, picking a class or a provider among the options
    offered, asking for an estimate, resetting), the two drop-downs offer
    exactly the providers and classes of the chosen category with one of the
    classes selected, or nothing for an unconfigured category; and the
    resolved price is 0 exactly for an unconfigured category. *)
Theorem form_options_match_category (host : Host) (f0 f : Form) :
  reaches host (loaded host f0) f ->
  options_match f /\
  (getPrice f = 0 <-> JS.prop PRICE_MATRIX (transportEl f) = None).
Proof.
  intros R.
  assert (M : options_match f).
  { induction R as [|g ev R IH Hev].
    - apply options_match_populate.
    - destruct ev as [v|c|pr| |defaults]; cbn [form_step possible] in *.
      + unfold transport_changed.
        apply (options_match_populate host (set_transport v g)).
      + unfold class_changed. apply options_match_updatePrice.
        unfold options_match in *. cbn [set_options transportEl providerEl classEl pick
                                          options value].
        destruct (JS.prop PRICE_MATRIX (transportEl g)) as [spec|].
        * destruct IH as (Hp & Hc & _). repeat split; assumption.
        * destruct IH as (_ & Hc). rewrite Hc in Hev. destruct Hev.
      + unfold provider_changed. apply options_match_updatePrice.
        unfold options_match in *. cbn [set_options transportEl providerEl classEl pick
                                          options value].
        destruct (JS.prop PRICE_MATRIX (transportEl g)) as [spec|].
        * destruct IH as (Hp & Hc & Hin). repeat split; assumption.
        * destruct IH as (Hp & _). rewrite Hp in Hev. destruct Hev.
      + exact IH.
      + unfold reset_form. apply options_match_updatePrice.
        apply (options_match_populate host (form_reset defaults g)). }
  split; [ exact M | ].
  pose proof (options_match_price f M) as P.
  destruct (JS.prop PRICE_MATRIX (transportEl f)) as [spec|].
  - destruct P as [_ P]. split; [ lia | discriminate ].
  - tauto.
Qed.

Lemma form_options_match_category_witness :
  options_match
    (form_step sample_host
       (form_step sample_host (loaded sample_host blank_form) (TransportChanged "Bus"))
       (ClassChanged "Premium")).
Proof.
  apply (form_options_match_category sample_host blank_form).
  apply reaches_step; [ apply reaches_step; [ apply reaches_here | exact I ] | ].
  cbn. tauto.
Defined.

(** ** Names inherited from Object.prototype *)

Lemma lookup_own {A : Type} (o : list (string * A)) (k : string) (a : A) :
  JS.prop o k = Some a -> JS.lookup o k = JS.Own a.
Proof. intros H. unfold JS.lookup. now rewrite H. Qed.

Lemma lookup_cases {A : Type} (o : list (string * A)) (k : string) :
  match JS.lookup o k with
  | JS.Own a => JS.prop o k = Some a
  | JS.Inherited => JS.prop o k = None /\ JS.inherited k = true
  | JS.Missing => JS.prop o k = None /\ JS.inherited k = false
  end.
Proof.
  unfold JS.lookup. destruct (JS.prop o k); [ reflexivity | ].
  destruct (JS.inherited k) eqn:E; now split.
Qed.

(** No category and no class of the matrix bears an inherited name. *)
Lemma matrix_names_not_inherited (cat : string) (spec : Spec) :
  JS.prop PRICE_MATRIX cat = Some spec ->
  JS.inherited cat = false /\
  forall cls, In cls (JS.keys (classes spec)) -> JS.inherited cls = false.
Proof.
  intros H. prop_cases H; (split; [ reflexivity | ]);
    intros cls Hin; cbn in Hin;
    repeat (destruct Hin as [<- | Hin]; [ reflexivity | ]); destruct Hin.
Qed.

(** On the names the script offers, and on unknown names, the resolver
    returns the Number of [getPrice]. *)
Lemma Prototype_getPrice_agrees (f : Form) :
  JS.prop PRICE_MATRIX (transportEl f) <> None \/
  JS.inherited (transportEl f) = false \/ value (classEl f) = "" ->
  JS.inherited (value (classEl f)) = false ->
  Prototype.getPrice f = inl (Prototype.Amount (getPrice f)).
Proof.
  intros Ht Hc. unfold Prototype.getPrice, getPrice, JS.lookup.
  destruct (JS.truthy (value (classEl f))) eqn:Tc;
    [ | now rewrite orb_true_r ].
  destruct (JS.truthy (transportEl f)); [ | reflexivity ].
  cbn [negb orb].
  destruct (JS.prop PRICE_MATRIX (transportEl f)) as [spec|].
  - destruct (JS.prop (classes spec) (value (classEl f))); [ reflexivity | ].
    now rewrite Hc.
  - destruct Ht as [Ht | [Ht | Ht]].
    + now destruct Ht.
    + now rewrite Ht.
    + rewrite Ht in Tc. discriminate Tc.
Qed.

Lemma Prototype_getPrice_match (f : Form) :
  options_match f -> Prototype.getPrice f = inl (Prototype.Amount (getPrice f)).
Proof.
  unfold options_match. intros H. apply Prototype_getPrice_agrees.
  - destruct (JS.prop PRICE_MATRIX (transportEl f)) as [spec|].
    + now left.
    + right. right. destruct H as [_ ->]. reflexivity.
  - destruct (JS.prop PRICE_MATRIX (transportEl f)) as [spec|] eqn:E.
    + destruct H as (_ & Ho & Hin). rewrite Ho in Hin.
      now apply (matrix_names_not_inherited _ spec E).
    + destruct H as [_ ->]. reflexivity.
Qed.

Lemma Prototype_updatePrice_match (host : Host) (f : Form) :
  options_match f ->
  Prototype.updatePrice host f = (updatePrice host f, inl tt).
Proof.
  intros H. unfold Prototype.updatePrice. now rewrite Prototype_getPrice_match.
Qed.

Lemma truthy_not_empty (s : string) : s <> "" -> JS.truthy s = true.
Proof.
  intros H. destruct (JS.truthy s) eqn:E; [ reflexivity | ].
  apply truthy_empty_iff in E. contradiction.
Qed.

(** Choosing a category that is in the matrix, or that is unknown, ends
    normally and leaves the form of [transport_changed]. *)
Lemma Prototype_populateOptions_agrees (host : Host) (f : Form) :
  JS.prop PRICE_MATRIX (transportEl f) <> None \/ JS.inherited (transportEl f) = false ->
  Prototype.populateOptions host (transportEl f) f
  = (populateOptions host (transportEl f) f, inl tt).
Proof.
  intros H. unfold Prototype.populateOptions, populateOptions, JS.lookup.
  destruct (JS.prop PRICE_MATRIX (transportEl f)) as [spec|] eqn:E.
  - apply Prototype_updatePrice_match.
    pose proof (options_match_populate host f) as M.
    unfold populateOptions in M. rewrite E in M. exact M.
  - destruct H as [H|H]; [ now destruct H | now rewrite H ].
Qed.

Lemma Prototype_transport_changed_agrees (host : Host) (v : string) (f : Form) :
  JS.prop PRICE_MATRIX v <> None \/ JS.inherited v = false ->
  Prototype.transport_changed host v f = (transport_changed host v f, inl tt).
Proof.
  intros H. unfold Prototype.transport_changed, transport_changed.
  apply (Prototype_populateOptions_agrees host (set_transport v f)). exact H.
Qed.

(** Choosing a category that names a member of [Object.prototype] empties
    both drop-downs and ends on a [TypeError]. *)
Lemma Prototype_transport_changed_inherited (host : Host) (v : string) (f : Form) :
  JS.lookup PRICE_MATRIX v = JS.Inherited ->
  Prototype.transport_changed host v f
  = (set_options emptySelect emptySelect (set_transport v f), inr JS.TypeError).
Proof.
  intros H. unfold Prototype.transport_changed, Prototype.populateOptions.
  now rewrite H.
Qed.



(** ** The price display *)

Lemma options_match_pick_class (f : Form) (c : string) :
  options_match f -> In c (options (classEl f)) ->
  options_match (set_options (providerEl f) (pick c (classEl f)) f).
Proof.
  unfold options_match.
  cbn [set_options transportEl providerEl classEl pick options value].
  destruct (JS.prop PRICE_MATRIX (transportEl f)) as [spec|].
  - intros (Hp & Hc & _) Hin. repeat split; assumption.
  - intros (_ & Hc) Hin. rewrite Hc in Hin. destruct Hin.
Qed.

Lemma options_match_pick_provider (f : Form) (pr : string) :
  options_match f -> In pr (options (providerEl f)) ->
  options_match (set_options (pick pr (providerEl f)) (classEl f) f).
Proof.
  unfold options_match.
  cbn [set_options transportEl providerEl classEl pick options value].
  destruct (JS.prop PRICE_MATRIX (transportEl f)) as [spec|].
  - intros (Hp & Hc & Hin) _. repeat split; assumption.
  - intros (Hp & _) Hin. rewrite Hp in Hin. destruct Hin.
Qed.

(** X22: on a form whose drop-downs match its category, every listener that
    gets as far as [updatePrice] (a change to a configured category, the
    pick of an offered class or provider, an estimate, a reset to a default
    category that is no inherited name) ends normally, inherited names
    included, and leaves the price display showing the resolved price of the
    form as it then stands: the host's formatting of it, or "KES 0". *)
Theorem price_shown_after_event (host : Host) (f : Form) (ev : FormEvent) :
  options_match f ->
  possible f ev ->
  reaches_updatePrice ev ->
  Prototype.form_step host f ev = (form_step host f ev, inl tt) /\
  price_shown host (form_step host f ev).
Proof.
  intros M P R.
  destruct ev as [v|c|pr| |defaults];
    cbn [Prototype.form_step form_step possible reaches_updatePrice] in *.
  - split.
    + apply Prototype_transport_changed_agrees. now left.
    + unfold transport_changed, populateOptions.
      destruct (JS.prop PRICE_MATRIX v) as [spec|];
        [ apply price_shown_updatePrice | now destruct R ].
  - split; [ | apply price_shown_updatePrice ].
    apply Prototype_updatePrice_match. now apply options_match_pick_class.
  - split; [ | apply price_shown_updatePrice ].
    apply Prototype_updatePrice_match. now apply options_match_pick_provider.
  - split; [ | apply price_shown_updatePrice ].
    now apply Prototype_updatePrice_match.
  - split; [ | apply price_shown_updatePrice ].
    unfold Prototype.reset_form, reset_form.
    rewrite (Prototype_populateOptions_agrees host (form_reset defaults f))
      by (right; exact R).
    apply Prototype_updatePrice_match. apply options_match_populate.
Qed.

Lemma price_shown_after_event_witness :
  options_match flight_form /\
  possible flight_form (ClassChanged "Business") /\
  priceDisplay (form_step sample_host flight_form (ClassChanged "Business"))
  = "KES 45000".
Proof.
  assert (M : options_match flight_form).
  { cbn. repeat split. right. right. now left. }
  assert (P : possible flight_form (ClassChanged "Business")).
  { cbn. right. now left. }
  split; [ exact M | ]. split; [ exact P | ].
  destruct (price_shown_after_event sample_host flight_form (ClassChanged "Business")
              M P I) as [_ S].
  rewrite S. reflexivity.
Defined.

(** X23: the choice of an unconfigured category empties the drop-downs and
    makes the resolver answer 0, but leaves the price display alone: unless
    it read "KES 0" already, it keeps showing a price the form no longer
    has. *)
Theorem stale_price_after_unconfigured (host : Host) (f : Form) (v : string) :
  JS.prop PRICE_MATRIX v = None ->
  let g := transport_changed host v f in
  getPrice g = 0 /\
  priceDisplay g = priceDisplay f /\
  (priceDisplay f <> "KES 0" -> ~ price_shown host g).
Proof.
  intros H g.
  assert (Hg : g = set_options emptySelect emptySelect (set_transport v f)).
  { subst g. unfold transport_changed, populateOptions. now rewrite H. }
  assert (P : getPrice g = 0).
  { apply getPrice_unconfigured. rewrite Hg. exact H. }
  assert (D : priceDisplay g = priceDisplay f) by (rewrite Hg; reflexivity).
  repeat split; [ exact P | exact D | ].
  unfold price_shown. rewrite P, D. cbn. tauto.
Qed.

Lemma stale_price_after_unconfigured_witness :
  getPrice (transport_changed sample_host "Ferry" flight_form) = 0 /\
  priceDisplay (transport_changed sample_host "Ferry" flight_form) = "KES 70000".
Proof.
  destruct (stale_price_after_unconfigured sample_host flight_form "Ferry" eq_refl)
    as (H1 & H2 & _).
  split; [ exact H1 | exact H2 ].
Defined.

(** X24: when the display shows the price of the form and that price is not
    0, a booking of the form puts the same text on the ticket as its price:
    the traveller is charged the estimate. *)
Theorem ticket_price_is_estimate (host : Host) (p : Page) (d : TicketData) :
  submitted host p d ->
  price_shown host (form p) ->
  getPrice (form p) <> 0 ->
  html_price (TicketRenderer.buildHtml host d) = priceDisplay (form p) /\
  price d = getPrice (form p).
Proof.
  intros H S N.
  destruct (submitted_inv host p d H) as (_ & _ & _ & dep & arr & _ & _ & ->).
  unfold price_shown in S. rewrite S.
  destruct (Z.eqb_spec (getPrice (form p)) 0) as [E|_]; [ contradiction | ].
  split; reflexivity.
Qed.

Lemma ticket_price_is_estimate_witness :
  submitted sample_host (fresh_page flight_form) flight_ticket /\
  html_price (TicketRenderer.buildHtml sample_host flight_ticket) = "KES 70000".
Proof.
  split; [ exact flight_form_submitted | ].
  destruct (ticket_price_is_estimate sample_host (fresh_page flight_form) flight_ticket
              flight_form_submitted) as [H _];
    [ reflexivity | discriminate | ].
  rewrite H. reflexivity.
Defined.

(** X25: the reset button clears the preview and its code but not what the
    renderer holds: after a booking and a reset the booking is still the
    current one and still in the store, the export buttons stay hooked,
    copy-booking-id still copies its id, and print opens a window on the
    emptied preview. *)
Theorem reset_keeps_booking (host : Host) (p : Page) (d : TicketData)
    (defaults : Form) :
  submitted host p d ->
  let r := reset_clicked host defaults (page_of (submit host p)) in
  outcome_of r = inl tt /\ effects_of r = [] /\
  form (page_of r) = reset_form host defaults (form p) /\
  ticketContainer (page_of r) = None /\ qrCode (page_of r) = None /\
  currentData (page_of r) = Some d /\ exportButtons (page_of r) = true /\
  sessionStorage (page_of r) = sessionStorage (page_of (submit host p)) /\
  effects_of (TicketRenderer.copyBookingId host (page_of r))
  = (if clipboard_writes host
     then [ClipboardWrite (bookingId d); Toast "Booking ID copied"]
     else [Toast "Copy failed"]) /\
  effects_of (TicketRenderer.printTicket host (page_of r))
  = [if popup_opens host then PopupPrint None else Alert "Popup blocked"].
Proof.
  intros H. rewrite (submitted_page host p d H).
  destruct (submitted_inv host p d H) as (_ & Hc & Ht & dep & arr & _ & _ & ->).
  unfold reset_clicked. run. rewrite Hc. cbn [booked_page form]. run.
  rewrite Ht. cbn [ticketData bookingId].
  repeat split; [ destruct (clipboard_writes host) | destruct (popup_opens host) ];
    reflexivity.
Qed.

Lemma reset_keeps_booking_witness :
  submitted sample_host (fresh_page flight_form) flight_ticket /\
  currentData (page_of (reset_clicked sample_host blank_form
                          (page_of (submit sample_host (fresh_page flight_form)))))
  = Some flight_ticket.
Proof.
  split; [ exact flight_form_submitted | ].
  destruct (reset_keeps_booking sample_host (fresh_page flight_form) flight_ticket
              blank_form flight_form_submitted) as (_ & _ & _ & _ & _ & H & _).
  exact H.
Defined.

(* ===================================================================== *)
(** * Rendering again *)
(* ===================================================================== *)

(** X26: on a page with its preview container, [init] never fails and
    replaces wholesale what an earlier [init] rendered: payload, preview and
    code are those of the last call, as if the earlier one had not
    happened. *)
Theorem init_last_wins (host : Host) (p : Page) (d1 d2 : TicketData) :
  has_ticketContainer host = true ->
  outcome_of (TicketRenderer.init host d2 p) = inl tt /\
  TicketRenderer.init host d2 (page_of (TicketRenderer.init host d1 p))
  = TicketRenderer.init host d2 p /\
  currentData (page_of (TicketRenderer.init host d2 p)) = Some d2 /\
  ticketContainer (page_of (TicketRenderer.init host d2 p))
  = Some (TicketRenderer.buildHtml host d2) /\
  (forall code, qrCode (page_of (TicketRenderer.init host d2 p)) = Some code ->
                code <> "").
Proof.
  intros Hc. destruct p as [f tc qr c cd eb ss]. run. rewrite Hc.
  destruct (qr_region host (TicketRenderer.buildHtml host d1)),
           (qr_region host (TicketRenderer.buildHtml host d2)),
           (QRCode_works host);
    cbn; repeat split; intros code H; try discriminate H;
    injection H as <-;
  rewrite or_else_truthy; apply or_else_not_empty; rewrite append_cons; discriminate.
Qed.

Lemma init_last_wins_witness :
  currentData (page_of (TicketRenderer.init sample_host flight_ticket
                          (fresh_page flight_form)))
  = Some flight_ticket.
Proof.
  apply (init_last_wins sample_host (fresh_page flight_form) flight_ticket flight_ticket).
  reflexivity.
Defined.

(* ===================================================================== *)
(** * Site scripts: theme and menu *)
(* ===================================================================== *)

(** X27: a second click on the theme toggle gives the first theme back; a
    click whose choice is saved and a reload that can read it bring back a
    light choice with its sun icon, whereas a dark choice is left to the
    markup: the page comes back light if the markup is. *)
Theorem theme_across_reload (t : App.Theme) (w1 w2 markup_light : bool) :
  let chosen := App.theme_clicked true t in
  let back := App.theme_loaded true markup_light (App.saved chosen) in
  App.light (App.theme_clicked w2 (App.theme_clicked w1 t)) = App.light t /\
  App.saved back = App.saved chosen /\
  App.light back = App.light chosen || markup_light /\
  (App.light chosen = true -> App.icon back = App.icon chosen) /\
  (App.light chosen = false -> App.icon back = App.Markup).
Proof.
  destruct t as [[|] ic sv], w1, w2, markup_light; cbn; repeat split;
    intros; try reflexivity; discriminate.
Qed.

(** X28: a click on the menu button leaves the button and the navigation in
    step — expanded and shown, or collapsed and hidden —, a first click on a
    button that does not say it is expanded opens the menu, and from then on
    two clicks give the same state back. *)
Theorem menu_in_step (m : App.Menu) :
  let m1 := App.menu_clicked m in
  ((App.aria_expanded m1 = Some "true" /\ App.nav_display m1 = Some "flex") \/
   (App.aria_expanded m1 = Some "false" /\ App.nav_display m1 = Some "none")) /\
  (App.aria_expanded m <> Some "true" ->
   App.aria_expanded m1 = Some "true" /\ App.nav_display m1 = Some "flex") /\
  App.menu_clicked (App.menu_clicked m1) = m1.
Proof.
  destruct m as [[a|] nd].
  - unfold App.menu_clicked. cbn [App.aria_expanded App.nav_display].
    destruct (String.eqb_spec a "true") as [->|Ha]; cbn;
      (split; [ | split ]); try reflexivity.
    + now right.
    + intros K. now destruct K.
    + now left.
    + intros _. now split.
  - cbn. split; [ now left | split; [ intros _; now split | reflexivity ] ].
Qed.
